(** * Stock ETL pipeline: validation, reconciliation and load

    A shallow embedding of the core of the pipeline
    ([dags/utils/transformers.py], [dags/utils/validators.py],
    [dags/utils/loaders.py]) together with the properties its specification
    states about it.

    Conventions of the embedding.
    - A pandas [DataFrame] is a header (the ordered column labels) and an
      ordered list of rows; a row maps a column label to a cell.  The row
      index is not modelled: every frame the pipeline handles comes from
      [pd.read_csv] or is re-indexed with [ignore_index=True].
    - Cells hold what pandas holds: text, binary64 floats (the kernel's
      primitive floats, so arithmetic and comparisons are the IEEE ones the
      Python code runs), integers and timestamps.  The missing value is the
      float [nan], as in pandas; [NaT] is the missing timestamp.  The dtype
      of a column is the one its values have in a frame that [pd.read_csv]
      returned.
    - Python exceptions are explicit: a computation returns [Return v] or
      [Raise e].  [try/except] is a match on that result.
    - The file system and the warehouse are not modelled: what
      [pd.read_csv], [os.makedirs], [DataFrame.to_csv] and the BigQuery
      client do is a parameter of the code that calls them, and every
      property holds whatever they do.  Text read back from a file need not
      be the table that was written to it.
    - f-string messages are kept as structured values (one constructor per
      message template, the interpolated values as arguments). *)

From stdpp Require Import base option list strings gmap sorting.
From Stdlib Require Import Ascii Floats QArith Qpower.

Set Warnings "-inexact-float".

Local Open Scope string_scope.
Local Open Scope list_scope.
Local Open Scope Z_scope.

(** ** Stable sorting and first-occurrence de-duplication

    [DataFrame.sort_values] with several keys is a stable sort;
    [DataFrame.duplicated(keep='first')] marks every row whose key was seen
    in an earlier row.  Both are stated once, over any row type. *)

Section first_occurrence.
Context {A K : Type} `{EqDecision K}.
Variable key : A → K.

Fixpoint duplicated_from (seen : list K) (l : list A) : list bool :=
  match l with
  | [] => []
  | x :: l' =>
      if decide (key x ∈ seen) then true :: duplicated_from seen l'
      else false :: duplicated_from (key x :: seen) l'
  end.

(** [df.duplicated(subset=...)]: the boolean mask. *)
Definition duplicated (l : list A) : list bool := duplicated_from [] l.

(** [df[~mask]]: the rows whose mask entry is [False]. *)
Fixpoint drop_marked (l : list A) (mask : list bool) : list A :=
  match l, mask with
  | x :: l', b :: mask' =>
      if b then drop_marked l' mask' else x :: drop_marked l' mask'
  | _, _ => []
  end.

(** [mask.sum()]. *)
Definition count_true (mask : list bool) : nat :=
  length (List.filter (λ b : bool, b) mask).

Definition dedup_from (seen : list K) (l : list A) : list A :=
  drop_marked l (duplicated_from seen l).

(** [df.drop_duplicates(subset=...)], with the default [keep='first']. *)
Definition drop_duplicates (l : list A) : list A := dedup_from [] l.

(** The first row of [l] carrying the key [k]. *)
Definition first_with_key (k : K) (l : list A) : option A :=
  snd <$> list_find (λ y, key y = k) l.

(** *** De-duplication *)

Lemma filter_all (P : A → Prop) `{∀ x, Decision (P x)} l :
  Forall P l → filter P l = l.
Proof.
  induction 1 as [|x l Hx _ IH]; [done|].
  by rewrite filter_cons_True, IH.
Qed.

Lemma dedup_from_nil seen : dedup_from seen [] = [].
Proof. reflexivity. Qed.

Lemma dedup_from_cons seen x l :
  dedup_from seen (x :: l) =
    if decide (key x ∈ seen) then dedup_from seen l
    else x :: dedup_from (key x :: seen) l.
Proof. unfold dedup_from; simpl. by destruct (decide (key x ∈ seen)). Qed.

Lemma dedup_from_seen_equiv s s' l :
  (∀ k, k ∈ s ↔ k ∈ s') → dedup_from s l = dedup_from s' l.
Proof.
  revert s s'. induction l as [|x l IH]; intros s s' Hs; [done|].
  rewrite !dedup_from_cons.
  destruct (decide (key x ∈ s)) as [Hx|Hx], (decide (key x ∈ s')) as [Hx'|Hx'].
  - by apply IH.
  - by apply Hs in Hx.
  - by apply Hs in Hx'.
  - f_equal. apply IH. intros k. rewrite !elem_of_cons. naive_solver.
Qed.

Lemma dedup_from_app s1 s2 l :
  dedup_from (s1 ++ s2) l = filter (λ y, key y ∉ s1) (dedup_from s2 l).
Proof.
  revert s1 s2. induction l as [|x l IH]; intros s1 s2; [done|].
  rewrite !dedup_from_cons.
  destruct (decide (key x ∈ s2)) as [H2|H2].
  - rewrite decide_True by (apply elem_of_app; by right). apply IH.
  - destruct (decide (key x ∈ s1)) as [H1|H1].
    + rewrite decide_True by (apply elem_of_app; by left).
      rewrite filter_cons_False by naive_solver.
      rewrite <- IH. apply dedup_from_seen_equiv.
      intros k. rewrite !elem_of_app, elem_of_cons. naive_solver.
    + rewrite decide_False by (rewrite elem_of_app; naive_solver).
      rewrite filter_cons_True by done. f_equal.
      rewrite <- IH. apply dedup_from_seen_equiv.
      intros k. rewrite !elem_of_cons, !elem_of_app, elem_of_cons. naive_solver.
Qed.

Lemma drop_duplicates_cons x l :
  drop_duplicates (x :: l) =
    x :: filter (λ y, key y ≠ key x) (drop_duplicates l).
Proof.
  unfold drop_duplicates. rewrite dedup_from_cons.
  rewrite decide_False by apply not_elem_of_nil. f_equal.
  change [key x] with ([key x] ++ []). rewrite dedup_from_app.
  apply list_filter_iff. intros y. rewrite list_elem_of_singleton. done.
Qed.

Lemma drop_duplicates_sublist l : drop_duplicates l `sublist_of` l.
Proof.
  induction l as [|x l IH]; [done|].
  rewrite drop_duplicates_cons. apply sublist_skip.
  etrans; [apply sublist_filter|done].
Qed.

Lemma elem_of_drop_duplicates x l : x ∈ drop_duplicates l → x ∈ l.
Proof. intros Hx. eapply elem_of_sublist, drop_duplicates_sublist. done. Qed.

Lemma drop_duplicates_NoDup_keys l : NoDup (key <$> drop_duplicates l).
Proof.
  induction l as [|x l IH]; [constructor|].
  rewrite drop_duplicates_cons, fmap_cons. constructor.
  - rewrite list_elem_of_fmap. intros (y & Hk & Hy).
    apply list_elem_of_filter in Hy as [Hy _]. by apply Hy.
  - apply (sublist_NoDup _ (key <$> drop_duplicates l)); [exact IH|].
    apply fmap_sublist, sublist_filter.
Qed.

Lemma drop_duplicates_keys x l :
  x ∈ l → ∃ y, y ∈ drop_duplicates l ∧ key y = key x.
Proof.
  induction l as [|z l IH]; [by intros ?%elem_of_nil|].
  rewrite drop_duplicates_cons. intros [->|Hx]%elem_of_cons.
  - exists z. split; [left|done].
  - destruct (decide (key x = key z)) as [E|E].
    + exists z. split; [left|done].
    + destruct (IH Hx) as (y & Hy & Hk). exists y. split; [|done].
      right. apply list_elem_of_filter. split; [congruence|done].
Qed.

Lemma first_with_key_cons k x l :
  first_with_key k (x :: l) =
    if decide (key x = k) then Some x else first_with_key k l.
Proof.
  unfold first_with_key. simpl. destruct (decide (key x = k)); [done|].
  destruct (list_find _ l) as [[i y]|]; done.
Qed.

Lemma first_with_key_filter_ne k k' l :
  k ≠ k' →
  first_with_key k (filter (λ y, key y ≠ k') l) = first_with_key k l.
Proof.
  intros Hk. induction l as [|x l IH]; [done|].
  destruct (decide (key x ≠ k')) as [E|E].
  - rewrite filter_cons_True by done. rewrite !first_with_key_cons.
    by rewrite IH.
  - rewrite filter_cons_False by done. rewrite first_with_key_cons.
    rewrite decide_False; [done|]. intros E'. apply E. congruence.
Qed.

(** Every kept row is the first row of the input with its key. *)
Lemma drop_duplicates_first x l :
  x ∈ drop_duplicates l → first_with_key (key x) l = Some x.
Proof.
  induction l as [|z l IH]; [by intros ?%elem_of_nil|].
  rewrite drop_duplicates_cons, first_with_key_cons.
  intros [->|Hx]%elem_of_cons.
  - by rewrite decide_True.
  - apply list_elem_of_filter in Hx as [Hne Hx].
    rewrite decide_False by done. by apply IH.
Qed.

Lemma first_with_key_drop_duplicates k l :
  first_with_key k (drop_duplicates l) = first_with_key k l.
Proof.
  induction l as [|z l IH]; [done|].
  rewrite drop_duplicates_cons, !first_with_key_cons.
  destruct (decide (key z = k)) as [E|E]; [done|].
  rewrite first_with_key_filter_ne by done. exact IH.
Qed.

Lemma drop_duplicates_id l : NoDup (key <$> l) → drop_duplicates l = l.
Proof.
  induction l as [|x l IH]; [done|].
  rewrite fmap_cons, NoDup_cons. intros [Hx Hl].
  rewrite drop_duplicates_cons, IH by done. f_equal.
  apply filter_all, Forall_forall. intros y Hy E. apply Hx.
  rewrite <- E. apply list_elem_of_fmap. by exists y.
Qed.
End first_occurrence.

(** *** Stable sort *)

Section stable_sort_dedup.
Context {A K : Type} `{EqDecision K}.
Variable key : A → K.
Variable leb : A → A → bool.

Fixpoint insert_sorted (x : A) (l : list A) : list A :=
  match l with
  | [] => [x]
  | y :: l' => if leb x y then x :: l else y :: insert_sorted x l'
  end.

(** Insertion sort, each row put in front of the rows it does not follow:
    rows that compare equal keep the order they come in. *)
Definition stable_sort (l : list A) : list A := foldr insert_sorted [] l.

Definition sorted_by_leb : list A → Prop :=
  StronglySorted (λ a b, leb a b = true).

Lemma insert_sorted_Permutation x l : insert_sorted x l ≡ₚ x :: l.
Proof.
  induction l as [|y l IH]; simpl; [done|].
  destruct (leb x y); [done|]. rewrite IH. apply Permutation_swap.
Qed.

Lemma stable_sort_Permutation l : stable_sort l ≡ₚ l.
Proof.
  induction l as [|x l IH]; simpl; [done|].
  by rewrite insert_sorted_Permutation, IH.
Qed.

Lemma sorted_by_leb_sublist l1 l2 :
  l1 `sublist_of` l2 → sorted_by_leb l2 → sorted_by_leb l1.
Proof.
  unfold sorted_by_leb. induction 1 as [|x l1 l2 Hs IH|x l1 l2 Hs IH].
  - done.
  - rewrite !StronglySorted_cons. intros [Hx Hl]. split; [|by apply IH].
    rewrite Forall_forall in *. intros y Hy. apply Hx.
    by eapply elem_of_sublist.
  - rewrite StronglySorted_cons. intros [_ Hl]. by apply IH.
Qed.

Section order.
Hypothesis leb_total : ∀ a b, leb a b = true ∨ leb b a = true.
Hypothesis leb_trans :
  ∀ a b c, leb a b = true → leb b c = true → leb a c = true.
Hypothesis leb_key : ∀ a b, key a = key b → leb a b = true.

Lemma insert_sorted_sorted x l :
  sorted_by_leb l → sorted_by_leb (insert_sorted x l).
Proof.
  unfold sorted_by_leb. induction l as [|y l IH]; simpl.
  - intros _. apply StronglySorted_cons. split; [constructor|constructor].
  - rewrite StronglySorted_cons. intros [Hy Hl].
    destruct (leb x y) eqn:E.
    + rewrite !StronglySorted_cons. split_and!; [|done..].
      constructor; [done|]. eapply Forall_impl; [exact Hy|].
      intros z Hz. by eapply leb_trans.
    + rewrite StronglySorted_cons. split; [|by apply IH].
      rewrite insert_sorted_Permutation. constructor; [|done].
      destruct (leb_total x y); congruence.
Qed.

Lemma stable_sort_sorted l : sorted_by_leb (stable_sort l).
Proof.
  induction l as [|x l IH]; simpl; [constructor|].
  by apply insert_sorted_sorted.
Qed.

Lemma insert_sorted_head x l :
  Forall (λ y, leb x y = true) l → insert_sorted x l = x :: l.
Proof. destruct 1 as [|y l Hy _]; simpl; [done|]. by rewrite Hy. Qed.

(** Sorting a frame that is already in order changes nothing. *)
Lemma stable_sort_id l : sorted_by_leb l → stable_sort l = l.
Proof.
  unfold sorted_by_leb. induction l as [|x l IH]; [done|].
  rewrite StronglySorted_cons. intros [Hx Hl]. simpl.
  rewrite IH by done. by apply insert_sorted_head.
Qed.

Lemma filter_insert_sorted (P : A → Prop) `{∀ x, Decision (P x)} x l :
  sorted_by_leb l →
  filter P (insert_sorted x l) =
    if decide (P x) then insert_sorted x (filter P l) else filter P l.
Proof.
  unfold sorted_by_leb. induction l as [|y l IH]; simpl.
  - intros _. rewrite filter_cons, filter_nil. by destruct (decide (P x)).
  - rewrite StronglySorted_cons. intros [Hy Hl].
    destruct (leb x y) eqn:E.
    + rewrite (filter_cons _ x). destruct (decide (P x)); [|done].
      symmetry. apply insert_sorted_head.
      apply Forall_forall. intros z [_ Hz]%list_elem_of_filter.
      apply elem_of_cons in Hz as [->|Hz]; [done|].
      rewrite Forall_forall in Hy. eapply leb_trans; eauto.
    + rewrite !(filter_cons _ y), IH by done.
      destruct (decide (P y)), (decide (P x)); simpl; by rewrite ?E.
Qed.

Lemma filter_stable_sort (P : A → Prop) `{∀ x, Decision (P x)} l :
  filter P (stable_sort l) = stable_sort (filter P l).
Proof.
  induction l as [|x l IH]; [done|]. simpl.
  rewrite filter_insert_sorted by apply stable_sort_sorted.
  rewrite filter_cons, IH. by destruct (decide (P x)).
Qed.

Lemma drop_duplicates_insert_sorted x l :
  sorted_by_leb l →
  drop_duplicates key (insert_sorted x l) =
    insert_sorted x (filter (λ y, key y ≠ key x) (drop_duplicates key l)).
Proof.
  induction l as [|y l IH]; [done|].
  intros Hs. pose proof Hs as [Hy Hl]%StronglySorted_cons. simpl.
  destruct (leb x y) eqn:E.
  - rewrite drop_duplicates_cons. symmetry. apply insert_sorted_head.
    apply Forall_forall. intros z [_ Hz]%list_elem_of_filter.
    apply elem_of_drop_duplicates, elem_of_cons in Hz as [->|Hz]; [done|].
    rewrite Forall_forall in Hy. eapply leb_trans; eauto.
  - assert (key x ≠ key y) as Hk.
    { intros Hk. apply leb_key in Hk. congruence. }
    rewrite !drop_duplicates_cons, IH by done.
    rewrite filter_insert_sorted.
    + rewrite decide_True by done.
      rewrite (filter_cons _ y), decide_True by done. simpl. rewrite E.
      f_equal. f_equal. rewrite !list_filter_filter.
      apply list_filter_iff. naive_solver.
    + eapply sorted_by_leb_sublist; [|exact Hl].
      etrans; [apply sublist_filter|apply drop_duplicates_sublist].
Qed.

(** De-duplicating and then sorting gives the frame that sorting (stably)
    and then de-duplicating gives: the row kept for a key is the same,
    and so is the order. *)
Theorem stable_sort_drop_duplicates l :
  stable_sort (drop_duplicates key l) = drop_duplicates key (stable_sort l).
Proof.
  induction l as [|x l IH]; [done|].
  rewrite drop_duplicates_cons. simpl.
  rewrite <- filter_stable_sort, IH.
  symmetry. apply drop_duplicates_insert_sorted, stable_sort_sorted.
Qed.
End order.
End stable_sort_dedup.

(** ** Cells and their order *)

Inductive cell :=
  | Str (s : string)   (* a Python [str] in an object column *)
  | Flt (f : float)    (* a float64; [nan] is the missing value *)
  | Int (z : Z)        (* an int64 *)
  | Ts (t : Z)         (* a [Timestamp], in nanoseconds since the epoch *)
  | NaT.               (* the missing timestamp *)

Definition NaN : cell := Flt nan.

Global Instance float_eq_dec : EqDecision float.
Proof.
  intros x y. destruct (PrimFloat.Leibniz.eqb x y) eqn:E.
  - left. by apply FloatAxioms.Leibniz.eqb_spec.
  - right. intros Hxy. apply FloatAxioms.Leibniz.eqb_spec in Hxy. congruence.
Defined.

Global Instance cell_eq_dec : EqDecision cell.
Proof. solve_decision. Defined.

(** [pd.isna]. *)
Definition isna (c : cell) : bool :=
  match c with
  | Flt f => PrimFloat.is_nan f
  | NaT => true
  | _ => false
  end.

(** The value of an int64 as a float64 (exact below 2^53, rounded above). *)
Definition float_of_Z (z : Z) : float :=
  if z <? 0 then PrimFloat.opp (PrimFloat.of_uint63 (Uint63.of_Z (- z)))
  else PrimFloat.of_uint63 (Uint63.of_Z z).

(** The order [sort_values] puts cells in.  Within one column pandas sorts
    numbers by value, text by code point and timestamps by time, with the
    missing values last ([na_position='last']); in a column of mixed kinds
    the numbers come before the text.  A cell is ranked by its kind and then
    compared within the kind; the value of a finite float is its exact
    rational value. *)
Definition cell_rank (c : cell) : nat :=
  match c with
  | Flt f =>
      match Prim2SF f with
      | S754_infinity true => 0
      | S754_zero _ | S754_finite _ _ _ => 1
      | S754_infinity false => 2
      | S754_nan => 5
      end
  | Int _ => 1
  | Ts _ => 3
  | Str _ => 4
  | NaT => 5
  end%nat.

Definition cell_value (c : cell) : Q :=
  match c with
  | Flt f =>
      match Prim2SF f with
      | S754_finite s m e =>
          ((if s then -1 else 1) * inject_Z (Z.pos m) * Qpower 2 e)%Q
      | _ => 0%Q
      end
  | Int z => inject_Z z
  | _ => 0%Q
  end.

Definition cell_leb (a b : cell) : bool :=
  if (cell_rank a <? cell_rank b)%nat then true
  else if (cell_rank b <? cell_rank a)%nat then false
  else match a, b with
       | Str s1, Str s2 => String.leb s1 s2
       | Ts t1, Ts t2 => t1 <=? t2
       | _, _ => Qle_bool (cell_value a) (cell_value b)
       end.

Definition cell_ltb (a b : cell) : bool := negb (cell_leb b a).

Lemma string_compare_trans_lt a b c :
  String.compare a b = Lt → String.compare b c = Lt → String.compare a c = Lt.
Proof.
  revert b c. induction a as [|x a IH]; intros [|y b] [|z c]; simpl; try done.
  unfold Ascii.compare.
  destruct (N.compare_spec (Ascii.N_of_ascii x) (Ascii.N_of_ascii y)) as [E1|E1|E1];
    destruct (N.compare_spec (Ascii.N_of_ascii y) (Ascii.N_of_ascii z)) as [E2|E2|E2];
    try done; intros H1 H2.
  - rewrite E1, E2, N.compare_refl. by eapply IH.
  - rewrite E1. by rewrite (proj2 (N.compare_lt_iff _ _) E2).
  - rewrite <- E2. by rewrite (proj2 (N.compare_lt_iff _ _) E1).
  - by rewrite (proj2 (N.compare_lt_iff _ _)) by lia.
Qed.

Lemma string_leb_trans a b c :
  String.leb a b = true → String.leb b c = true → String.leb a c = true.
Proof.
  unfold String.leb.
  destruct (String.compare a b) eqn:E1; [|
    destruct (String.compare b c) eqn:E2|]; try done.
  - apply String.compare_eq_iff in E1 as ->. done.
  - apply String.compare_eq_iff in E2 as ->. by rewrite E1.
  - by rewrite (string_compare_trans_lt _ _ _ E1 E2).
Qed.

Lemma Qle_bool_total a b : Qle_bool a b = true ∨ Qle_bool b a = true.
Proof.
  rewrite !Qle_bool_iff. destruct (Qlt_le_dec a b) as [Hlt|Hle]; [left|by right].
  by apply Qlt_le_weak.
Qed.

Lemma Qle_bool_trans a b c :
  Qle_bool a b = true → Qle_bool b c = true → Qle_bool a c = true.
Proof. rewrite !Qle_bool_iff. apply Qle_trans. Qed.

Lemma cell_leb_total a b : cell_leb a b = true ∨ cell_leb b a = true.
Proof.
  unfold cell_leb.
  destruct (Nat.ltb_spec (cell_rank a) (cell_rank b)); [by left|].
  destruct (Nat.ltb_spec (cell_rank b) (cell_rank a)); [by right|].
  destruct a, b; try apply Qle_bool_total.
  - apply String.leb_total.
  - rewrite !Z.leb_le. lia.
Qed.

Lemma cell_leb_trans a b c :
  cell_leb a b = true → cell_leb b c = true → cell_leb a c = true.
Proof.
  unfold cell_leb.
  destruct (Nat.ltb_spec (cell_rank a) (cell_rank b)) as [Hab|Hab].
  - intros _.
    destruct (Nat.ltb_spec (cell_rank b) (cell_rank c)) as [Hbc|Hbc].
    + intros _. by rewrite (proj2 (Nat.ltb_lt _ _)) by lia.
    + destruct (Nat.ltb_spec (cell_rank c) (cell_rank b)); [done|].
      intros _. by rewrite (proj2 (Nat.ltb_lt _ _)) by lia.
  - destruct (Nat.ltb_spec (cell_rank b) (cell_rank a)) as [Hba|Hba]; [done|].
    intros H1.
    destruct (Nat.ltb_spec (cell_rank b) (cell_rank c)) as [Hbc|Hbc].
    + intros _. by rewrite (proj2 (Nat.ltb_lt _ _)) by lia.
    + destruct (Nat.ltb_spec (cell_rank c) (cell_rank b)) as [Hcb|Hcb]; [done|].
      intros H2.
      rewrite (proj2 (Nat.ltb_ge (cell_rank a) (cell_rank c))) by lia.
      rewrite (proj2 (Nat.ltb_ge (cell_rank c) (cell_rank a))) by lia.
      assert (cell_rank a = cell_rank b) as Eab by lia.
      assert (cell_rank b = cell_rank c) as Ebc by lia.
      destruct a, b, c; simpl in Eab, Ebc; try discriminate;
        try exact (Qle_bool_trans _ _ _ H1 H2);
        try exact (string_leb_trans _ _ _ H1 H2);
        try (rewrite ?Z.leb_le in *; lia);
        repeat match goal with
               | H : context [Prim2SF ?f] |- _ => destruct (Prim2SF f) as [[]|[]| |]
               end; discriminate.
Qed.

(** The order on rows that [sort_values(by)] sorts in: the [by] columns
    compared one after the other. *)
Lemma cell_leb_refl a : cell_leb a a = true.
Proof. by destruct (cell_leb_total a a). Qed.

(** The float64 nearest to an int64. *)
Definition float_of_int64 (z : Z) : float :=
  if z =? - 2 ^ 63 then (-9223372036854775808)%float else float_of_Z z.

Lemma is_nan_Prim2SF f : PrimFloat.is_nan f = true ↔ Prim2SF f = S754_nan.
Proof.
  unfold Prim2SF. destruct (PrimFloat.is_nan f); [done|].
  split; [done|].
  destruct (PrimFloat.is_zero f); [done|].
  destruct (PrimFloat.is_infinity f); [done|].
  destruct (Z.frexp f) as [r e]. destruct (shr_fexp _ _ _ _ _) as [shr e'].
  by destruct (shr_m shr).
Qed.

(** *** Values as pandas compares them

    [duplicated()], [unique()], [nunique()] and the element-wise [==]
    compare values, not representations: an integer equals the float of the
    same value, the two float zeros are equal, text equals only text. *)

Inductive value_class :=
  | VStr (s : string)
  | VNum (q : Q)
  | VInf (negative : bool)
  | VTs (t : Z)
  | VNaN
  | VNaT.

Global Instance Q_eq_dec : EqDecision Q.
Proof. solve_decision. Defined.

Global Instance value_class_eq_dec : EqDecision value_class.
Proof. solve_decision. Defined.

Definition value_of (c : cell) : value_class :=
  match c with
  | Str s => VStr s
  | Int z => VNum (Qred (inject_Z z))
  | Flt f =>
      match Prim2SF f with
      | S754_nan => VNaN
      | S754_infinity s => VInf s
      | _ => VNum (Qred (cell_value c))
      end
  | Ts t => VTs t
  | NaT => VNaT
  end.

(** The value of a cell of a key column: [DataFrame.duplicated] numbers the
    values of each column of the subset ([factorize]), and the missing
    values of a column get one number. *)
Definition key_value (c : cell) : option value_class :=
  if isna c then None else Some (value_of c).

(** Cells with one key value are in one place of the sort order. *)
Lemma value_of_leb a b : value_of a = value_of b → cell_leb a b = true.
Proof.
  unfold cell_leb.
  destruct a as [s1|f1|z1|t1|], b as [s2|f2|z2|t2|];
    unfold value_of, cell_rank, cell_value;
    repeat match goal with
           | |- context [Prim2SF ?f] => generalize (Prim2SF f); intros [[]|[]| |]
           end;
    cbn [Nat.ltb Nat.leb]; intros E; try discriminate E;
    try (injection E as E); try subst;
    first [by destruct (String.leb_total s2 s2) | apply Z.leb_le; lia
          | apply Qle_bool_iff; apply Qred_eq_iff in E; rewrite E; apply Qle_refl
          | reflexivity ].
Qed.

Lemma isna_leb a b : isna a = true → isna b = true → cell_leb a b = true.
Proof.
  assert (∀ c, isna c = true → cell_rank c = 5%nat ∧ cell_value c = 0%Q) as H.
  { intros [| f | | |]; try done.
    intros Hf%is_nan_Prim2SF. unfold cell_rank, cell_value. by rewrite Hf. }
  intros Ha Hb. unfold cell_leb.
  destruct (H a Ha) as [Ra Va], (H b Hb) as [Rb Vb].
  rewrite Ra, Rb, Va, Vb. cbn [Nat.ltb Nat.leb]. by destruct a, b.
Qed.

Lemma key_value_leb a b : key_value a = key_value b → cell_leb a b = true.
Proof.
  unfold key_value.
  destruct (isna a) eqn:Ha, (isna b) eqn:Hb; try done.
  - intros _. by apply isna_leb.
  - intros [= E]. by apply value_of_leb.
Qed.

(** *** The dtype of a column *)

Inductive dtype := object | float64 | int64 | datetime64.

Global Instance dtype_eq_dec : EqDecision dtype.
Proof. solve_decision. Defined.

Definition is_float (c : cell) : bool :=
  match c with Flt _ => true | _ => false end.
Definition is_int (c : cell) : bool :=
  match c with Int _ => true | _ => false end.
Definition is_datetime (c : cell) : bool :=
  match c with Ts _ | NaT => true | _ => false end.
Definition is_numeric (c : cell) : bool := is_float c || is_int c.

(** The dtype [pd.read_csv] gives a column with these values; a column
    without values is an [object] column, as the columns of a file that
    holds a header line only. *)
Definition dtype_of (col : list cell) : dtype :=
  match col with
  | [] => object
  | _ =>
      if forallb is_float col then float64
      else if forallb is_int col then int64
      else if forallb is_datetime col then datetime64
      else object
  end.

(** ** Exceptions *)

(** The exceptions the pipeline raises or lets pass.  [OSError] stands for
    the subclasses of [OSError] other than [FileNotFoundError], by the name
    of the class ([IsADirectoryError], [FileExistsError],
    [PermissionError], ...), [Exception] for any other class. *)
Inductive exn :=
  | KeyError (label : string)
  | TypeError
  | ValueError (msg : string)
  | AttributeError
  | FileNotFoundError (path : string)
  | OSError (name : string)
  | DefaultCredentialsError
  | GoogleCloudError (msg : string)
  | Exception (name : string).

Inductive outcome (A : Type) :=
  | Return (a : A)
  | Raise (e : exn).
Global Arguments Return {A} a.
Global Arguments Raise {A} e.

Global Instance outcome_ret : MRet outcome := @Return.
Global Instance outcome_bind : MBind outcome := λ A B f m,
  match m with
  | Return a => f a
  | Raise e => Raise e
  end.

Definition of_option {A} (e : exn) (o : option A) : outcome A :=
  match o with
  | Some a => Return a
  | None => Raise e
  end.

Lemma outcome_bind_Return {A B} (f : A → outcome B) m b :
  m ≫= f = Return b → ∃ a, m = Return a ∧ f a = Return b.
Proof. destruct m as [a|e]; [by exists a|done]. Qed.

(** ** Data frames *)

Notation row := (gmap string cell).

Record DataFrame := mkFrame { columns : list string; rows : list row }.

Global Instance DataFrame_eq_dec : EqDecision DataFrame.
Proof. solve_decision. Defined.

(** The value a row shows in a column; a column the row has no entry for
    reads as missing. *)
Definition cell_at (c : string) (r : row) : cell := default NaN (r !! c).

(** The cells of a column, for a label that is known to be a column. *)
Definition column (c : string) (df : DataFrame) : list cell :=
  cell_at c <$> rows df.

(** [df.empty]: one of the axes has length 0. *)
Definition empty (df : DataFrame) : bool :=
  bool_decide (columns df = [] ∨ rows df = []).

(** The first label of [labels] that is not a column of the frame: the label
    the [KeyError] of an indexing operation names. *)
Definition missing_label (labels : list string) (df : DataFrame) : option string :=
  snd <$> list_find (λ c, c ∉ columns df) labels.

Definition require (labels : list string) (df : DataFrame) : outcome unit :=
  match missing_label labels df with
  | Some c => Raise (KeyError c)
  | None => Return ()
  end.

(** [df[c]] *)
Definition getitem (c : string) (df : DataFrame) : outcome (list cell) :=
  _ ← require [c] df; Return (cell_at c <$> rows df).

(** [df[c] = vals], for a column computed from the frame itself (one value
    per row): an existing column is replaced in place, a new one is appended
    on the right. *)
Definition setitem (c : string) (vals : list cell) (df : DataFrame) : DataFrame :=
  {| columns := if decide (c ∈ columns df) then columns df else columns df ++ [c];
     rows := zip_with (λ r v, <[c := v]> r) (rows df) vals |}.

(** [df[mask]] *)
Fixpoint select {A} (l : list A) (mask : list bool) : list A :=
  match l, mask with
  | x :: l', b :: mask' => if b then x :: select l' mask' else select l' mask'
  | _, _ => []
  end.

Fixpoint row_leb (by_ : list string) (r1 r2 : row) : bool :=
  match by_ with
  | [] => true
  | c :: by' =>
      if cell_ltb (cell_at c r1) (cell_at c r2) then true
      else if cell_ltb (cell_at c r2) (cell_at c r1) then false
      else row_leb by' r1 r2
  end.

(** [df.sort_values(by)] *)
Definition sort_values (by_ : list string) (df : DataFrame) : outcome DataFrame :=
  _ ← require by_ df;
  Return {| columns := columns df; rows := stable_sort (row_leb by_) (rows df) |}.

(** The key of a row for [duplicated(subset)]: the values it has in the
    [subset] columns, as pandas compares them. *)
Definition subset_key (subset : list string) (r : row)
    : list (option value_class) :=
  (λ c, key_value (cell_at c r)) <$> subset.

(** [df.duplicated(subset=subset)] *)
Definition frame_duplicated (subset : list string) (df : DataFrame) : outcome (list bool) :=
  _ ← require subset df;
  Return (duplicated (subset_key subset) (rows df)).

(** [df.drop_duplicates(subset=subset)] *)
Definition frame_drop_duplicates (subset : list string) (df : DataFrame) : outcome DataFrame :=
  _ ← require subset df;
  Return {| columns := columns df;
            rows := drop_duplicates (subset_key subset) (rows df) |}.

(** *** Concatenation *)

(** The union of the frames' columns, each label at its first appearance. *)
Definition union_columns (acc : list string) (df : DataFrame) : list string :=
  acc ++ filter (λ c, c ∉ acc) (columns df).

(** The dtypes of column [c] in the frames that have it and hold a row: a
    part without a value does not count when [pd.concat] looks for the
    dtype of the result. *)
Definition dtypes_of_parts (c : string) (dfs : list DataFrame) : list dtype :=
  omap (λ df, if bool_decide (c ∈ columns df ∧ rows df ≠ [])
              then Some (dtype_of (column c df)) else None) dfs.

(** [pd.concat] gives every column one dtype.  A column whose parts are
    all [int64] or [float64] becomes [float64] when one part is [float64]
    or when a frame lacks the column, as the missing value is a float; in
    every other case the values are kept as they are: [int64] parts alone
    stay [int64], and text beside numbers makes an [object] column that
    holds the numbers unchanged. *)
Definition becomes_float64 (c : string) (dfs : list DataFrame) : bool :=
  forallb (λ t, bool_decide (t = int64 ∨ t = float64)) (dtypes_of_parts c dfs)
  && (existsb (λ t, bool_decide (t = float64)) (dtypes_of_parts c dfs)
      || existsb (λ df, bool_decide (c ∉ columns df)) dfs).

(** [values.astype('float64')] on a value of a numeric column. *)
Definition to_float64 (v : cell) : cell :=
  match v with
  | Int z => Flt (float_of_int64 z)
  | _ => v
  end.

(** A column in which every value is a timestamp or [NaT] is filled with
    [NaT] where a frame lacks it, any other column with [nan]. *)
Definition fill_value (c : string) (dfs : list DataFrame) : cell :=
  match dtypes_of_parts c dfs with
  | [] => NaN
  | ts => if forallb (λ t, bool_decide (t = datetime64)) ts then NaT else NaN
  end.

(** The row a frame's row becomes in the result of [pd.concat(dfs)] with
    the columns [cols]. *)
Definition concat_row (cols : list string) (dfs : list DataFrame)
    (df : DataFrame) (r : row) : row :=
  list_to_map
    ((λ c, (c, if decide (c ∈ columns df)
               then if becomes_float64 c dfs then to_float64 (cell_at c r)
                    else cell_at c r
               else fill_value c dfs)) <$> cols).

(** [pd.concat(dfs, ignore_index=True)] *)
Definition concat (dfs : list DataFrame) : outcome DataFrame :=
  match dfs with
  | [] => Raise (ValueError "No objects to concatenate")
  | df :: dfs' =>
      let cols := foldl union_columns (columns df) dfs' in
      Return {| columns := cols;
                rows := dfs ≫= λ df, concat_row cols dfs df <$> rows df |}
  end.

(** A row re-indexed on the labels [cols]: its values in these columns, the
    missing value where it has none. *)
Definition reindex (cols : list string) (r : row) : row :=
  list_to_map ((λ c, (c, cell_at c r)) <$> cols).

(** ** Files *)

(** What the pipeline asks of the file system, as the calls it makes: each
    returns or raises, and [os.makedirs] and [to_csv] change the files.
    [F] is the state of the file system. *)
Record OS (F : Type) := {
  (** [pd.read_csv(path)] *)
  read_csv : string → F → outcome DataFrame;
  (** [os.makedirs(name, exist_ok=True)] *)
  makedirs : string → F → F * outcome ();
  (** [df.to_csv(path, index=False)] *)
  to_csv : DataFrame → string → F → F * outcome ()
}.
Global Arguments read_csv {F}.
Global Arguments makedirs {F}.
Global Arguments to_csv {F}.

Fixpoint has_slash (path : string) : bool :=
  match path with
  | EmptyString => false
  | String a path' => Ascii.eqb a "/"%char || has_slash path'
  end.

(** [p[:p.rfind('/') + 1]] *)
Fixpoint head_of (p : string) : string :=
  match p with
  | EmptyString => EmptyString
  | String a p' =>
      if has_slash p' then String a (head_of p')
      else if Ascii.eqb a "/"%char then String a EmptyString
      else EmptyString
  end.

(** [head.rstrip('/')] *)
Fixpoint rstrip_slash (head : string) : string :=
  match head with
  | EmptyString => EmptyString
  | String a head' =>
      match rstrip_slash head' with
      | EmptyString =>
          if Ascii.eqb a "/"%char then EmptyString else String a EmptyString
      | rest => String a rest
      end
  end.

(** [os.path.dirname(p)]: the part before the last slash, without the
    slashes it ends in unless it holds nothing else. *)
Definition dirname (p : string) : string :=
  match rstrip_slash (head_of p) with
  | EmptyString => head_of p
  | head => head
  end.

(** ** Lemmas on frames *)

Lemma row_leb_total by_ r1 r2 :
  row_leb by_ r1 r2 = true ∨ row_leb by_ r2 r1 = true.
Proof.
  induction by_ as [|c by_ IH]; simpl; [by left|]. unfold cell_ltb.
  destruct (cell_leb_total (cell_at c r1) (cell_at c r2)) as [E|E]; rewrite E; simpl.
  - destruct (cell_leb (cell_at c r2) (cell_at c r1)); simpl; [done|by left].
  - destruct (cell_leb (cell_at c r1) (cell_at c r2)); simpl; [done|by right].
Qed.

Lemma row_leb_trans by_ r1 r2 r3 :
  row_leb by_ r1 r2 = true → row_leb by_ r2 r3 = true → row_leb by_ r1 r3 = true.
Proof.
  induction by_ as [|c by_ IH]; simpl; [done|]. unfold cell_ltb.
  pose proof (cell_leb_trans (cell_at c r1) (cell_at c r2) (cell_at c r3)).
  pose proof (cell_leb_trans (cell_at c r2) (cell_at c r3) (cell_at c r1)).
  pose proof (cell_leb_trans (cell_at c r3) (cell_at c r1) (cell_at c r2)).
  pose proof (cell_leb_trans (cell_at c r3) (cell_at c r2) (cell_at c r1)).
  pose proof (cell_leb_total (cell_at c r1) (cell_at c r2)).
  pose proof (cell_leb_total (cell_at c r2) (cell_at c r3)).
  pose proof (cell_leb_total (cell_at c r1) (cell_at c r3)).
  destruct (cell_leb (cell_at c r1) (cell_at c r2)),
    (cell_leb (cell_at c r2) (cell_at c r1)),
    (cell_leb (cell_at c r2) (cell_at c r3)),
    (cell_leb (cell_at c r3) (cell_at c r2)),
    (cell_leb (cell_at c r1) (cell_at c r3)),
    (cell_leb (cell_at c r3) (cell_at c r1)); simpl; naive_solver.
Qed.

(** Rows with one key are in one place of the order of [sort_values] by
    the key columns. *)
Lemma row_leb_key by_ r1 r2 :
  subset_key by_ r1 = subset_key by_ r2 → row_leb by_ r1 r2 = true.
Proof.
  induction by_ as [|c by_ IH]; simpl; [done|]. intros [= E1 E2].
  unfold cell_ltb.
  rewrite (key_value_leb _ _ E1), (key_value_leb _ _ (eq_sym E1)). simpl.
  by apply IH.
Qed.

Lemma require_Return labels df :
  require labels df = Return () ↔ ∀ c, c ∈ labels → c ∈ columns df.
Proof.
  unfold require, missing_label.
  destruct (list_find _ labels) as [[i c]|] eqn:E; simpl.
  - split; [done|]. intros Hall.
    apply list_find_Some in E as (Hi & Hc & _).
    destruct Hc. apply Hall. by eapply list_elem_of_lookup_2.
  - split; [|done]. intros _ c Hc.
    apply list_find_None in E. rewrite Forall_forall in E.
    specialize (E c Hc). by apply dec_stable in E.
Qed.

Lemma require_unit labels df u : require labels df = Return u → require labels df = Return ().
Proof. by destruct u. Qed.

(** A [KeyError] names a label that is wanted and is no column. *)
Lemma require_Raise labels df e :
  require labels df = Raise e →
  ∃ c, e = KeyError c ∧ c ∈ labels ∧ c ∉ columns df.
Proof.
  unfold require, missing_label.
  destruct (list_find _ labels) as [[i c]|] eqn:E; simpl; [|done].
  apply list_find_Some in E as (Hi & Hc & _).
  intros [= <-]. exists c. split; [done|].
  split; [by eapply list_elem_of_lookup_2|done].
Qed.

Lemma lookup_reindex cols r c :
  reindex cols r !! c = if decide (c ∈ cols) then Some (cell_at c r) else None.
Proof.
  unfold reindex. induction cols as [|c' cols IH].
  - by rewrite fmap_nil, list_to_map_nil, lookup_empty.
  - rewrite fmap_cons, list_to_map_cons.
    destruct (decide (c' = c)) as [->|Hne].
    + rewrite lookup_insert_eq. rewrite decide_True; [done|left].
    + rewrite lookup_insert_ne by done. rewrite IH.
      apply decide_ext. rewrite elem_of_cons. naive_solver.
Qed.

Lemma cell_at_reindex cols r c : c ∈ cols → cell_at c (reindex cols r) = cell_at c r.
Proof. intros Hc. unfold cell_at at 1. by rewrite lookup_reindex, decide_True. Qed.

Lemma reindex_idemp cols r : reindex cols (reindex cols r) = reindex cols r.
Proof.
  unfold reindex at 1 3. f_equal. apply list_fmap_ext.
  intros i c Hc. f_equal. apply cell_at_reindex. by eapply list_elem_of_lookup_2.
Qed.

(** *** The files of the examples

    A file system to run the pipeline on the examples.  A file is given by
    the table whose text it holds, so that [to_csv] keeps the table it is
    handed.  [read_csv] types every column by its text: a column in which
    every field is a string of at most 18 digits is read as integers; the
    other columns of the examples hold text that is no number, or numbers,
    which are written as they are read, and are read as they were written.
    Directories are not kept: [os.makedirs] refuses the empty name, and
    [to_csv] a path that ends in a slash. *)

Fixpoint digits_value (acc : Z) (s : string) : option Z :=
  match s with
  | EmptyString => Some acc
  | String a s' =>
      let n := Z.of_N (N_of_ascii a) in
      if (48 <=? n) && (n <=? 57) then digits_value (10 * acc + (n - 48)) s'
      else None
  end.

(** The integer a field of digits is read as. *)
Definition numeral (v : cell) : option Z :=
  match v with
  | Str (String a s) =>
      if (String.length (String a s) <=? 18)%nat then digits_value 0 (String a s)
      else None
  | _ => None
  end.

Definition integer_column (c : string) (df : DataFrame) : bool :=
  bool_decide (rows df ≠ []) && forallb (λ v, bool_decide (is_Some (numeral v)))
                                  (column c df).

(** The table [read_csv] returns for the text of a table. *)
Definition read_back (df : DataFrame) : DataFrame :=
  {| columns := columns df;
     rows := (λ r, list_to_map
                     ((λ c, (c, if integer_column c df
                                then from_option Int (cell_at c r)
                                       (numeral (cell_at c r))
                                else cell_at c r)) <$> columns df))
             <$> rows df |}.

Fixpoint ends_in_slash (path : string) : bool :=
  match path with
  | EmptyString => false
  | String a EmptyString => Ascii.eqb a "/"%char
  | String _ path' => ends_in_slash path'
  end.

Definition csv_files : OS (gmap string DataFrame) :=
  {| read_csv := λ path files,
       match files !! path with
       | Some df =>
           if bool_decide (columns df = [])
           then Raise (ValueError "No columns to parse from file")
           else Return (read_back df)
       | None => Raise (FileNotFoundError path)
       end;
     makedirs := λ name files,
       (files, if bool_decide (name = "") then Raise (FileNotFoundError name)
               else Return ());
     to_csv := λ df path files,
       if ends_in_slash path then (files, Raise (OSError "IsADirectoryError"))
       else (<[path := df]> files, Return ()) |}.

(** ** Columns

    What the pipeline does with single columns: dtype tests, conversions,
    element-wise arithmetic and comparisons, reductions.  A column is the
    list of its cells; its dtype is the one [pd.read_csv] infers from the
    values, and a column without values is an [object] column, as the
    columns of a file that holds a header line only. *)

(** [pd.api.types.is_datetime64_any_dtype(series)] *)
Definition is_datetime64_any_dtype (col : list cell) : bool :=
  bool_decide (dtype_of col = datetime64).

(** [df[c] = value], a scalar broadcast to every row. *)
Definition setitem_scalar (c : string) (v : cell) (df : DataFrame) : DataFrame :=
  setitem c (replicate (length (rows df)) v) df.

(** A number as a float64. *)
Definition to_numeric (c : cell) : outcome float :=
  match c with
  | Flt f => Return f
  | Int z => Return (float_of_int64 z)
  | _ => Raise TypeError
  end.

(** Element-wise arithmetic of two columns of one frame. *)
Definition series_op (op : float → float → float) (a b : list cell)
    : outcome (list cell) :=
  mapM (λ p : cell * cell,
          x ← to_numeric p.1; y ← to_numeric p.2; Return (Flt (op x y)))
       (zip a b).

(** A float function applied to every value of a numeric column. *)
Definition series_map (g : float → float) (a : list cell) : outcome (list cell) :=
  mapM (λ c, x ← to_numeric c; Return (Flt (g x))) a.

(** [numpy.rint]: the nearest integer, ties to even, the sign kept. *)
Definition two52 : float := 4503599627370496%float.

Definition rint (x : float) : float :=
  let a := PrimFloat.abs x in
  if PrimFloat.ltb a two52 then
    let r := PrimFloat.sub (PrimFloat.add a two52) two52 in
    if PrimFloat.get_sign x then PrimFloat.opp r else r
  else x.

(** [series.round(2)] is [numpy.round(values, 2)]: scale by [10**2], round
    to the nearest integer, scale back. *)
Definition round2 (x : float) : float :=
  PrimFloat.div (rint (PrimFloat.mul x 100%float)) 100%float.

(** *** Calendar dates *)

Definition ns_per_day : Z := 86400 * 10 ^ 9.

(** The civil date (year, month, day) of a day number counted from
    1970-01-01, in the proleptic Gregorian calendar. *)
Definition civil_from_days (z : Z) : Z * Z * Z :=
  let z := z + 719468 in
  let era := z / 146097 in
  let doe := z - era * 146097 in
  let yoe := (doe - doe / 1460 + doe / 36524 - doe / 146096) / 365 in
  let doy := doe - (365 * yoe + yoe / 4 - yoe / 100) in
  let mp := (5 * doy + 2) / 153 in
  let d := doy - (153 * mp + 2) / 5 + 1 in
  let m := if mp <? 10 then mp + 3 else mp - 9 in
  (if m <=? 2 then yoe + era * 400 + 1 else yoe + era * 400, m, d).

Definition digit (n : Z) : ascii := ascii_of_N (48 + Z.to_N (n mod 10)).

Definition pad2 (n : Z) : string :=
  String (digit (n / 10)) (String (digit n) EmptyString).

Definition pad4 (n : Z) : string :=
  String (digit (n / 1000)) (String (digit (n / 100)) (pad2 n)).

(** [Timestamp.strftime('%Y-%m-%d')]; a [Timestamp] lies between the years
    1677 and 2262, so that the year has four digits. *)
Definition strftime_ymd (t : Z) : string :=
  let '(y, m, d) := civil_from_days (t / ns_per_day) in
  pad4 y +:+ "-" +:+ pad2 m +:+ "-" +:+ pad2 d.

(** [series.dt.strftime('%Y-%m-%d')]: the [.dt] accessor exists on
    datetime columns only; a missing timestamp formats as the missing value. *)
Definition dt_strftime (col : list cell) : outcome (list cell) :=
  mapM (λ c, match c with
             | Ts t => Return (Str (strftime_ymd t))
             | NaT => Return NaN
             | _ => Raise AttributeError
             end) col.

(** [Timestamp.normalize()]: midnight of the same day. *)
Definition normalize (t : Z) : Z := t - t mod ns_per_day.

(** *** Conversions *)

(** The integer part of a finite float; [None] for [nan] and the
    infinities. *)
Definition trunc_float (f : float) : option Z :=
  match Prim2SF f with
  | S754_zero _ => Some 0
  | S754_finite s m e =>
      let a := if 0 <=? e then Z.pos m * 2 ^ e else Z.pos m / 2 ^ (- e) in
      Some (if s then - a else a)
  | _ => None
  end.

Section conversions.
(** [float(s)] and [int(s)] for a Python string [s]; [None] when Python
    raises [ValueError]. *)
Variable float_of_string : string → option float.
Variable int_of_string : string → option Z.

(** One value under [series.astype(float)]. *)
Definition astype_float (c : cell) : outcome cell :=
  match c with
  | Flt f => Return (Flt f)
  | Int z => Return (Flt (float_of_int64 z))
  | Str s =>
      f ← of_option (ValueError "could not convert string to float")
            (float_of_string s);
      Return (Flt f)
  | Ts _ | NaT => Raise TypeError
  end.

(** One value under [series.astype(int)].  A float is truncated; the
    missing value and the infinities are refused; a float beyond the int64
    range becomes the least int64, as the conversion instruction of x86-64
    has it. *)
Definition astype_int (c : cell) : outcome cell :=
  match c with
  | Int z => Return (Int z)
  | Flt f =>
      match trunc_float f with
      | Some z =>
          Return (Int (if bool_decide (- 2 ^ 63 ≤ z < 2 ^ 63) then z else - 2 ^ 63))
      | None =>
          Raise (ValueError "Cannot convert non-finite values (NA or inf) to integer")
      end
  | Str s =>
      z ← of_option (ValueError "invalid literal for int()") (int_of_string s);
      Return (Int z)
  | Ts _ | NaT => Raise TypeError
  end.

(** One value under [series.fillna(0)]. *)
Definition fillna0 (c : cell) : cell := if isna c then Int 0 else c.

End conversions.

(** *** Element-wise maps that can raise *)

Lemma mapM_Return {A B} (f : A → outcome B) l k :
  mapM f l = Return k ↔ Forall2 (λ a b, f a = Return b) l k.
Proof.
  revert k. induction l as [|a l IH]; intros k.
  - split; [intros [= <-]; constructor|by intros ->%Forall2_nil_inv_l].
  - change (mapM f (a :: l)) with
      (f a ≫= λ b, mapM f l ≫= λ k', Return (b :: k')).
    split.
    + intros (b & Hb & (k' & Hk & [= <-])%outcome_bind_Return)%outcome_bind_Return.
      constructor; [done|]. by apply IH.
    + intros (b & k' & Hb & Hk & ->)%Forall2_cons_inv_l.
      apply IH in Hk. by rewrite Hb, Hk.
Qed.

Lemma mapM_Return_length {A B} (f : A → outcome B) l k :
  mapM f l = Return k → length k = length l.
Proof. intros H%mapM_Return. symmetry. by eapply Forall2_length. Qed.

(** *** Assignment of a column *)

Lemma columns_setitem c c' vals df :
  c' ∈ columns (setitem c vals df) ↔ c' = c ∨ c' ∈ columns df.
Proof.
  unfold setitem; simpl. destruct (decide (c ∈ columns df)) as [Hc|Hc].
  - split; [by right|]. by intros [->|?].
  - rewrite elem_of_app, list_elem_of_singleton. tauto.
Qed.

Lemma rows_setitem (P : row → cell → Prop) c vals df :
  Forall2 P (rows df) vals →
  Forall2 (λ r r', ∃ v, P r v ∧ r' = <[c := v]> r)
          (rows df) (rows (setitem c vals df)).
Proof.
  unfold setitem; simpl. generalize (rows df). intros l H.
  induction H as [|r v l vals Hrv _ IH]; simpl; constructor; eauto.
Qed.

Lemma rows_setitem_scalar c v df :
  rows (setitem_scalar c v df) = (λ r, <[c := v]> r) <$> rows df.
Proof.
  unfold setitem_scalar, setitem; simpl.
  induction (rows df) as [|r l IH]; simpl; [done|]. by rewrite IH.
Qed.

Lemma cell_at_insert c v (r : row) : cell_at c (<[c := v]> r) = v.
Proof. unfold cell_at. by rewrite lookup_insert_eq. Qed.

Lemma cell_at_insert_ne c c' v (r : row) :
  c ≠ c' → cell_at c (<[c' := v]> r) = cell_at c r.
Proof. intros H. unfold cell_at. by rewrite lookup_insert_ne. Qed.

(** Two relations that hold along the same list compose. *)
Lemma Forall2_compose {A B C} (P : A → B → Prop) (Q : B → C → Prop) l1 l2 l3 :
  Forall2 P l1 l2 → Forall2 Q l2 l3 →
  Forall2 (λ a c, ∃ b, P a b ∧ Q b c) l1 l3.
Proof.
  intros H. revert l3. induction H as [|a b l1 l2 Hab _ IH]; intros l3 H3.
  - apply Forall2_nil_inv_l in H3 as ->. constructor.
  - apply Forall2_cons_inv_l in H3 as (c & l3' & Hbc & H3 & ->).
    constructor; eauto.
Qed.

Lemma Forall2_Forall_r {A B} (P : A → B → Prop) (Q : B → Prop) l1 l2 :
  Forall2 P l1 l2 → (∀ a b, a ∈ l1 → P a b → Q b) → Forall Q l2.
Proof.
  induction 1 as [|a b l1 l2 Hab _ IH]; intros HQ; constructor.
  - eapply HQ; [left|done].
  - apply IH. intros a' b' Ha'. apply HQ. by right.
Qed.

Lemma Forall2_fmap_self {A B} (f : A → B) (l : list A) :
  Forall2 (λ a b, b = f a) l (f <$> l).
Proof. induction l; simpl; constructor; auto. Qed.

(** *** Arithmetic along the rows of a frame *)

Lemma to_numeric_Flt f x : to_numeric (Flt f) = Return x → x = f.
Proof. by intros [= <-]. Qed.

Lemma series_op_Return {A} (P Q : A → cell → Prop) op l a b v :
  Forall2 P l a → Forall2 Q l b → series_op op a b = Return v →
  Forall2 (λ r c, ∃ ca cb x y,
             P r ca ∧ Q r cb ∧ to_numeric ca = Return x ∧
             to_numeric cb = Return y ∧ c = Flt (op x y)) l v.
Proof.
  unfold series_op. intros Ha. revert b v.
  induction Ha as [|r ca l a Hca _ IH]; intros b v Hb Hv.
  - apply Forall2_nil_inv_l in Hb as ->. simpl in Hv.
    injection Hv as <-. constructor.
  - apply Forall2_cons_inv_l in Hb as (cb & b' & Hcb & Hb & ->).
    apply mapM_Return in Hv.
    apply Forall2_cons_inv_l in Hv as (c & v' & Hc & Hv & ->).
    apply mapM_Return in Hv. simpl in Hc.
    apply outcome_bind_Return in Hc as (x & Hx & Hc).
    apply outcome_bind_Return in Hc as (y & Hy & [= <-]).
    constructor; [by exists ca, cb, x, y|]. by apply (IH b').
Qed.

Lemma series_map_Return {A} (P : A → cell → Prop) g l a v :
  Forall2 P l a → series_map g a = Return v →
  Forall2 (λ r c, ∃ ca x, P r ca ∧ to_numeric ca = Return x ∧ c = Flt (g x)) l v.
Proof.
  unfold series_map. intros Ha Hv. apply mapM_Return in Hv.
  pose proof (Forall2_compose _ _ _ _ _ Ha Hv) as H.
  eapply Forall2_impl; [exact H|]. simpl.
  intros r c (ca & HP & Hc).
  apply outcome_bind_Return in Hc as (x & Hx & [= <-]). by exists ca, x.
Qed.

Lemma getitem_Return c df v :
  getitem c df = Return v ↔ c ∈ columns df ∧ v = column c df.
Proof.
  unfold getitem, column.
  destruct (require [c] df) as [[]|e] eqn:E; simpl.
  - pose proof (proj1 (require_Return _ _) E) as E'. split.
    + intros [= <-]. split; [apply E'; left|done].
    + by intros [_ ->].
  - split; [done|]. intros [Hc _].
    assert (require [c] df = Return ()) as E'; [|congruence].
    apply require_Return. by intros c' ->%list_elem_of_singleton.
Qed.

Lemma astype_float_is_float fos c v :
  astype_float fos c = Return v → is_float v = true.
Proof.
  destruct c; simpl; try by intros [= <-].
  destruct (fos s); simpl; [by intros [= <-]|done].
Qed.

Lemma astype_int_is_int ios c v :
  astype_int ios c = Return v → is_int v = true.
Proof.
  destruct c; simpl; try by intros [= <-].
  - destruct (ios s); simpl; [by intros [= <-]|done].
  - destruct (trunc_float f); [by intros [= <-]|done].
Qed.

Lemma is_float_Flt c : is_float c = true → ∃ f, c = Flt f.
Proof. destruct c; try done. eauto. Qed.

(** [series.unique()]: the distinct values, in order of first appearance. *)
Definition series_unique (col : list cell) : list cell :=
  drop_duplicates value_of col.

(** [series.nunique()]: the missing values are not counted. *)
Definition series_nunique (col : list cell) : nat :=
  length (List.filter (λ c, negb (isna c)) (series_unique col)).

(** One comparison of [series == value]: a missing value equals nothing. *)
Definition cell_eqb (a b : cell) : bool :=
  negb (isna a) && negb (isna b) && bool_decide (value_of a = value_of b).

(** [df[df[c] == v]] *)
Definition rows_where (c : string) (v : cell) (l : list row) : list row :=
  List.filter (λ r, cell_eqb (cell_at c r) v) l.

(** [series.value_counts().to_dict()]: how often each value that is not
    missing occurs.  The keys are listed in order of first appearance; a
    [dict] has no order for [==]. *)
Definition value_counts (col : list cell) : list (cell * nat) :=
  (λ v, (v, length (List.filter (λ c, cell_eqb c v) col)))
    <$> List.filter (λ c, negb (isna c)) (series_unique col).

(** [df.isnull().sum().to_dict()] *)
Definition missing_values (df : DataFrame) : list (string * nat) :=
  (λ c, (c, length (List.filter isna (column c df)))) <$> columns df.

(** *** Comparisons with a scalar *)

(** One comparison of [series < 0] and [series > bound] for a number
    [bound]: text and timestamps do not compare with a number. *)
Definition lt_zero (c : cell) : outcome bool :=
  match c with
  | Flt f => Return (PrimFloat.ltb f 0%float)
  | Int z => Return (z <? 0)
  | _ => Raise TypeError
  end.

Definition gt_number (bound : Z) (c : cell) : outcome bool :=
  match c with
  | Flt f => Return (PrimFloat.ltb (float_of_int64 bound) f)
  | Int z => Return (bound <? z)
  | _ => Raise TypeError
  end.

(** One comparison of [series > timestamp] and [series < timestamp]: the
    missing timestamp compares false, what is not a timestamp does not
    compare. *)
Definition gt_timestamp (t0 : Z) (c : cell) : outcome bool :=
  match c with
  | Ts t => Return (t0 <? t)
  | NaT => Return false
  | _ => Raise TypeError
  end.

Definition lt_timestamp (t0 : Z) (c : cell) : outcome bool :=
  match c with
  | Ts t => Return (t <? t0)
  | NaT => Return false
  | _ => Raise TypeError
  end.

(** *** Reductions *)

Definition is_str (c : cell) : bool :=
  match c with Str _ => true | _ => false end.

(** The values [min()] and [max()] can order: numbers, or timestamps, or
    text without a missing value (an object column in which a missing value
    stands beside text does not reduce: the two do not compare). *)
Definition reducible (col : list cell) : bool :=
  forallb is_numeric col || forallb is_datetime col || forallb is_str col.

Definition cell_min (a b : cell) : cell := if cell_leb b a then b else a.
Definition cell_max (a b : cell) : cell := if cell_leb a b then b else a.

(** The missing value of a column that holds no value to reduce. *)
Definition na_of (col : list cell) : cell :=
  match col with
  | (Ts _ | NaT) :: _ => NaT
  | _ => NaN
  end.

Definition reduce (f : cell → cell → cell) (col : list cell) : outcome cell :=
  if reducible col then
    match List.filter (λ c, negb (isna c)) col with
    | [] => Return (na_of col)
    | x :: l => Return (foldl f x l)
    end
  else Raise TypeError.

(** [series.min()] and [series.max()], the missing values skipped. *)
Definition series_min (col : list cell) : outcome cell := reduce cell_min col.
Definition series_max (col : list cell) : outcome cell := reduce cell_max col.

Lemma column_setitem c vals df :
  length vals = length (rows df) → column c (setitem c vals df) = vals.
Proof.
  unfold column, setitem; simpl. generalize (rows df). intros l.
  revert vals. induction l as [|r l IH]; intros [|v vals] Hlen; try done.
  simpl in *. rewrite cell_at_insert. f_equal. apply IH. lia.
Qed.

Lemma length_rows_setitem c vals df :
  length vals = length (rows df) →
  length (rows (setitem c vals df)) = length (rows df).
Proof. intros H. unfold setitem; simpl. by rewrite length_zip_with, H, Nat.min_id. Qed.

Lemma length_select {A B} (f : B → bool) (l : list A) (k : list B) :
  length l = length k →
  length (select l (f <$> k)) = length (List.filter f k).
Proof.
  revert k. induction l as [|x l IH]; intros [|y k] Hlen; try done.
  simpl in *. destruct (f y); simpl; rewrite IH by lia; done.
Qed.

Lemma mapM_total {A B} (f : A → outcome B) (g : A → B) l :
  Forall (λ a, f a = Return (g a)) l → mapM f l = Return (g <$> l).
Proof.
  intros H. apply mapM_Return. induction H; simpl; constructor; auto.
Qed.

Lemma existsb_id_fmap_false {A} (l : list A) :
  existsb id ((λ _, false) <$> l) = false.
Proof. by induction l. Qed.

(** ** Steps that change a state and can raise

    The body of a validation changes its report, and [validate_raw_data]
    its frame too, before a later step raises; a load has called the
    warehouse before a later call raises.  The state a step leaves is kept
    when it raises. *)

Definition stateful (S A : Type) : Type := S → S * outcome A.

Global Instance stateful_ret {S} : MRet (stateful S) := λ A a s, (s, Return a).

Global Instance stateful_bind {S} : MBind (stateful S) := λ A B f m s,
  match m s with
  | (s', Return a) => f a s'
  | (s', Raise e) => (s', Raise e)
  end.

Definition lift {S A} (o : outcome A) : stateful S A := λ s, (s, o).
Definition modify {S} (f : S → S) : stateful S () := λ s, (f s, Return ()).
Definition get {S} : stateful S S := λ s, (s, Return s).

(** [if cond: modify...], without an [else]. *)
Definition when {S} (cond : bool) (m : stateful S ()) : stateful S () :=
  if cond then m else mret ().

(** [for x in l: body(x)] *)
Fixpoint for_each {S A} (l : list A) (body : A → stateful S ())
    : stateful S () :=
  match l with
  | [] => mret ()
  | x :: l' => _ ← body x; for_each l' body
  end.


(** A step that leaves a part of the state as it is. *)
Section preserves.
Context {S B : Type} (part : S → B).

Definition preserves {A} (m : stateful S A) : Prop :=
  ∀ s, part (m s).1 = part s.

Lemma preserves_ret {A} (a : A) : preserves (mret a).
Proof. by intros s. Qed.

Lemma preserves_lift {A} (o : outcome A) : preserves (lift o).
Proof. by intros s. Qed.

Lemma preserves_get : preserves get.
Proof. by intros s. Qed.

Lemma preserves_bind {A C} (m : stateful S A) (f : A → stateful S C) :
  preserves m → (∀ a, preserves (f a)) → preserves (m ≫= f).
Proof.
  intros Hm Hf s. specialize (Hm s). unfold mbind, stateful_bind.
  destruct (m s) as [s' [a|e]]; simpl in *; [|done].
  by rewrite Hf.
Qed.

Lemma preserves_when (cond : bool) (m : stateful S ()) :
  preserves m → preserves (when cond m).
Proof. intros Hm. destruct cond; [done|apply preserves_ret]. Qed.

Lemma preserves_if {A} (P : Prop) `{Decision P} (m1 m2 : stateful S A) :
  preserves m1 → preserves m2 → preserves (if decide P then m1 else m2).
Proof. by destruct (decide P). Qed.

Lemma preserves_for_each {A} (l : list A) (body : A → stateful S ()) :
  (∀ x, preserves (body x)) → preserves (for_each l body).
Proof.
  intros Hbody. induction l as [|x l IH]; simpl; [apply preserves_ret|].
  apply preserves_bind; [apply Hbody|done].
Qed.

End preserves.

(** A step that keeps a property of the state. *)
Section invariant.
Context {S : Type} (I : S → Prop).

Definition keeps {A} (m : stateful S A) : Prop := ∀ s, I s → I (m s).1.

Lemma keeps_ret {A} (a : A) : keeps (mret a).
Proof. by intros s. Qed.

Lemma keeps_lift {A} (o : outcome A) : keeps (lift o).
Proof. by intros s. Qed.

Lemma keeps_get : keeps get.
Proof. by intros s. Qed.

Lemma keeps_modify (f : S → S) : (∀ s, I s → I (f s)) → keeps (modify f).
Proof. intros Hf s. apply Hf. Qed.

Lemma keeps_bind {A B} (m : stateful S A) (f : A → stateful S B) :
  keeps m → (∀ a, keeps (f a)) → keeps (m ≫= f).
Proof.
  intros Hm Hf s Hs. specialize (Hm s Hs). unfold mbind, stateful_bind.
  destruct (m s) as [s' [a|e]]; simpl in *; [|done]. by apply Hf.
Qed.

Lemma keeps_when (cond : bool) (m : stateful S ()) : keeps m → keeps (when cond m).
Proof. intros Hm. destruct cond; [done|apply keeps_ret]. Qed.

Lemma keeps_if {A} (P : Prop) `{Decision P} (m1 m2 : stateful S A) :
  keeps m1 → keeps m2 → keeps (if decide P then m1 else m2).
Proof. by destruct (decide P). Qed.

Lemma keeps_for_each {A} (l : list A) (body : A → stateful S ()) :
  (∀ x, keeps (body x)) → keeps (for_each l body).
Proof.
  intros Hbody. induction l as [|x l IH]; simpl; [apply keeps_ret|].
  apply keeps_bind; [apply Hbody|done].
Qed.

End invariant.
(** * Reconciliation: [dags/utils/transformers.py] *)

Module Transformers.

Inductive level := INFO | WARNING | ERROR.

(** The messages the module logs, one constructor per f-string. *)
Inductive log_message :=
  | Transforming_data (source input_path : string)
  | Transformed_records (n : nat) (output_path : string)
  | Merging_datasets (input_paths : list string)
  | Error_reading_file (path : string) (e : exn)
  | Merged_records (n : nat) (output_path : string).

Notation log_record := (level * log_message)%type.

Global Instance level_eq_dec : EqDecision level.
Proof. solve_decision. Defined.

(** The business key of a record. *)
Definition business_key : list string := ["date"; "symbol"; "data_source"].

(** The body of [merge_stock_datasets] between the reads and the write. *)
Definition merge_frames (all_data : list DataFrame) : outcome DataFrame :=
  match all_data with
  | [] => Raise (ValueError "No valid data files to merge")
  | _ =>
      merged_data ← concat all_data;
      merged_data ← frame_drop_duplicates business_key merged_data;
      sort_values business_key merged_data
  end.

Section merge_stock_datasets.
Context {F : Type} (os : OS F).

(** The loop over [input_paths]: a file that cannot be read is logged and
    skipped. *)
Fixpoint read_all (f : F) (input_paths : list string)
    : list DataFrame * list log_record :=
  match input_paths with
  | [] => ([], [])
  | path :: paths =>
      let '(all_data, log) := read_all f paths in
      match read_csv os path f with
      | Return data => (data :: all_data, log)
      | Raise e => (all_data, (ERROR, Error_reading_file path e) :: log)
      end
  end.

(** [merge_stock_datasets(input_paths, output_path)] from the files [f]:
    the records logged, the files after the call, and the path returned or
    the exception raised. *)
Definition merge_stock_datasets (input_paths : list string)
    (output_path : string) (f : F) : list log_record * F * outcome string :=
  let '(all_data, read_log) := read_all f input_paths in
  let log := (INFO, Merging_datasets input_paths) :: read_log in
  match merge_frames all_data with
  | Raise e => (log, f, Raise e)
  | Return merged_data =>
      match makedirs os (dirname output_path) f with
      | (f, Raise e) => (log, f, Raise e)
      | (f, Return _) =>
          match to_csv os merged_data output_path f with
          | (f, Raise e) => (log, f, Raise e)
          | (f, Return _) =>
              (log ++ [(INFO, Merged_records (length (rows merged_data))
                                output_path)],
               f, Return output_path)
          end
      end
  end.

(** The table a merge hands to [to_csv]. *)
Definition merged_table (input_paths : list string) (f : F)
    : outcome DataFrame :=
  merge_frames (read_all f input_paths).1.

End merge_stock_datasets.

(** *** What [merge_frames] returns *)

Notation key := (subset_key business_key).
Notation leb := (row_leb business_key).

Lemma concat_columns_acc acc dfs c :
  c ∈ acc → c ∈ foldl union_columns acc dfs.
Proof.
  revert acc. induction dfs as [|df dfs IH]; intros acc Hc; simpl; [done|].
  apply IH. unfold union_columns. apply elem_of_app. by left.
Qed.

Lemma concat_columns_elem acc dfs df c :
  df ∈ dfs → c ∈ columns df → c ∈ foldl union_columns acc dfs.
Proof.
  revert acc. induction dfs as [|df' dfs IH]; intros acc Hdf Hc; simpl.
  - by apply elem_of_nil in Hdf.
  - apply elem_of_cons in Hdf as [->|Hdf]; [|by apply IH].
    apply concat_columns_acc. unfold union_columns.
    destruct (decide (c ∈ acc)); apply elem_of_app; [by left|right].
    by apply list_elem_of_filter.
Qed.

Lemma concat_Return_columns dfs cat df c :
  concat dfs = Return cat → df ∈ dfs → c ∈ columns df → c ∈ columns cat.
Proof.
  destruct dfs as [|d dfs]; [done|]. intros [= <-] Hdf Hc. simpl.
  apply elem_of_cons in Hdf as [->|Hdf].
  - by apply concat_columns_acc.
  - by eapply concat_columns_elem.
Qed.

Lemma concat_Return dfs : dfs ≠ [] → ∃ cat, concat dfs = Return cat.
Proof. destruct dfs; [done|]. intros _. by eexists. Qed.

(** The concatenation of one frame holds its rows, each with the values it
    has in the columns of the frame. *)
Lemma concat_single T :
  concat [T] = Return {| columns := columns T;
                         rows := reindex (columns T) <$> rows T |}.
Proof.
  unfold concat. simpl. f_equal. f_equal. rewrite app_nil_r.
  apply list_fmap_ext. intros i r Hr. unfold concat_row, reindex. f_equal.
  apply list_fmap_ext. intros j c Hc. f_equal.
  apply list_elem_of_lookup_2 in Hc. rewrite decide_True by done.
  destruct (becomes_float64 c [T]) eqn:E; [|done].
  unfold becomes_float64, dtypes_of_parts in E. simpl in E.
  rewrite (bool_decide_false (c ∉ columns T)) in E by (intros H; by apply H).
  destruct (bool_decide (c ∈ columns T ∧ rows T ≠ [])); simpl in E; [|done].
  rewrite !andb_true_r, !orb_false_r in E.
  apply andb_true_iff in E as [_ E]. apply bool_decide_eq_true in E.
  assert (is_float (cell_at c r) = true) as Hf.
  { unfold dtype_of in E. destruct (column c T) as [|v col] eqn:Hcol; [done|].
    rewrite <- Hcol in E.
    destruct (forallb is_float (column c T)) eqn:Hall.
    - rewrite forallb_forall in Hall. apply Hall. apply list_elem_of_In.
      unfold column. apply list_elem_of_fmap. exists r. split; [done|].
      by eapply list_elem_of_lookup_2.
    - by destruct (forallb is_int (column c T)),
           (forallb is_datetime (column c T)). }
  by destruct (cell_at c r).
Qed.

Lemma merge_frames_Return all_data merged_data :
  merge_frames all_data = Return merged_data ↔
  ∃ cat, concat all_data = Return cat ∧
    (∀ c, c ∈ business_key → c ∈ columns cat) ∧
    merged_data =
      {| columns := columns cat;
         rows := stable_sort leb (drop_duplicates key (rows cat)) |}.
Proof.
  unfold merge_frames. destruct all_data as [|df dfs]; [split; [done|]|].
  { by intros (cat & ? & _). }
  destruct (concat (df :: dfs)) as [cat|e] eqn:Hcat; simpl; [|split; [done|]].
  2: { by intros (cat & ? & _). }
  unfold frame_drop_duplicates, sort_values. simpl.
  destruct (require business_key cat) as [[]|e] eqn:Hreq; simpl.
  - pose proof (proj1 (require_Return _ _) Hreq) as Hcols.
    assert (require business_key
              {| columns := columns cat;
                 rows := drop_duplicates key (rows cat) |} = Return ()) as ->.
    { by apply require_Return. }
    simpl. split.
    + intros [= <-]. by exists cat.
    + intros (cat' & [= <-] & _ & ->). done.
  - split; [done|]. intros (cat' & [= <-] & Hcols & _).
    apply require_Return in Hcols. congruence.
Qed.

(** What [merge_frames] raises: the failure for no data when there is no
    table, and otherwise the [KeyError] of [drop_duplicates] for a key
    column that no table has. *)
Lemma merge_frames_Raise all_data e :
  merge_frames all_data = Raise e ↔
  (all_data = [] ∧ e = ValueError "No valid data files to merge") ∨
  (all_data ≠ [] ∧
   ∃ cat, concat all_data = Return cat ∧
          require business_key cat = Raise e).
Proof.
  unfold merge_frames. destruct all_data as [|df dfs].
  { split; [intros [= <-]; by left|]. by intros [[_ ->]|[? _]]. }
  destruct (concat (df :: dfs)) as [cat|e'] eqn:Hcat; [|done]. simpl.
  unfold frame_drop_duplicates, sort_values. simpl.
  destruct (require business_key cat) as [[]|e'] eqn:Hreq; simpl.
  - pose proof (proj1 (require_Return _ _) Hreq) as Hcols.
    assert (require business_key
              {| columns := columns cat;
                 rows := drop_duplicates key (rows cat) |} = Return ()) as ->.
    { by apply require_Return. }
    simpl. split; [done|]. intros [[? _]|(_ & cat' & [= <-] & ?)]; congruence.
  - split.
    + intros [= <-]. right. split; [done|]. by exists cat.
    + intros [[? _]|(_ & cat' & [= <-] & ?)]; congruence.
Qed.

Lemma reindex_fixed cols (l : list row) :
  Forall (λ r, reindex cols r = r) l → reindex cols <$> l = l.
Proof. induction 1 as [|r l Hr _ IH]; [done|]. by rewrite fmap_cons, Hr, IH. Qed.

Lemma merged_rows_NoDup (l : list row) :
  NoDup (key <$> stable_sort leb (drop_duplicates key l)).
Proof.
  rewrite stable_sort_Permutation. apply drop_duplicates_NoDup_keys.
Qed.

Lemma merged_rows_sorted (l : list row) :
  sorted_by_leb leb (stable_sort leb l).
Proof.
  apply stable_sort_sorted; [apply row_leb_total|apply row_leb_trans].
Qed.

Lemma elem_of_merged_rows (l : list row) r :
  r ∈ stable_sort leb (drop_duplicates key l) ↔ r ∈ drop_duplicates key l.
Proof. by rewrite stable_sort_Permutation. Qed.

(** Between the reads and the write a merge is idempotent: the table made
    of one table is what the merge makes of it again. *)
Lemma merge_frames_idempotent (T merged : DataFrame) :
  merge_frames [T] = Return merged →
  merge_frames [merged] = Return merged.
Proof.
  intros (cat & Hcat & Hcols & ->)%merge_frames_Return.
  rewrite concat_single in Hcat. injection Hcat as <-.
  simpl in Hcols. simpl columns. simpl rows.
  set (cols := columns T) in *.
  set (out := stable_sort leb (drop_duplicates key (reindex cols <$> rows T))).
  apply merge_frames_Return.
  assert (reindex cols <$> out = out) as Hfix.
  { apply reindex_fixed, Forall_forall. intros r Hr.
    apply elem_of_merged_rows, elem_of_drop_duplicates in Hr.
    apply list_elem_of_fmap in Hr as (r0 & -> & _). apply reindex_idemp. }
  eexists. split; [apply concat_single|]. simpl. rewrite Hfix.
  split; [done|]. f_equal.
  rewrite (drop_duplicates_id key out) by apply merged_rows_NoDup.
  symmetry. apply stable_sort_id, merged_rows_sorted.
Qed.

(** *** What [merge_stock_datasets] does *)

Section merge_runs.
Context {F : Type} (os : OS F).

Lemma read_all_nil f input_paths :
  (read_all os f input_paths).1 = [] ↔
  ∀ path, path ∈ input_paths → ∃ e, read_csv os path f = Raise e.
Proof.
  induction input_paths as [|path paths IH]; simpl.
  - split; [|done]. by intros _ p ?%elem_of_nil.
  - destruct (read_all os f paths) as [all_data log].
    destruct (read_csv os path f) as [df|e] eqn:E; simpl in *.
    + split; [done|]. intros Hall. destruct (Hall path) as [e He]; [left|].
      congruence.
    + rewrite IH. split.
      * intros Hall p [->|Hp]%elem_of_cons; eauto.
      * intros Hall p Hp. apply Hall. by right.
Qed.

Lemma read_all_elem f input_paths path df :
  path ∈ input_paths → read_csv os path f = Return df →
  df ∈ (read_all os f input_paths).1.
Proof.
  induction input_paths as [|p paths IH]; simpl.
  - by intros ?%elem_of_nil.
  - destruct (read_all os f paths) as [all_data log]. simpl in *.
    intros [->|Hp]%elem_of_cons E.
    + rewrite E. simpl. left.
    + destruct (read_csv os p f); simpl; [right|]; by apply IH.
Qed.

Lemma read_all_log_levels f input_paths rec :
  rec ∈ (read_all os f input_paths).2 → rec.1 = ERROR.
Proof.
  induction input_paths as [|path paths IH]; simpl.
  - by intros ?%elem_of_nil.
  - destruct (read_all os f paths) as [all_data log]. simpl in *.
    destruct (read_csv os path f); simpl; [done|].
    intros [->|Hrec]%elem_of_cons; [done|by apply IH].
Qed.

(** The runs of [merge_stock_datasets], by the step that ends them. *)
Lemma merge_stock_datasets_cases input_paths output_path f :
  let run := merge_stock_datasets os input_paths output_path f in
  let all_data := (read_all os f input_paths).1 in
  let log := (INFO, Merging_datasets input_paths)
             :: (read_all os f input_paths).2 in
  (∃ e, merge_frames all_data = Raise e ∧ run = (log, f, Raise e)) ∨
  ∃ merged_data, merge_frames all_data = Return merged_data ∧
    ((∃ f1 e, makedirs os (dirname output_path) f = (f1, Raise e) ∧
              run = (log, f1, Raise e)) ∨
     ∃ f1, makedirs os (dirname output_path) f = (f1, Return ()) ∧
       ((∃ f2 e, to_csv os merged_data output_path f1 = (f2, Raise e) ∧
                 run = (log, f2, Raise e)) ∨
        ∃ f2, to_csv os merged_data output_path f1 = (f2, Return ()) ∧
              run = (log ++ [(INFO, Merged_records (length (rows merged_data))
                                      output_path)],
                     f2, Return output_path))).
Proof.
  intros run all_data log. subst run all_data log.
  unfold merge_stock_datasets.
  destruct (read_all os f input_paths) as [all_data read_log]. simpl.
  destruct (merge_frames all_data) as [merged_data|e]; [right|left; by exists e].
  exists merged_data. split; [done|].
  destruct (makedirs os (dirname output_path) f) as [f1 [[]|e]];
    [right|left; by exists f1, e].
  exists f1. split; [done|].
  destruct (to_csv os merged_data output_path f1) as [f2 [[]|e]];
    [right; by exists f2|left; by exists f2, e].
Qed.

End merge_runs.

(** *** Example tables *)

Definition transformed_columns : list string :=
  ["date"; "symbol"; "open"; "high"; "low"; "close"; "volume"; "data_source";
   "processed_at"; "daily_change_pct"; "daily_volatility"].

Definition record (date symbol : string) (open high low close : float)
    (volume : Z) (data_source : string) (change volatility : float) : row :=
  list_to_map
    [("date", Str date); ("symbol", Str symbol); ("open", Flt open);
     ("high", Flt high); ("low", Flt low); ("close", Flt close);
     ("volume", Int volume); ("data_source", Str data_source);
     ("processed_at", Str "2023-09-03T06:00:00");
     ("daily_change_pct", Flt change); ("daily_volatility", Flt volatility)].

Definition aapl_alpha : row :=
  record "2023-09-01" "AAPL" 180.31 182.05 179.22 181.15 52123400
    "alpha_vantage" 0.47 1.57.
Definition aapl_yahoo : row :=
  record "2023-09-01" "AAPL" 180.31 182.05 179.22 190.0 52123400
    "yahoo_finance" 5.37 1.57.
Definition msft_alpha : row :=
  record "2023-09-02" "MSFT" 181.22 183.55 180.13 182.92 48726500
    "alpha_vantage" 0.94 1.89.

(** A table in which the record of AAPL from alpha_vantage occurs twice. *)
Definition table_with_duplicate : DataFrame :=
  {| columns := transformed_columns;
     rows := [msft_alpha; aapl_alpha; aapl_yahoo; aapl_alpha] |}.

(** The table with the duplicate, merged. *)
Definition merged_example : DataFrame :=
  {| columns := transformed_columns;
     rows := [aapl_alpha; aapl_yahoo; msft_alpha] |}.

(** A file that holds the header line only. *)
Definition header_only : DataFrame :=
  {| columns := transformed_columns; rows := [] |}.

(** A table without the column [data_source]. *)
Definition table_without_source : DataFrame :=
  {| columns := ["date"; "symbol"; "close"];
     rows := [list_to_map [("date", Str "2023-09-01"); ("symbol", Str "AAPL");
                           ("close", Flt 181.15)]] |}.

(** A file in which one key occurs twice, with a volume of [007] in its
    first line and of [abc] in its second: the volumes are read as text. *)
Definition volume_columns : list string :=
  ["date"; "symbol"; "data_source"; "volume"].

Definition volume_record (volume : cell) : row :=
  list_to_map
    [("date", Str "2023-09-01"); ("symbol", Str "AAPL");
     ("data_source", Str "alpha_vantage"); ("volume", volume)].

Definition table_with_text_volume : DataFrame :=
  {| columns := volume_columns;
     rows := [volume_record (Str "007"); volume_record (Str "abc")] |}.

Definition fs_duplicate : gmap string DataFrame :=
  {[ "/tmp/a.csv" := table_with_duplicate ]}.
Definition fs_header_only : gmap string DataFrame :=
  {[ "/tmp/a.csv" := header_only ]}.
Definition fs_without_source : gmap string DataFrame :=
  {[ "/tmp/a.csv" := table_without_source ]}.
Definition fs_text_volume : gmap string DataFrame :=
  {[ "/tmp/a.csv" := table_with_text_volume ]}.

(** The claim of C2 on the report: some record of the log is a warning. *)
Definition warning_logged (log : list log_record) : Prop :=
  ∃ m, (WARNING, m) ∈ log.

Lemma read_table_with_duplicate :
  read_csv csv_files "/tmp/a.csv" fs_duplicate = Return table_with_duplicate.
Proof. vm_compute. reflexivity. Qed.

Lemma merge_example_run :
  merge_stock_datasets csv_files ["/tmp/a.csv"] "/tmp/merged.csv" fs_duplicate
  = ([(INFO, Merging_datasets ["/tmp/a.csv"]);
      (INFO, Merged_records 3 "/tmp/merged.csv")],
     <["/tmp/merged.csv" := merged_example]> fs_duplicate,
     Return "/tmp/merged.csv").
Proof. vm_compute. reflexivity. Qed.

(** *** Properties of the merge *)

(** C2 (amended). Whenever [merge_stock_datasets] returns, the table it
    hands to [to_csv] holds, for every business key of the concatenated
    input, exactly one row: the first row with that key in the concatenated
    input, which is also the first one in a stable sort of that input by the
    key; the table is in key order.  Keys are compared as pandas compares
    them.  The rows dropped are not reported: no record of the log is a
    warning, and the last record gives the number of rows kept. *)
Theorem merge_dedup_first_seen {F} (os : OS F) f input_paths output_path
    log f' p :
  merge_stock_datasets os input_paths output_path f = (log, f', Return p) →
  ∃ cat merged_data f1,
    concat (read_all os f input_paths).1 = Return cat ∧
    makedirs os (dirname output_path) f = (f1, Return ()) ∧
    to_csv os merged_data output_path f1 = (f', Return ()) ∧
    columns merged_data = columns cat ∧
    rows merged_data = drop_duplicates key (stable_sort leb (rows cat)) ∧
    rows merged_data = stable_sort leb (drop_duplicates key (rows cat)) ∧
    NoDup (key <$> rows merged_data) ∧
    (∀ r, r ∈ rows cat → ∃ r', r' ∈ rows merged_data ∧ key r' = key r) ∧
    (∀ r, r ∈ rows merged_data →
       first_with_key key (key r) (rows cat) = Some r) ∧
    sorted_by_leb leb (rows merged_data) ∧
    ¬ warning_logged log ∧
    last log = Some (INFO, Merged_records (length (rows merged_data)) output_path) ∧
    p = output_path.
Proof.
  intros Hrun.
  destruct (merge_stock_datasets_cases os input_paths output_path f)
    as [(e & _ & H)|(merged_data & Hm & [(f1 & e & _ & H)|(f1 & Hdir &
         [(f2 & e & _ & H)|(f2 & Hcsv & H)])])];
    rewrite Hrun in H; try discriminate H.
  injection H as -> -> ->.
  apply merge_frames_Return in Hm as (cat & Hcat & _ & ->).
  exists cat. eexists. exists f1. split_and!; [done..| | | | | | | | |done];
    cbn [rows].
  - apply stable_sort_drop_duplicates;
      [apply row_leb_total|apply row_leb_trans|apply row_leb_key].
  - done.
  - apply merged_rows_NoDup.
  - intros r Hr. destruct (drop_duplicates_keys key r _ Hr) as (r' & Hr' & Hk).
    exists r'. split; [by apply elem_of_merged_rows|done].
  - intros r Hr. by apply drop_duplicates_first, elem_of_merged_rows.
  - apply merged_rows_sorted.
  - intros [m Hm]. apply elem_of_cons in Hm as [[=]|Hm].
    apply elem_of_app in Hm as [Hm|Hm].
    + by apply read_all_log_levels in Hm.
    + by apply list_elem_of_singleton in Hm.
  - by rewrite app_comm_cons, last_snoc.
Qed.

Lemma merge_dedup_first_seen_witness :
  ∃ cat merged_data f1,
    concat (read_all csv_files fs_duplicate ["/tmp/a.csv"]).1 = Return cat ∧
    makedirs csv_files (dirname "/tmp/merged.csv") fs_duplicate
      = (f1, Return ()) ∧
    to_csv csv_files merged_data "/tmp/merged.csv" f1
      = (<["/tmp/merged.csv" := merged_example]> fs_duplicate, Return ()) ∧
    columns merged_data = columns cat ∧
    rows merged_data = drop_duplicates key (stable_sort leb (rows cat)) ∧
    rows merged_data = stable_sort leb (drop_duplicates key (rows cat)) ∧
    NoDup (key <$> rows merged_data) ∧
    (∀ r, r ∈ rows cat → ∃ r', r' ∈ rows merged_data ∧ key r' = key r) ∧
    (∀ r, r ∈ rows merged_data →
       first_with_key key (key r) (rows cat) = Some r) ∧
    sorted_by_leb leb (rows merged_data) ∧
    ¬ warning_logged [(INFO, Merging_datasets ["/tmp/a.csv"]);
                      (INFO, Merged_records 3 "/tmp/merged.csv")] ∧
    last [(INFO, Merging_datasets ["/tmp/a.csv"]);
          (INFO, Merged_records 3 "/tmp/merged.csv")]
    = Some (INFO, Merged_records (length (rows merged_data)) "/tmp/merged.csv") ∧
    "/tmp/merged.csv" = "/tmp/merged.csv".
Proof.
  exact (merge_dedup_first_seen csv_files fs_duplicate ["/tmp/a.csv"]
           "/tmp/merged.csv" _ _ _ merge_example_run).
Defined.

(** C2, as stated, fails: merging the table in which one record occurs twice
    drops one of its four rows and logs two records, none of them a
    warning. *)
Lemma merge_reports_no_removed_rows :
  ∃ log merged_data,
    read_csv csv_files "/tmp/a.csv" fs_duplicate = Return table_with_duplicate ∧
    merge_stock_datasets csv_files ["/tmp/a.csv"] "/tmp/merged.csv" fs_duplicate
      = (log, <["/tmp/merged.csv" := merged_data]> fs_duplicate,
         Return "/tmp/merged.csv") ∧
    length (rows table_with_duplicate) = 4%nat ∧
    length (rows merged_data) = 3%nat ∧
    log = [(INFO, Merging_datasets ["/tmp/a.csv"]);
           (INFO, Merged_records 3 "/tmp/merged.csv")] ∧
    ¬ warning_logged log.
Proof.
  eexists _, merged_example. split; [exact read_table_with_duplicate|].
  split; [exact merge_example_run|]. split_and!; [done..|].
  intros [m Hm]. repeat (apply elem_of_cons in Hm as [[=]|Hm]).
  by apply elem_of_nil in Hm.
Qed.

(** C3 (amended). [merge_stock_datasets] raises its no-data failure
    ([ValueError("No valid data files to merge")]) when none of the input
    paths could be read, which includes the empty list of paths, and then it
    leaves the files as they are; between the reads and the write this is
    the only case in which the failure is raised, so that a table that was
    read and holds no row does not raise it.  It is not the only exception:
    when a table was read, the merge raises the [KeyError] of a business-key
    column that no table read has, or what [os.makedirs] or [to_csv]
    raises.  When a table was read, every business-key column is in a table
    read, and [os.makedirs] and [to_csv] return, the merge returns the output
    path. *)
Theorem merge_raises_iff_nothing_read {F} (os : OS F) f input_paths
    output_path :
  let run := merge_stock_datasets os input_paths output_path f in
  let all_data := (read_all os f input_paths).1 in
  let nothing_read :=
    ∀ path, path ∈ input_paths → ∃ e, read_csv os path f = Raise e in
  let no_data := ValueError "No valid data files to merge" in
  (merged_table os input_paths f = Raise no_data ↔ nothing_read) ∧
  (nothing_read → run.2 = Raise no_data ∧ run.1.2 = f) ∧
  ((∃ path df, path ∈ input_paths ∧ read_csv os path f = Return df) →
   (∀ e, run.2 = Raise e →
      (∃ c, c ∈ business_key ∧ (∀ df, df ∈ all_data → c ∉ columns df) ∧
            e = KeyError c) ∨
      (∃ merged_data,
         merge_frames all_data = Return merged_data ∧
         ((makedirs os (dirname output_path) f).2 = Raise e ∨
          ∃ f1, makedirs os (dirname output_path) f = (f1, Return ()) ∧
                (to_csv os merged_data output_path f1).2 = Raise e))) ∧
   ((∀ c, c ∈ business_key → ∃ df, df ∈ all_data ∧ c ∈ columns df) →
    ∃ merged_data,
      merge_frames all_data = Return merged_data ∧
      ∀ f1 f2,
        makedirs os (dirname output_path) f = (f1, Return ()) →
        to_csv os merged_data output_path f1 = (f2, Return ()) →
        run.2 = Return output_path ∧ run.1.2 = f2)).
Proof.
  intros run all_data nothing_read no_data.
  pose proof (merge_stock_datasets_cases os input_paths output_path f) as Hcases.
  cbv zeta in Hcases. fold run all_data in Hcases.
  assert (merge_frames all_data = Raise no_data ↔ nothing_read) as Hguard.
  { rewrite merge_frames_Raise. unfold all_data, nothing_read.
    rewrite <- read_all_nil. split.
    - intros [[? _]|(_ & cat & _ & Hreq)]; [done|].
      by apply require_Raise in Hreq as (c & ? & _).
    - intros ->. by left. }
  split; [exact Hguard|]. split.
  - intros Hnothing. apply Hguard in Hnothing.
    destruct Hcases as [(e & He & Hrun)|(m & Hm & _)]; [|congruence].
    rewrite Hrun. simpl. split; [congruence|done].
  - intros (path & df & Hpath & Hdf).
    pose proof (read_all_elem os f _ _ _ Hpath Hdf) as Hin. fold all_data in Hin.
    assert (all_data ≠ []) as Hne.
    { intros E. rewrite E in Hin. by apply elem_of_nil in Hin. }
    split.
    + intros e He.
      destruct Hcases as [(e' & Hm & Hrun)|(m & Hm & Hcases)].
      * left. rewrite Hrun in He. injection He as ->.
        apply merge_frames_Raise in Hm as [[? _]|(_ & cat & Hcat & Hreq)]; [done|].
        apply require_Raise in Hreq as (c & -> & Hc & Hcat_c).
        exists c. split; [done|]. split; [|done].
        intros df' Hdf' Hc'. apply Hcat_c.
        by eapply concat_Return_columns.
      * right. exists m. split; [done|].
        destruct Hcases as [(f1 & e' & Hdir & Hrun)|(f1 & Hdir &
          [(f2 & e' & Hcsv & Hrun)|(f2 & Hcsv & Hrun)])];
          rewrite Hrun in He; try discriminate He; injection He as ->.
        -- left. by rewrite Hdir.
        -- right. exists f1. split; [done|]. by rewrite Hcsv.
    + intros Hkeys.
      destruct (concat_Return all_data Hne) as [cat Hcat].
      assert (∃ m, merge_frames all_data = Return m) as [m Hm].
      { eexists. apply merge_frames_Return. exists cat. split; [done|].
        split; [|done]. intros c Hc. destruct (Hkeys c Hc) as (df' & Hdf' & Hc').
        by eapply concat_Return_columns. }
      exists m. split; [done|]. intros f1 f2 Hdir Hcsv.
      destruct Hcases as [(e' & Hm' & _)|(m' & Hm' & Hcases)]; [congruence|].
      assert (m' = m) as -> by congruence.
      destruct Hcases as [(f1' & e' & Hdir' & _)|(f1' & Hdir' & Hcases)];
        [congruence|].
      assert (f1' = f1) as -> by congruence.
      destruct Hcases as [(f2' & e' & Hcsv' & _)|(f2' & Hcsv' & Hrun)];
        [congruence|].
      rewrite Hrun. simpl. split; [done|congruence].
Qed.

Lemma merge_raises_iff_nothing_read_witness :
  (merge_stock_datasets csv_files ["/tmp/missing.csv"] "/tmp/merged.csv"
     fs_duplicate).2
    = Raise (ValueError "No valid data files to merge") ∧
  (merge_stock_datasets csv_files ["/tmp/missing.csv"; "/tmp/a.csv"]
     "/tmp/merged.csv" fs_duplicate).2
    = Return "/tmp/merged.csv".
Proof.
  split.
  - pose proof (merge_raises_iff_nothing_read csv_files fs_duplicate
                  ["/tmp/missing.csv"] "/tmp/merged.csv") as H.
    cbv zeta in H. destruct H as (_ & H & _). apply H.
    intros path ->%list_elem_of_singleton. eexists. vm_compute. reflexivity.
  - pose proof (merge_raises_iff_nothing_read csv_files fs_duplicate
                  ["/tmp/missing.csv"; "/tmp/a.csv"] "/tmp/merged.csv") as H.
    cbv zeta in H. destruct H as (_ & _ & H).
    destruct H as [_ H].
    { exists "/tmp/a.csv", table_with_duplicate.
      split; [right; left|exact read_table_with_duplicate]. }
    destruct H as (merged_data & Hm & H).
    { intros c Hc. exists table_with_duplicate. split; [vm_compute; left|].
      unfold business_key in Hc. unfold table_with_duplicate, transformed_columns.
      cbn [columns]. rewrite !elem_of_cons in Hc. rewrite !elem_of_cons.
      destruct Hc as [->|[->|[->|Hc]]]; [tauto..|by apply elem_of_nil in Hc]. }
    eapply H; reflexivity.
Defined.

(** C3, as stated, fails.  When the only input holds its header line and no
    row, every input is empty after concatenation, yet the merge returns,
    and writes a table without rows.  And the no-data failure is not the
    only way the merge raises: a table with a row and without the column
    [data_source] raises [KeyError], and an output path without a directory
    part makes [os.makedirs('')] raise [FileNotFoundError]. *)
Lemma merge_of_empty_tables_returns :
  ((∀ df, df ∈ (read_all csv_files fs_header_only ["/tmp/a.csv"]).1 →
          rows df = []) ∧
   concat (read_all csv_files fs_header_only ["/tmp/a.csv"]).1
     = Return header_only ∧
   merge_stock_datasets csv_files ["/tmp/a.csv"] "/tmp/merged.csv"
     fs_header_only
   = ([(INFO, Merging_datasets ["/tmp/a.csv"]);
       (INFO, Merged_records 0 "/tmp/merged.csv")],
      <["/tmp/merged.csv" := header_only]> fs_header_only,
      Return "/tmp/merged.csv")) ∧
  ((read_all csv_files fs_without_source ["/tmp/a.csv"]).1
     = [table_without_source] ∧
   length (rows table_without_source) = 1%nat ∧
   (merge_stock_datasets csv_files ["/tmp/a.csv"] "/tmp/merged.csv"
      fs_without_source).2
   = Raise (KeyError "data_source")) ∧
  (dirname "merged.csv" = "" ∧
   (merge_stock_datasets csv_files ["/tmp/a.csv"] "merged.csv" fs_duplicate).2
   = Raise (FileNotFoundError "")).
Proof.
  split_and!; try (vm_compute; reflexivity).
  intros df Hdf. vm_compute in Hdf.
  apply list_elem_of_singleton in Hdf as ->. reflexivity.
Qed.

(** C9 (amended). When the file a merge of one table wrote reads back as
    the table the merge handed to [to_csv], a merge of that file hands the
    same table to [to_csv]: same columns, same rows, same order; and it
    returns whenever [os.makedirs] and [to_csv] do. *)
Theorem merge_idempotent {F} (os : OS F) f input_path out1 out2 log1 f1
    merged :
  merge_stock_datasets os [input_path] out1 f = (log1, f1, Return out1) →
  merged_table os [input_path] f = Return merged →
  read_csv os out1 f1 = Return merged →
  merged_table os [out1] f1 = Return merged ∧
  ∀ f2 f3,
    makedirs os (dirname out2) f1 = (f2, Return ()) →
    to_csv os merged out2 f2 = (f3, Return ()) →
    merge_stock_datasets os [out1] out2 f1
    = ([(INFO, Merging_datasets [out1]);
        (INFO, Merged_records (length (rows merged)) out2)],
       f3, Return out2).
Proof.
  intros _ Hfirst Hback. unfold merged_table in *. simpl in Hfirst.
  assert (∃ T, merge_frames [T] = Return merged) as [T HT].
  { destruct (read_csv os input_path f) as [T|e]; simpl in Hfirst; [|done].
    by exists T. }
  assert (merge_frames (read_all os f1 [out1]).1 = Return merged) as Hsecond.
  { simpl. rewrite Hback. simpl. by eapply merge_frames_idempotent. }
  split; [done|]. intros f2 f3 Hdir Hcsv.
  unfold merge_stock_datasets. simpl in Hsecond |- *.
  rewrite Hback in Hsecond |- *. simpl in Hsecond |- *.
  by rewrite Hsecond, Hdir, Hcsv.
Qed.

Lemma merge_idempotent_witness :
  merged_table csv_files ["/tmp/merged.csv"]
    (<["/tmp/merged.csv" := merged_example]> fs_duplicate)
  = Return merged_example ∧
  ∀ f2 f3,
    makedirs csv_files (dirname "/tmp/again.csv")
      (<["/tmp/merged.csv" := merged_example]> fs_duplicate)
    = (f2, Return ()) →
    to_csv csv_files merged_example "/tmp/again.csv" f2 = (f3, Return ()) →
    merge_stock_datasets csv_files ["/tmp/merged.csv"] "/tmp/again.csv"
      (<["/tmp/merged.csv" := merged_example]> fs_duplicate)
    = ([(INFO, Merging_datasets ["/tmp/merged.csv"]);
        (INFO, Merged_records (length (rows merged_example)) "/tmp/again.csv")],
       f3, Return "/tmp/again.csv").
Proof.
  apply (merge_idempotent csv_files fs_duplicate "/tmp/a.csv"
           "/tmp/merged.csv" "/tmp/again.csv" _ _ merged_example
           merge_example_run).
  - vm_compute. reflexivity.
  - vm_compute. reflexivity.
Defined.

(** The table with the text volumes, merged, and the table a merge makes
    of the file that holds it. *)
Definition merged_once : DataFrame :=
  {| columns := volume_columns; rows := [volume_record (Str "007")] |}.
Definition merged_twice : DataFrame :=
  {| columns := volume_columns; rows := [volume_record (Int 7)] |}.

(** C9, as stated, fails: a merge reads its input from a file and writes its
    output to a file, and a file does not read back as the table written.
    In the input the key occurs twice, with the volumes [007] and [abc],
    which are read as text.  The merge keeps the first row and writes [007];
    in the file it wrote the volume column holds a number only, so that a
    merge of that file reads the integer 7 and writes [7]. *)
Lemma merge_twice_differs :
  let files1 := <["/tmp/once.csv" := merged_once]> fs_text_volume in
  let files2 := <["/tmp/twice.csv" := merged_twice]> files1 in
  read_csv csv_files "/tmp/a.csv" fs_text_volume
    = Return table_with_text_volume ∧
  merge_stock_datasets csv_files ["/tmp/a.csv"] "/tmp/once.csv" fs_text_volume
    = ([(INFO, Merging_datasets ["/tmp/a.csv"]);
        (INFO, Merged_records 1 "/tmp/once.csv")],
       files1, Return "/tmp/once.csv") ∧
  merge_stock_datasets csv_files ["/tmp/once.csv"] "/tmp/twice.csv" files1
    = ([(INFO, Merging_datasets ["/tmp/once.csv"]);
        (INFO, Merged_records 1 "/tmp/twice.csv")],
       files2, Return "/tmp/twice.csv") ∧
  column "volume" merged_once = [Str "007"] ∧
  column "volume" merged_twice = [Int 7] ∧
  merged_twice ≠ merged_once.
Proof.
  split_and!; try (vm_compute; reflexivity).
  intros E. apply (f_equal (column "volume")) in E. vm_compute in E.
  discriminate E.
Qed.

(** *** Normalisation: [transform_stock_data] *)

Section transform_stock_data.
Context {F : Type} (os : OS F).
(** [pd.to_datetime] on a column, and the two string conversions of
    Python, are the library's. *)
Variable to_datetime : list cell → outcome (list cell).
Variable float_of_string : string → option float.
Variable int_of_string : string → option Z.

(** The branch the two known sources share: a [date] column that is not a
    datetime column yet is converted. *)
Definition convert_date (data : DataFrame) : outcome DataFrame :=
  if decide ("date" ∈ columns data) then
    if is_datetime64_any_dtype (column "date" data) then Return data
    else
      dates ← to_datetime (column "date" data);
      Return (setitem "date" dates data)
  else Return data.

(** [data[col] = data[col].astype(...)], for a column of the frame. *)
Definition convert_column (conv : cell → outcome cell) (col : string)
    (data : DataFrame) : outcome DataFrame :=
  vals ← mapM conv (column col data);
  Return (setitem col vals data).

(** The loop over the price columns: a column that is absent is skipped. *)
Fixpoint prices_to_float (cols : list string) (data : DataFrame)
    : outcome DataFrame :=
  match cols with
  | [] => Return data
  | col :: cols' =>
      data ← (if decide (col ∈ columns data)
              then convert_column (astype_float float_of_string) col data
              else Return data);
      prices_to_float cols' data
  end.

(** [((data[a] - data[b]) / data['open'] * 100).round(2)] *)
Definition pct_of_open (a b : string) (data : DataFrame) : outcome (list cell) :=
  x ← getitem a data;
  y ← getitem b data;
  diff ← series_op PrimFloat.sub x y;
  open ← getitem "open" data;
  quot ← series_op PrimFloat.div diff open;
  series_map (λ q, round2 (PrimFloat.mul q 100%float)) quot.

(** The body of [transform_stock_data] between the read and the write;
    [now] is the reading of [datetime.now().isoformat()]. *)
Definition transform_frame (source now : string) (data : DataFrame)
    : outcome DataFrame :=
  data ← (if decide (source = "alpha_vantage") then convert_date data
          else if decide (source = "yahoo_finance") then convert_date data
          else Raise (ValueError ("Unknown source: " +:+ source)));
  date ← getitem "date" data;
  date ← dt_strftime date;
  let data := setitem "date" date data in
  data ← prices_to_float ["open"; "high"; "low"; "close"] data;
  data ← (if decide ("volume" ∈ columns data)
          then convert_column
                 (λ c, astype_int int_of_string (fillna0 c)) "volume" data
          else Return data);
  let data := setitem_scalar "processed_at" (Str now) data in
  change ← pct_of_open "close" "open" data;
  let data := setitem "daily_change_pct" change data in
  volatility ← pct_of_open "high" "low" data;
  let data := setitem "daily_volatility" volatility data in
  sort_values ["symbol"; "date"] data.

(** [transform_stock_data(input_path, output_path, source)] from the files
    [f]: the records logged, the files after the call, and the path returned
    or the exception raised. *)
Definition transform_stock_data (now : string)
    (input_path output_path source : string) (f : F)
    : list log_record * F * outcome string :=
  let log := [(INFO, Transforming_data source input_path)] in
  match data ← read_csv os input_path f; transform_frame source now data with
  | Raise e => (log, f, Raise e)
  | Return data =>
      match makedirs os (dirname output_path) f with
      | (f, Raise e) => (log, f, Raise e)
      | (f, Return _) =>
          match to_csv os data output_path f with
          | (f, Raise e) => (log, f, Raise e)
          | (f, Return _) =>
              (log ++ [(INFO, Transformed_records (length (rows data))
                                output_path)],
               f, Return output_path)
          end
      end
  end.

(** *** What the normalisation does to one row *)

Definition price_columns : list string := ["open"; "high"; "low"; "close"].

Definition written_columns : list string :=
  ["date"; "open"; "high"; "low"; "close"; "volume"; "processed_at";
   "daily_change_pct"; "daily_volatility"].

(** The row [r'] that the steps after the date conversion make of the row
    [r]. *)
Definition normalised (now : string) (has_volume : bool) (r r' : row) : Prop :=
  match cell_at "date" r with
  | Ts t => cell_at "date" r' = Str (strftime_ymd t)
  | NaT => cell_at "date" r' = NaN
  | _ => False
  end ∧
  (∀ c, c ∈ price_columns →
     astype_float float_of_string (cell_at c r) = Return (cell_at c r')) ∧
  (if has_volume
   then astype_int int_of_string (fillna0 (cell_at "volume" r))
        = Return (cell_at "volume" r')
   else r' !! "volume" = r !! "volume") ∧
  cell_at "processed_at" r' = Str now ∧
  (∃ o h l c : float,
     cell_at "open" r' = Flt o ∧ cell_at "high" r' = Flt h ∧
     cell_at "low" r' = Flt l ∧ cell_at "close" r' = Flt c ∧
     cell_at "daily_change_pct" r'
       = Flt (round2 (PrimFloat.mul (PrimFloat.div (PrimFloat.sub c o) o) 100)) ∧
     cell_at "daily_volatility" r'
       = Flt (round2 (PrimFloat.mul (PrimFloat.div (PrimFloat.sub h l) o) 100))) ∧
  (∀ c, c ∉ written_columns → r' !! c = r !! c).

Lemma convert_column_Return conv col data data' :
  convert_column conv col data = Return data' →
  (∀ c, c ∈ columns data' ↔ c = col ∨ c ∈ columns data) ∧
  Forall2 (λ r r', ∃ v, conv (cell_at col r) = Return v ∧ r' = <[col := v]> r)
          (rows data) (rows data').
Proof.
  unfold convert_column. intros (vals & Hv & [= <-])%outcome_bind_Return.
  split; [intros c; apply columns_setitem|].
  apply rows_setitem. apply mapM_Return in Hv. unfold column in Hv.
  by apply Forall2_fmap_l in Hv.
Qed.

Lemma prices_to_float_Return cols data data' :
  NoDup cols →
  prices_to_float cols data = Return data' →
  (∀ c, c ∈ columns data' ↔ c ∈ columns data) ∧
  Forall2 (λ r r', ∀ c,
     (c ∈ cols → c ∈ columns data →
        astype_float float_of_string (cell_at c r) = Return (cell_at c r')) ∧
     (¬ (c ∈ cols ∧ c ∈ columns data) → r' !! c = r !! c))
    (rows data) (rows data').
Proof.
  intros Hnd. revert data. induction Hnd as [|col cols Hcol Hnd IH]; intros data.
  - intros [= <-]. split; [done|]. apply Forall_Forall2_diag, Forall_forall.
    intros r _ c. split; [by intros ?%elem_of_nil|done].
  - simpl. intros (data1 & H1 & H2)%outcome_bind_Return.
    apply IH in H2 as [Hcols2 Hrows2].
    destruct (decide (col ∈ columns data)) as [Hin|Hin].
    + apply convert_column_Return in H1 as [Hcols1 Hrows1].
      assert (∀ c, c ∈ columns data1 ↔ c ∈ columns data) as Hc1.
      { intros c. rewrite Hcols1. split; [by intros [->|?]|by right]. }
      split; [intros c; by rewrite Hcols2|].
      pose proof (Forall2_compose _ _ _ _ _ Hrows1 Hrows2) as H.
      eapply Forall2_impl; [exact H|]. simpl.
      intros r r' (r1 & (v & Hv & ->) & Hr') c.
      destruct (Hr' c) as [Hconv Hkeep].
      destruct (decide (c = col)) as [->|Hne].
      * split.
        -- intros _ _. unfold cell_at at 2. rewrite Hkeep by (by intros [? _]).
           by rewrite lookup_insert_eq.
        -- intros Hn. destruct Hn. split; [left|done].
      * rewrite cell_at_insert_ne in Hconv by done.
        rewrite lookup_insert_ne in Hkeep by done. split.
        -- intros [?|Hc]%elem_of_cons Hd; [done|]. apply Hconv; [done|by apply Hc1].
        -- intros Hn. apply Hkeep. intros [Hc Hd]. apply Hn.
           split; [by right|by apply Hc1].
    + injection H1 as <-. split; [done|].
      eapply Forall2_impl; [exact Hrows2|]. simpl.
      intros r r' Hr' c. destruct (Hr' c) as [Hconv Hkeep]. split.
      * intros [->|Hc]%elem_of_cons Hd; [done|by apply Hconv].
      * intros Hn. apply Hkeep. intros [Hc Hd]. apply Hn. split; [by right|done].
Qed.

Lemma pct_of_open_Return a b data vals :
  pct_of_open a b data = Return vals →
  a ∈ columns data ∧ b ∈ columns data ∧ "open" ∈ columns data ∧
  Forall2 (λ r v, ∃ x y o,
             to_numeric (cell_at a r) = Return x ∧
             to_numeric (cell_at b r) = Return y ∧
             to_numeric (cell_at "open" r) = Return o ∧
             v = Flt (round2 (PrimFloat.mul (PrimFloat.div (PrimFloat.sub x y) o) 100)))
          (rows data) vals.
Proof.
  unfold pct_of_open.
  intros (x & [Ha ->]%getitem_Return & H)%outcome_bind_Return.
  apply outcome_bind_Return in H as (y & [Hb ->]%getitem_Return & H).
  apply outcome_bind_Return in H as (diff & Hdiff & H).
  apply outcome_bind_Return in H as (open & [Ho ->]%getitem_Return & H).
  apply outcome_bind_Return in H as (quot & Hquot & H).
  split_and!; [done..|].
  pose proof (series_op_Return _ _ _ _ _ _ _
                (Forall2_fmap_self (cell_at a) (rows data))
                (Forall2_fmap_self (cell_at b) (rows data)) Hdiff) as Hd.
  pose proof (series_op_Return _ _ _ _ _ _ _ Hd
                (Forall2_fmap_self (cell_at "open") (rows data)) Hquot) as Hq.
  pose proof (series_map_Return _ _ _ _ _ Hq H) as Hv.
  eapply Forall2_impl; [exact Hv|]. simpl.
  intros r v (cq & q & (cd & co & d & o & Hcd & -> & Hd' & Ho' & ->) & Hq' & ->).
  destruct Hcd as (ca & cb & x & y & -> & -> & Hx & Hy & ->).
  apply to_numeric_Flt in Hd' as ->. apply to_numeric_Flt in Hq' as ->.
  by exists x, y, o.
Qed.

Lemma transform_frame_Return source now data out :
  transform_frame source now data = Return out →
  ∃ D1 pre,
    (source = "alpha_vantage" ∨ source = "yahoo_finance") ∧
    convert_date data = Return D1 ∧
    (∀ c, c ∈ ["date"; "symbol"; "open"; "high"; "low"; "close"] →
          c ∈ columns D1) ∧
    (∀ c, c ∈ columns out ↔
          c ∈ columns D1 ∨
          c ∈ ["processed_at"; "daily_change_pct"; "daily_volatility"]) ∧
    Forall2 (normalised now (bool_decide ("volume" ∈ columns D1))) (rows D1) pre ∧
    rows out = stable_sort (row_leb ["symbol"; "date"]) pre.
Proof.
  unfold transform_frame.
  intros (D1 & H1 & H)%outcome_bind_Return.
  apply outcome_bind_Return in H as (date & [Hdate ->]%getitem_Return & H).
  apply outcome_bind_Return in H as (date' & Hfmt & H).
  cbv zeta in H.
  remember (setitem "date" date' D1) as D2 eqn:HD2.
  apply outcome_bind_Return in H as (D3 & H3 & H).
  apply outcome_bind_Return in H as (D4 & H4 & H).
  remember (setitem_scalar "processed_at" (Str now) D4) as D5 eqn:HD5.
  apply outcome_bind_Return in H as (change & Hchg & H).
  remember (setitem "daily_change_pct" change D5) as D6 eqn:HD6.
  apply outcome_bind_Return in H as (vol & Hvol & H).
  remember (setitem "daily_volatility" vol D6) as D7 eqn:HD7.
  unfold sort_values in H.
  apply outcome_bind_Return in H as (u & Hreq & H).
  injection H as <-. cbn [columns rows].
  exists D1, (rows D7).
  assert (source = "alpha_vantage" ∨ source = "yahoo_finance") as Hsrc.
  { destruct (decide (source = "alpha_vantage")); [by left|].
    destruct (decide (source = "yahoo_finance")); [by right|done]. }
  assert (convert_date data = Return D1) as Hconv.
  { destruct (decide (source = "alpha_vantage")); [done|].
    destruct (decide (source = "yahoo_finance")); done. }
  clear H1.
  (* the columns of the intermediate frames *)
  assert (∀ c, c ∈ columns D2 ↔ c ∈ columns D1) as Hc2.
  { intros c. rewrite HD2, columns_setitem. split; [by intros [->|?]|by right]. }
  apply prices_to_float_Return in H3 as [Hc3 Hr3];
    [|repeat constructor; rewrite ?elem_of_cons, ?elem_of_nil; intuition discriminate].
  assert (∀ c, c ∈ columns D4 ↔ c ∈ columns D3) as Hc4.
  { intros c. destruct (decide ("volume" ∈ columns D3)) as [Hv|Hv].
    - apply convert_column_Return in H4 as [H4 _]. rewrite H4.
      split; [by intros [->|?]|by right].
    - by injection H4 as <-. }
  assert (∀ c, c ∈ columns D4 ↔ c ∈ columns D1) as Hc41.
  { intros c. by rewrite Hc4, Hc3, Hc2. }
  assert (∀ c, c ∈ columns D5 ↔ c = "processed_at" ∨ c ∈ columns D1) as Hc5.
  { intros c. rewrite HD5. unfold setitem_scalar. by rewrite columns_setitem, Hc41. }
  assert (∀ c, c ∈ columns D6 ↔
               c = "daily_change_pct" ∨ c = "processed_at" ∨ c ∈ columns D1) as Hc6.
  { intros c. by rewrite HD6, columns_setitem, Hc5. }
  assert (∀ c, c ∈ columns D7 ↔
               c = "daily_volatility" ∨ c = "daily_change_pct" ∨
               c = "processed_at" ∨ c ∈ columns D1) as Hc7.
  { intros c. by rewrite HD7, columns_setitem, Hc6. }
  apply pct_of_open_Return in Hchg as (Hclose & Hopen & _ & Hchg).
  apply pct_of_open_Return in Hvol as (Hhigh & Hlow & _ & Hvol).
  pose proof (proj1 (require_Return _ _) (require_unit _ _ _ Hreq)) as Hreq'.
  assert (∀ c, c ∈ ["date"; "symbol"; "open"; "high"; "low"; "close"] →
               c ∈ columns D1) as Hneed.
  { intros c Hc. rewrite !elem_of_cons, elem_of_nil in Hc.
    destruct Hc as [->|[->|[->|[->|[->|[->|[]]]]]]]; [done| | | | |].
    - specialize (Hreq' "symbol"). rewrite Hc7 in Hreq'.
      destruct Hreq' as [?|[?|[?|?]]]; [left|discriminate..|done].
    - apply Hc5 in Hopen as [?|?]; [discriminate|done].
    - apply Hc6 in Hhigh as [?|[?|?]]; [discriminate..|done].
    - apply Hc6 in Hlow as [?|[?|?]]; [discriminate..|done].
    - apply Hc5 in Hclose as [?|?]; [discriminate|done]. }
  split_and!; [done..| | |done].
  { intros c. rewrite Hc7, !elem_of_cons, elem_of_nil. tauto. }
  (* the rows, step by step *)
  assert (Forall2 (λ r r2, ∃ v,
            match cell_at "date" r with
            | Ts t => v = Str (strftime_ymd t)
            | NaT => v = NaN
            | _ => False
            end ∧ r2 = <["date" := v]> r) (rows D1) (rows D2)) as F12.
  { rewrite HD2. apply rows_setitem. apply mapM_Return in Hfmt.
    unfold column in Hfmt. apply Forall2_fmap_l in Hfmt.
    eapply Forall2_impl; [exact Hfmt|]. simpl. intros r v.
    destruct (cell_at "date" r); try done; by intros [= <-]. }
  assert (Forall2 (λ r3 r4,
            if bool_decide ("volume" ∈ columns D1)
            then ∃ v, astype_int int_of_string (fillna0 (cell_at "volume" r3))
                      = Return v ∧ r4 = <["volume" := v]> r3
            else r4 = r3) (rows D3) (rows D4)) as F34.
  { destruct (decide ("volume" ∈ columns D3)) as [Hv|Hv].
    - rewrite bool_decide_true by (by apply Hc2, Hc3).
      by apply convert_column_Return in H4 as [_ H4].
    - rewrite bool_decide_false by (by rewrite <- Hc2, <- Hc3).
      injection H4 as <-. by apply Forall_Forall2_diag, Forall_forall. }
  assert (Forall2 (λ r4 r5, r5 = <["processed_at" := Str now]> r4)
            (rows D4) (rows D5)) as F45.
  { rewrite HD5, rows_setitem_scalar. apply Forall2_fmap_self. }
  pose proof (rows_setitem _ "daily_change_pct" _ _ Hchg) as F56.
  rewrite <- HD6 in F56.
  pose proof (rows_setitem _ "daily_volatility" _ _ Hvol) as F67.
  rewrite <- HD7 in F67.
  pose proof (Forall2_compose _ _ _ _ _ F12
               (Forall2_compose _ _ _ _ _ Hr3
                 (Forall2_compose _ _ _ _ _ F34
                   (Forall2_compose _ _ _ _ _ F45
                     (Forall2_compose _ _ _ _ _ F56 F67))))) as Fall.
  eapply Forall2_impl; [exact Fall|]. clear Fall F12 Hr3 F34 F45 F56 F67 Hchg Hvol.
  simpl. intros r r7 (r2 & (v2 & Hv2 & ->) & r3 & H23 & r4 & H34 & r5 & -> & r6
                      & (v6 & Hv6 & ->) & (v7 & Hv7 & ->)).
  assert (∀ c, c ∉ price_columns → r3 !! c = <["date" := v2]> r !! c) as H3ne.
  { intros c Hc. apply H23. by intros [? _]. }
  assert (∀ c, c ≠ "volume" → r4 !! c = r3 !! c) as H4ne.
  { intros c Hc. destruct (bool_decide _); [|by subst].
    destruct H34 as (v & _ & ->). by rewrite lookup_insert_ne. }
  assert (∀ c, c ∈ price_columns →
            astype_float float_of_string (cell_at c r) = Return (cell_at c r4))
    as Hprice.
  { intros c Hc. unfold price_columns in Hc.
    rewrite !elem_of_cons, elem_of_nil in Hc.
    destruct Hc as [->|[->|[->|[->|[]]]]];
      (match goal with
       | |- context [cell_at ?c r4] =>
           destruct (H23 c) as [Hp _];
           rewrite cell_at_insert_ne in Hp by done;
           unfold cell_at at 2; rewrite H4ne by done;
           apply Hp; [repeat first [by left|right]|];
           apply Hc2, Hneed; repeat first [by left|right]
       end). }
  assert (∀ c, c ∈ price_columns → ∃ f, cell_at c r4 = Flt f) as Hflt.
  { intros c Hc. eapply is_float_Flt, astype_float_is_float, Hprice, Hc. }
  destruct (Hflt "open") as [o Eo]; [repeat first [by left|right]|].
  destruct (Hflt "high") as [h Eh]; [repeat first [by left|right]|].
  destruct (Hflt "low") as [l El]; [repeat first [by left|right]|].
  destruct (Hflt "close") as [c Ec]; [repeat first [by left|right]|].
  destruct Hv6 as (x6 & y6 & o6 & Hx6 & Hy6 & Ho6 & ->).
  destruct Hv7 as (x7 & y7 & o7 & Hx7 & Hy7 & Ho7 & ->).
  rewrite !cell_at_insert_ne in Hx6 by done.
  rewrite !cell_at_insert_ne in Hy6 by done.
  rewrite !cell_at_insert_ne in Ho6 by done.
  rewrite !cell_at_insert_ne in Hx7 by done.
  rewrite !cell_at_insert_ne in Hy7 by done.
  rewrite !cell_at_insert_ne in Ho7 by done.
  rewrite Ec in Hx6. rewrite Eo in Hy6, Ho6, Ho7.
  rewrite Eh in Hx7. rewrite El in Hy7.
  apply to_numeric_Flt in Hx6 as ->. apply to_numeric_Flt in Hy6 as ->.
  apply to_numeric_Flt in Ho6 as ->. apply to_numeric_Flt in Hx7 as ->.
  apply to_numeric_Flt in Hy7 as ->. apply to_numeric_Flt in Ho7 as ->.
  unfold normalised. split_and!.
  - rewrite !cell_at_insert_ne by done.
    assert (cell_at "date" r4 = v2) as ->.
    { unfold cell_at. rewrite H4ne by done.
      rewrite H3ne, lookup_insert_eq; [done|].
      unfold price_columns. rewrite !elem_of_cons, elem_of_nil.
      intuition discriminate. }
    destruct (cell_at "date" r); done.
  - intros p Hp. pose proof (Hprice p Hp) as Hp'.
    unfold price_columns in Hp. rewrite !elem_of_cons, elem_of_nil in Hp.
    destruct Hp as [->|[->|[->|[->|[]]]]];
      by rewrite !cell_at_insert_ne by done.
  - assert (r3 !! "volume" = r !! "volume") as E3.
    { rewrite H3ne, lookup_insert_ne; [done..|].
      unfold price_columns. rewrite !elem_of_cons, elem_of_nil.
      intuition discriminate. }
    destruct (bool_decide ("volume" ∈ columns D1)).
    + destruct H34 as (v & Hv & ->).
      rewrite !cell_at_insert_ne by done. rewrite cell_at_insert.
      unfold cell_at in Hv |- *. by rewrite <- E3.
    + subst r4. by rewrite !lookup_insert_ne by done.
  - rewrite !cell_at_insert_ne by done. apply cell_at_insert.
  - exists o, h, l, c.
    repeat first [rewrite cell_at_insert|rewrite cell_at_insert_ne by done].
    done.
  - intros c' Hc'. unfold written_columns in Hc'.
    rewrite !not_elem_of_cons in Hc'.
    destruct Hc' as (? & ? & ? & ? & ? & ? & ? & ? & ? & _).
    rewrite !lookup_insert_ne by done. rewrite H4ne by done.
    rewrite H3ne, lookup_insert_ne; [done..|].
    unfold price_columns. rewrite !not_elem_of_cons. split_and!; try done.
    apply not_elem_of_nil.
Qed.

Lemma convert_date_Return data D1 :
  convert_date data = Return D1 →
  columns D1 = columns data ∧
  (D1 = data ∨
   ∃ dates, to_datetime (column "date" data) = Return dates ∧
            D1 = setitem "date" dates data).
Proof.
  unfold convert_date. destruct (decide ("date" ∈ columns data)) as [Hd|Hd].
  - destruct (is_datetime64_any_dtype _).
    + intros [= <-]. split; [done|by left].
    + intros (dates & Hdates & [= <-])%outcome_bind_Return. split.
      * unfold setitem; simpl. by rewrite decide_True.
      * right. by exists dates.
  - intros [= <-]. split; [done|by left].
Qed.

(** With a [pd.to_datetime] that returns one value for each value it is
    given, the date conversion keeps the rows and all their other values. *)
Lemma convert_date_rows data D1 :
  (∀ col dates, to_datetime col = Return dates → length dates = length col) →
  convert_date data = Return D1 →
  Forall2 (λ r r1, ∀ c, c ≠ "date" → r1 !! c = r !! c) (rows data) (rows D1).
Proof.
  intros Hlen [_ [->|(dates & Hdates & ->)]]%convert_date_Return.
  - by apply Forall_Forall2_diag, Forall_forall.
  - apply Hlen in Hdates. unfold column in Hdates. rewrite length_fmap in Hdates.
    assert (Forall2 (λ (_ : row) (_ : cell), True) (rows data) dates) as H.
    { by apply Forall2_true. }
    apply (rows_setitem _ "date") in H.
    eapply Forall2_impl; [exact H|]. simpl.
    intros r r1 (v & _ & ->) c Hc. by rewrite lookup_insert_ne.
Qed.

Lemma transform_stock_data_Return now input_path output_path source f log f' p :
  transform_stock_data now input_path output_path source f
    = (log, f', Return p) ↔
  ∃ data out f1,
    read_csv os input_path f = Return data ∧
    transform_frame source now data = Return out ∧
    makedirs os (dirname output_path) f = (f1, Return ()) ∧
    to_csv os out output_path f1 = (f', Return ()) ∧
    log = [(INFO, Transforming_data source input_path);
           (INFO, Transformed_records (length (rows out)) output_path)] ∧
    p = output_path.
Proof.
  unfold transform_stock_data.
  destruct (read_csv os input_path f) as [data|e]; simpl.
  2: { split; [done|]. by intros (d & o & f1 & ? & _). }
  destruct (transform_frame source now data) as [out|e] eqn:E; simpl.
  2: { split; [done|]. intros (d & o & f1 & [= <-] & Ho & _). congruence. }
  destruct (makedirs os (dirname output_path) f) as [f1 [[]|e]].
  2: { split; [done|]. by intros (d & o & f1' & _ & _ & ? & _). }
  destruct (to_csv os out output_path f1) as [f2 [[]|e]] eqn:Hcsv.
  - split.
    + intros [= <- <- <-]. by exists data, out, f1.
    + intros (d & o & f1' & [= <-] & Ho & [= <-] & Ho' & -> & ->).
      rewrite E in Ho. injection Ho as <-. rewrite Hcsv in Ho'.
      by injection Ho' as <-.
  - split; [done|].
    intros (d & o & f1' & [= <-] & Ho & [= <-] & Ho' & _).
    rewrite E in Ho. injection Ho as <-. congruence.
Qed.

Lemma Forall2_elem_of_r {A B} (P : A → B → Prop) l k b :
  Forall2 P l k → b ∈ k → ∃ a, a ∈ l ∧ P a b.
Proof.
  induction 1 as [|a b' l k Hab _ IH]; [by intros ?%elem_of_nil|].
  intros [->|Hb]%elem_of_cons.
  - exists a. split; [left|done].
  - destruct (IH Hb) as (a' & Ha' & HP). exists a'. split; [by right|done].
Qed.

Lemma Forall2_same_column (c : string) (l k : list row) :
  Forall2 (λ r r', r' !! c = r !! c) l k → cell_at c <$> k = cell_at c <$> l.
Proof.
  induction 1 as [|r r' l k Hr _ IH]; [done|].
  rewrite !fmap_cons, IH. unfold cell_at at 1 3. by rewrite Hr.
Qed.

(** *** Properties of the normalisation *)

(** C4. Whenever [transform_stock_data] returns, the table it writes has the
    columns [daily_change_pct] and [daily_volatility], and on every row the
    four prices are floats [o], [h], [l], [c] with
    [daily_change_pct = round((c - o) / o * 100, 2)] and
    [daily_volatility = round((h - l) / o * 100, 2)] in float arithmetic. *)
Theorem transform_derived_fields now input_path output_path source f log f' p :
  transform_stock_data now input_path output_path source f
    = (log, f', Return p) →
  ∃ out f1,
    to_csv os out output_path f1 = (f', Return ()) ∧
    "daily_change_pct" ∈ columns out ∧ "daily_volatility" ∈ columns out ∧
    ∀ r, r ∈ rows out →
      ∃ o h l c : float,
        cell_at "open" r = Flt o ∧ cell_at "high" r = Flt h ∧
        cell_at "low" r = Flt l ∧ cell_at "close" r = Flt c ∧
        cell_at "daily_change_pct" r
          = Flt (round2 (PrimFloat.mul (PrimFloat.div (PrimFloat.sub c o) o) 100)) ∧
        cell_at "daily_volatility" r
          = Flt (round2 (PrimFloat.mul (PrimFloat.div (PrimFloat.sub h l) o) 100)).
Proof.
  intros (data & out & f1 & _ & Ht & _ & Hcsv & _)%transform_stock_data_Return.
  apply transform_frame_Return in Ht
    as (D1 & pre & _ & _ & _ & Hcols & Hrows & Hsort).
  exists out, f1. split; [done|].
  split; [apply Hcols; right; right; left|].
  split; [apply Hcols; right; right; right; left|].
  intros r Hr. rewrite Hsort, stable_sort_Permutation in Hr.
  destruct (Forall2_elem_of_r _ _ _ _ Hrows Hr) as (r0 & _ & Hn).
  by destruct Hn as (_ & _ & _ & _ & Hd & _).
Qed.

(** The input file is read before the source is looked at: what
    [pd.read_csv] raises is raised whatever the source is; an input that can
    be read with a source other than the two known ones raises
    [ValueError("Unknown source: ...")].  In both cases the only record
    logged is the first one, and the files are as they were. *)
Lemma transform_unknown_source now input_path output_path source f :
  (∀ e, read_csv os input_path f = Raise e →
   transform_stock_data now input_path output_path source f
   = ([(INFO, Transforming_data source input_path)], f, Raise e)) ∧
  (∀ data,
     read_csv os input_path f = Return data →
     source ≠ "alpha_vantage" → source ≠ "yahoo_finance" →
     transform_stock_data now input_path output_path source f
     = ([(INFO, Transforming_data source input_path)], f,
        Raise (ValueError ("Unknown source: " +:+ source)))).
Proof.
  unfold transform_stock_data. split.
  - by intros e ->.
  - intros data -> H1 H2. simpl. unfold transform_frame.
    by rewrite decide_False, decide_False.
Qed.

(** X1. With a [pd.to_datetime] that returns one value for each value it is
    given, a normalisation that returns writes as many rows as it read, in
    the order of [(symbol, date)]; every column other than the nine it
    writes holds the values it held in the input, each as often; the last
    record logged gives the number of rows. *)
Theorem transform_keeps_rows now input_path output_path source f log f' p :
  (∀ col dates, to_datetime col = Return dates → length dates = length col) →
  transform_stock_data now input_path output_path source f
    = (log, f', Return p) →
  ∃ data out f1,
    read_csv os input_path f = Return data ∧
    to_csv os out output_path f1 = (f', Return ()) ∧
    length (rows out) = length (rows data) ∧
    sorted_by_leb (row_leb ["symbol"; "date"]) (rows out) ∧
    (∀ c, c ∉ written_columns → column c out ≡ₚ column c data) ∧
    last log = Some (INFO, Transformed_records (length (rows data)) output_path).
Proof.
  intros Hlen
    (data & out & f1 & Hin & Ht & _ & Hcsv & -> & _)%transform_stock_data_Return.
  apply transform_frame_Return in Ht
    as (D1 & pre & _ & Hconv & _ & _ & Hrows & Hsort).
  pose proof (convert_date_rows _ _ Hlen Hconv) as Hdate.
  assert (length (rows out) = length (rows data)) as Hcount.
  { rewrite Hsort, stable_sort_Permutation.
    rewrite <- (Forall2_length _ _ _ Hrows). symmetry.
    by eapply Forall2_length. }
  exists data, out, f1. split_and!; [done|done|done| | |].
  - rewrite Hsort. apply stable_sort_sorted; [apply row_leb_total|apply row_leb_trans].
  - intros c Hc. unfold column. rewrite Hsort, stable_sort_Permutation.
    assert (c ≠ "date") as Hne.
    { intros ->. apply Hc. left. }
    rewrite (Forall2_same_column c (rows D1) pre).
    + rewrite (Forall2_same_column c (rows data) (rows D1)); [done|].
      eapply Forall2_impl; [exact Hdate|]. simpl. intros r r1 H. by apply H.
    + eapply Forall2_impl; [exact Hrows|]. simpl.
      intros r r' (_ & _ & _ & _ & _ & H). by apply H.
  - simpl. by rewrite Hcount.
Qed.

(** X2. The loop that converts the prices skips a price column that is
    absent, but the derived fields index all four: a normalisation that
    returns has read a table with the columns [date], [symbol], [open],
    [high], [low] and [close], and its source is one of the two known
    ones. *)
Theorem transform_requires_columns now input_path output_path source f log f' p :
  transform_stock_data now input_path output_path source f
    = (log, f', Return p) →
  ∃ data,
    read_csv os input_path f = Return data ∧
    (source = "alpha_vantage" ∨ source = "yahoo_finance") ∧
    ∀ c, c ∈ ["date"; "symbol"; "open"; "high"; "low"; "close"] →
         c ∈ columns data.
Proof.
  intros (data & out & f1 & Hin & Ht & _)%transform_stock_data_Return.
  apply transform_frame_Return in Ht
    as (D1 & pre & Hsrc & Hconv & Hneed & _).
  apply convert_date_Return in Hconv as [Hcols _].
  exists data. split_and!; [done..|]. intros c Hc. rewrite <- Hcols. by apply Hneed.
Qed.

(** X3. With a [pd.to_datetime] that returns one value for each value it is
    given: when the input has a [volume] column, the rows written are the
    sorted image of the input rows, row by row, and the volume of each is an
    integer, 0 where the input volume is missing and the input volume where
    that is an integer; [processed_at] is the time of the run on every
    row. *)
Theorem transform_volume_integer now input_path output_path source f log f' p :
  (∀ col dates, to_datetime col = Return dates → length dates = length col) →
  transform_stock_data now input_path output_path source f
    = (log, f', Return p) →
  ∃ data out pre f1,
    read_csv os input_path f = Return data ∧
    to_csv os out output_path f1 = (f', Return ()) ∧
    rows out = stable_sort (row_leb ["symbol"; "date"]) pre ∧
    Forall2 (λ r r',
       cell_at "processed_at" r' = Str now ∧
       ("volume" ∈ columns data →
        ∃ z, cell_at "volume" r' = Int z ∧
             (isna (cell_at "volume" r) = true → z = 0) ∧
             (∀ z0, cell_at "volume" r = Int z0 → z = z0)))
      (rows data) pre.
Proof.
  intros Hlen
    (data & out & f1 & Hin & Ht & _ & Hcsv & -> & _)%transform_stock_data_Return.
  apply transform_frame_Return in Ht
    as (D1 & pre & _ & Hconv & _ & _ & Hrows & Hsort).
  pose proof (convert_date_rows _ _ Hlen Hconv) as Hdate.
  apply convert_date_Return in Hconv as [Hcols _].
  exists data, out, pre, f1. split_and!; [done|done|done|].
  pose proof (Forall2_compose _ _ _ _ _ Hdate Hrows) as H.
  eapply Forall2_impl; [exact H|]. simpl.
  intros r r' (r1 & Hr1 & _ & _ & Hvol & Hnow & _). split; [done|].
  intros Hv. rewrite bool_decide_true in Hvol by (by rewrite Hcols).
  assert (cell_at "volume" r1 = cell_at "volume" r) as E.
  { unfold cell_at. by rewrite Hr1. }
  rewrite E in Hvol.
  pose proof (astype_int_is_int _ _ _ Hvol) as Hint.
  destruct (cell_at "volume" r') as [| |z| |]; try done.
  exists z. split; [done|]. unfold fillna0 in Hvol. split.
  - intros Hna. rewrite Hna in Hvol. by injection Hvol as <-.
  - intros z0 Hz0. rewrite Hz0 in Hvol. simpl in Hvol. by injection Hvol as <-.
Qed.

End transform_stock_data.

(** *** An instance of the library functions, for the examples

    [pd.to_datetime] on ISO dates ([YYYY-MM-DD]); no string is a number. *)

Definition days_from_civil (y m d : Z) : Z :=
  let y := if m <=? 2 then y - 1 else y in
  let era := y / 400 in
  let yoe := y - era * 400 in
  let doy := (153 * (if 2 <? m then m - 3 else m + 9) + 2) / 5 + d - 1 in
  let doe := yoe * 365 + yoe / 4 - yoe / 100 + doy in
  era * 146097 + doe - 719468.

Definition parse_ymd (s : string) : option Z :=
  y ← digits_value 0 (String.substring 0 4 s);
  m ← digits_value 0 (String.substring 5 2 s);
  d ← digits_value 0 (String.substring 8 2 s);
  let days := days_from_civil y m d in
  if bool_decide (String.length s = 10%nat ∧
                  String.substring 4 1 s = "-" ∧ String.substring 7 1 s = "-" ∧
                  civil_from_days days = (y, m, d))
  then Some (days * ns_per_day) else None.

Definition to_datetime_iso (col : list cell) : outcome (list cell) :=
  mapM (λ c, match c with
             | Str s =>
                 t ← of_option (ValueError "Unknown datetime string format")
                       (parse_ymd s);
                 Return (Ts t)
             | Ts t => Return (Ts t)
             | NaT => Return NaT
             | Flt f => if PrimFloat.is_nan f then Return NaT else Raise TypeError
             | Int _ => Raise TypeError
             end) col.

Definition no_number {A} (s : string) : option A := None.

Lemma to_datetime_iso_length col dates :
  to_datetime_iso col = Return dates → length dates = length col.
Proof. apply mapM_Return_length. Qed.

(** The file the extraction from Alpha Vantage writes: one record without
    a volume. *)
Definition raw_columns : list string :=
  ["date"; "open"; "high"; "low"; "close"; "volume"; "symbol"; "data_source";
   "extracted_at"].

Definition raw_record (date : string) (open high low close volume : float)
    (symbol data_source : string) : row :=
  list_to_map
    [("date", Str date); ("open", Flt open); ("high", Flt high);
     ("low", Flt low); ("close", Flt close); ("volume", Flt volume);
     ("symbol", Str symbol); ("data_source", Str data_source);
     ("extracted_at", Str "2023-09-03T05:58:00")].

Definition raw_alpha : DataFrame :=
  {| columns := raw_columns;
     rows := [raw_record "2023-09-02" 181.22 183.55 180.13 182.92 48726500
                "MSFT" "alpha_vantage";
              raw_record "2023-09-01" 180.31 182.05 179.22 181.15 nan
                "AAPL" "alpha_vantage"] |}.

Definition fs_raw : gmap string DataFrame := {[ "/tmp/alpha_vantage_data.csv" := raw_alpha ]}.

Definition transform_example (input_path source : string)
    : list log_record * gmap string DataFrame * outcome string :=
  transform_stock_data csv_files to_datetime_iso no_number no_number
    "2023-09-03T06:00:00" input_path "/tmp/transformed.csv" source fs_raw.

(** What the normalisation writes for it: the volume that is missing has
    become 0, the rows are in the order of the symbols. *)
Definition transformed_record (date : string) (open high low close : float)
    (volume : Z) (symbol data_source : string) (change volatility : float)
    : row :=
  list_to_map
    [("date", Str date); ("open", Flt open); ("high", Flt high);
     ("low", Flt low); ("close", Flt close); ("volume", Int volume);
     ("symbol", Str symbol); ("data_source", Str data_source);
     ("extracted_at", Str "2023-09-03T05:58:00");
     ("processed_at", Str "2023-09-03T06:00:00");
     ("daily_change_pct", Flt change); ("daily_volatility", Flt volatility)].

Definition transformed_alpha : DataFrame :=
  {| columns := raw_columns ++ ["processed_at"; "daily_change_pct";
                                "daily_volatility"];
     rows := [transformed_record "2023-09-01" 180.31 182.05 179.22 181.15 0
                "AAPL" "alpha_vantage" 0.47 1.57;
              transformed_record "2023-09-02" 181.22 183.55 180.13 182.92
                48726500 "MSFT" "alpha_vantage" 0.94 1.89] |}.

Lemma read_raw_alpha :
  read_csv csv_files "/tmp/alpha_vantage_data.csv" fs_raw = Return raw_alpha.
Proof. vm_compute. reflexivity. Qed.

Lemma transform_example_returns :
  transform_example "/tmp/alpha_vantage_data.csv" "alpha_vantage"
  = ([(INFO, Transforming_data "alpha_vantage" "/tmp/alpha_vantage_data.csv");
      (INFO, Transformed_records 2 "/tmp/transformed.csv")],
     <["/tmp/transformed.csv" := transformed_alpha]> fs_raw,
     Return "/tmp/transformed.csv").
Proof. vm_compute. reflexivity. Qed.

Lemma transform_derived_fields_witness :
  ∃ out f1,
    to_csv csv_files out "/tmp/transformed.csv" f1
      = (<["/tmp/transformed.csv" := transformed_alpha]> fs_raw, Return ()) ∧
    "daily_change_pct" ∈ columns out ∧ "daily_volatility" ∈ columns out ∧
    ∀ r, r ∈ rows out →
      ∃ o h l c : float,
        cell_at "open" r = Flt o ∧ cell_at "high" r = Flt h ∧
        cell_at "low" r = Flt l ∧ cell_at "close" r = Flt c ∧
        cell_at "daily_change_pct" r
          = Flt (round2 (PrimFloat.mul (PrimFloat.div (PrimFloat.sub c o) o) 100)) ∧
        cell_at "daily_volatility" r
          = Flt (round2 (PrimFloat.mul (PrimFloat.div (PrimFloat.sub h l) o) 100)).
Proof.
  exact (transform_derived_fields csv_files to_datetime_iso no_number no_number
           _ _ _ _ _ _ _ _ transform_example_returns).
Defined.

Lemma transform_unknown_source_witness :
  transform_example "/tmp/missing.csv" "bloomberg"
  = ([(INFO, Transforming_data "bloomberg" "/tmp/missing.csv")], fs_raw,
     Raise (FileNotFoundError "/tmp/missing.csv")) ∧
  transform_example "/tmp/alpha_vantage_data.csv" "bloomberg"
  = ([(INFO, Transforming_data "bloomberg" "/tmp/alpha_vantage_data.csv")],
     fs_raw, Raise (ValueError "Unknown source: bloomberg")).
Proof.
  split.
  - apply (proj1 (transform_unknown_source csv_files to_datetime_iso no_number
                    no_number "2023-09-03T06:00:00" "/tmp/missing.csv"
                    "/tmp/transformed.csv" "bloomberg" fs_raw)).
    reflexivity.
  - apply (proj2 (transform_unknown_source csv_files to_datetime_iso no_number
                    no_number "2023-09-03T06:00:00"
                    "/tmp/alpha_vantage_data.csv" "/tmp/transformed.csv"
                    "bloomberg" fs_raw)
             raw_alpha); [exact read_raw_alpha|discriminate..].
Defined.

Lemma transform_keeps_rows_witness :
  ∃ data out f1,
    read_csv csv_files "/tmp/alpha_vantage_data.csv" fs_raw = Return data ∧
    to_csv csv_files out "/tmp/transformed.csv" f1
      = (<["/tmp/transformed.csv" := transformed_alpha]> fs_raw, Return ()) ∧
    length (rows out) = length (rows data) ∧
    column "symbol" out ≡ₚ column "symbol" data.
Proof.
  destruct (transform_keeps_rows csv_files to_datetime_iso no_number no_number
              _ _ _ _ _ _ _ _ to_datetime_iso_length transform_example_returns)
    as (data & out & f1 & Hin & Hout & Hlen & _ & Hperm & _).
  exists data, out, f1.
  split; [exact Hin|]. split; [exact Hout|].
  split; [exact Hlen|]. apply Hperm.
  unfold written_columns. rewrite !not_elem_of_cons.
  split_and!; [discriminate..|]. apply not_elem_of_nil.
Defined.

Lemma transform_requires_columns_witness :
  ∃ data,
    read_csv csv_files "/tmp/alpha_vantage_data.csv" fs_raw = Return data ∧
    "close" ∈ columns data.
Proof.
  destruct (transform_requires_columns csv_files to_datetime_iso no_number
              no_number _ _ _ _ _ _ _ _ transform_example_returns)
    as (data & Hin & _ & Hcols).
  exists data. split; [exact Hin|].
  apply Hcols. repeat first [by left|right].
Defined.

Lemma transform_volume_integer_witness :
  ∃ out pre f1,
    to_csv csv_files out "/tmp/transformed.csv" f1
      = (<["/tmp/transformed.csv" := transformed_alpha]> fs_raw, Return ()) ∧
    rows out = stable_sort (row_leb ["symbol"; "date"]) pre ∧
    Forall (λ r', cell_at "processed_at" r' = Str "2023-09-03T06:00:00") pre.
Proof.
  destruct (transform_volume_integer csv_files to_datetime_iso no_number
              no_number _ _ _ _ _ _ _ _ to_datetime_iso_length
              transform_example_returns)
    as (data & out & pre & f1 & Hin & Hout & Hsort & Hrows).
  exists out, pre, f1.
  split; [exact Hout|]. split; [exact Hsort|].
  eapply Forall2_Forall_r; [exact Hrows|]. by intros r r' _ [? _].
Defined.

End Transformers.

(** * Validation: [dags/utils/validators.py] *)

Module Validators.
Import Transformers.

(** ** Schemas *)

(** The data types the schemas use: [pa.String], [pa.Float], [pa.Int]. *)
Inductive pa_dtype := pa_String | pa_Float | pa_Int.

(** [pa.Column(dtype, nullable=...)] *)
Record Column := pa_Column { col_dtype : pa_dtype; nullable : bool }.

(** [pa.DataFrameSchema({...})]: the columns in the order of the dict. *)
Notation DataFrameSchema := (list (string * Column)).

Definition get_raw_alpha_vantage_schema : DataFrameSchema :=
  [("date", pa_Column pa_String false);
   ("symbol", pa_Column pa_String false);
   ("open", pa_Column pa_Float true);
   ("high", pa_Column pa_Float true);
   ("low", pa_Column pa_Float true);
   ("close", pa_Column pa_Float false);
   ("volume", pa_Column pa_Int true);
   ("data_source", pa_Column pa_String false);
   ("extracted_at", pa_Column pa_String false)].

Definition get_raw_yahoo_finance_schema : DataFrameSchema :=
  [("date", pa_Column pa_String false);
   ("symbol", pa_Column pa_String false);
   ("open", pa_Column pa_Float true);
   ("high", pa_Column pa_Float true);
   ("low", pa_Column pa_Float true);
   ("close", pa_Column pa_Float false);
   ("volume", pa_Column pa_Int true);
   ("data_source", pa_Column pa_String false);
   ("extracted_at", pa_Column pa_String false)].

Definition get_transformed_data_schema : DataFrameSchema :=
  [("date", pa_Column pa_String false);
   ("symbol", pa_Column pa_String false);
   ("open", pa_Column pa_Float true);
   ("high", pa_Column pa_Float true);
   ("low", pa_Column pa_Float true);
   ("close", pa_Column pa_Float false);
   ("volume", pa_Column pa_Int true);
   ("data_source", pa_Column pa_String false);
   ("processed_at", pa_Column pa_String false);
   ("daily_change_pct", pa_Column pa_Float true);
   ("daily_volatility", pa_Column pa_Float true)].

(** What a [pa.errors.SchemaError] reports. *)
Inductive SchemaError :=
  | column_not_in_dataframe (c : string)
  | non_nullable_contains_null (c : string)
  | wrong_dtype (c : string) (expected : pa_dtype) (found : dtype).

(** The pandas dtype a pandera data type stands for. *)
Definition numpy_dtype (t : pa_dtype) : dtype :=
  match t with
  | pa_String => object
  | pa_Float => float64
  | pa_Int => int64
  end.

(** The checks of one column, in the order pandera runs them. *)
Definition check_column (df : DataFrame) (c : string) (col : Column)
    : option SchemaError :=
  let values := column c df in
  if negb (nullable col) && existsb isna values
  then Some (non_nullable_contains_null c)
  else if decide (dtype_of values = numpy_dtype (col_dtype col)) then None
  else Some (wrong_dtype c (col_dtype col) (dtype_of values)).

(** [schema.validate(df)], for a schema without coercion that is not
    strict: every column of the schema is in the frame, and passes its
    checks; the first failure is the error raised, [None] when there is
    none. *)
Definition validate (schema : DataFrameSchema) (df : DataFrame)
    : option SchemaError :=
  match list_find (λ p : string * Column, p.1 ∉ columns df) schema with
  | Some (_, (c, _)) => Some (column_not_in_dataframe c)
  | None =>
      head (omap (λ p : string * Column, check_column df p.1 p.2) schema)
  end.

(** ** Reports *)

(** The errors of a report, one constructor per message. *)
Inductive error :=
  | DataFrame_is_empty
  | Missing_required_columns (missing_columns : list string)
  | Schema_validation_failed (e : SchemaError)
  | Found_negative_close_prices
  | Found_records_with_future_dates (n : nat)
  | Validation_error (e : exn)
  | Date_column_missing
  | Data_is_too_old (newest_date cutoff_date : string)
  | Data_freshness_validation_error (e : exn).

Inductive warning :=
  | Data_contains_records_older_than_one_year
  | Found_duplicate_records (duplicates : nat)
  | Found_unusually_high_price (max_price : cell)
  | Found_unusually_high_volume (max_volume : cell)
  | Found_records_with_high_volatility (n : nat)
  | Price_inconsistency (symbol date : cell) (max_diff_pct : float).

Inductive metric :=
  | count (n : nat)
  | scalar (v : cell)
  | text (s : string)
  | days (n : Z)
  | date_range (oldest newest : cell)
  | per_column (counts : list (string * nat))
  | per_value (counts : list (cell * nat)).

Record validation_results := mk_results {
  passed : bool;
  errors : list error;
  warnings : list warning;
  metrics : list (string * metric)
}.

(** [{'passed': True, 'errors': [], 'warnings': [], 'metrics': {}}] *)
Definition initial_results : validation_results :=
  {| passed := true; errors := []; warnings := []; metrics := [] |}.

(** [passed = False] together with [errors.append(e)]. *)
Definition failed (e : error) (res : validation_results) : validation_results :=
  {| passed := false; errors := errors res ++ [e];
     warnings := warnings res; metrics := metrics res |}.

Definition warn (w : warning) (res : validation_results) : validation_results :=
  {| passed := passed res; errors := errors res;
     warnings := warnings res ++ [w]; metrics := metrics res |}.

Definition set_metrics (m : list (string * metric)) (res : validation_results)
    : validation_results :=
  {| passed := passed res; errors := errors res;
     warnings := warnings res; metrics := m |}.

Notation V := (stateful validation_results).

(** [passed = False; errors.append(e); return False, validation_results] *)
Definition fail (e : error) : V bool := _ ← modify (failed e); mret false.

(** [return validation_results['passed'], validation_results] *)
Definition return_passed : V bool := res ← get; mret (passed res).

(** ** [validate_transformed_data] *)

(** The builtins [max] and [min] on a sequence of floats: the first item,
    replaced by each later item that compares greater (less). *)
Definition py_max (l : list float) : outcome float :=
  match l with
  | [] => Raise (ValueError "max() arg is an empty sequence")
  | x :: l' => Return (foldl (λ m y, if PrimFloat.ltb m y then y else m) x l')
  end.

Definition py_min (l : list float) : outcome float :=
  match l with
  | [] => Raise (ValueError "min() arg is an empty sequence")
  | x :: l' => Return (foldl (λ m y, if PrimFloat.ltb y m then y else m) x l')
  end.

(** [(max(close_prices) - min(close_prices)) / min(close_prices) * 100] *)
Definition max_diff_pct (close_prices : list float) : outcome float :=
  hi ← py_max close_prices;
  lo ← py_min close_prices;
  lo' ← py_min close_prices;
  Return (PrimFloat.mul (PrimFloat.div (PrimFloat.sub hi lo) lo') 100%float).

(** The body of the loop over the dates of one symbol. *)
Definition check_date (symbol : cell) (symbol_data : list row) (date : cell)
    : V () :=
  let date_data := rows_where "date" date symbol_data in
  when (1 <? length date_data)%nat
    (close_prices ← lift (mapM to_numeric (cell_at "close" <$> date_data));
     pct ← lift (max_diff_pct close_prices);
     when (PrimFloat.ltb 5%float pct)
       (modify (warn (Price_inconsistency symbol date pct)))).

(** The body of the loop over the symbols. *)
Definition check_symbol (df : DataFrame) (symbol : cell) : V () :=
  let symbol_data := rows_where "symbol" symbol (rows df) in
  for_each (series_unique (cell_at "date" <$> symbol_data))
           (check_date symbol symbol_data).

(** The check for data consistency across sources. *)
Definition check_consistency (df : DataFrame) : V () :=
  sources ← lift (getitem "data_source" df);
  when (1 <? series_nunique sources)%nat
    (symbols ← lift (getitem "symbol" df);
     for_each (series_unique symbols) (check_symbol df)).

(** The check of one column against a threshold for suspicious values. *)
Definition check_max (c : string) (bound : Z) (w : cell → warning)
    (df : DataFrame) : V () :=
  values ← lift (getitem c df);
  max_value ← lift (series_max values);
  high ← lift (gt_number bound max_value);
  when high (modify (warn (w max_value))).

Definition check_volatility (df : DataFrame) : V () :=
  values ← lift (getitem "daily_volatility" df);
  mask ← lift (mapM (gt_number 20) values);
  let high_volatility :=
    {| columns := columns df; rows := select (rows df) mask |} in
  when (negb (empty high_volatility))
    (modify (warn (Found_records_with_high_volatility
                     (length (rows high_volatility))))).

Definition transformed_metrics (df : DataFrame)
    : outcome (list (string * metric)) :=
  symbols ← getitem "symbol" df;
  dates ← getitem "date" df;
  oldest ← series_min dates;
  dates ← getitem "date" df;
  newest ← series_max dates;
  sources ← getitem "data_source" df;
  Return [("record_count", count (length (rows df)));
          ("symbol_count", count (series_nunique symbols));
          ("date_range", date_range oldest newest);
          ("missing_values", per_column (missing_values df));
          ("sources", per_value (value_counts sources))].

Definition check_duplicates (subset : list string) (df : DataFrame) : V () :=
  mask ← lift (frame_duplicated subset df);
  let duplicates := count_true mask in
  when (0 <? duplicates)%nat (modify (warn (Found_duplicate_records duplicates))).

(** The body of the [try] block. *)
Definition validate_transformed_body (df : DataFrame) : V bool :=
  match validate get_transformed_data_schema df with
  | Some e => fail (Schema_validation_failed e)
  | None =>
      close ← lift (getitem "close" df);
      negative ← lift (mapM lt_zero close);
      if existsb id negative then fail Found_negative_close_prices
      else
        _ ← check_max "close" 10000 Found_unusually_high_price df;
        _ ← (if decide ("volume" ∈ columns df)
             then check_max "volume" 1000000000 Found_unusually_high_volume df
             else mret ());
        _ ← (if decide ("daily_volatility" ∈ columns df)
             then check_volatility df else mret ());
        m ← lift (transformed_metrics df);
        _ ← modify (set_metrics m);
        _ ← check_duplicates ["date"; "symbol"; "data_source"] df;
        _ ← check_consistency df;
        return_passed
  end.

(** [validate_transformed_data(df)]: the pair it returns. *)
Definition validate_transformed_data (df : DataFrame)
    : bool * validation_results :=
  match validate_transformed_body df initial_results with
  | (res, Return is_valid) => (is_valid, res)
  | (res, Raise e) => (false, failed (Validation_error e) res)
  end.

(** ** The shape of a report

    Every validation keeps its report in one of two shapes: passed without
    an error, or failed with one error, and it returns the flag of the
    report.  The steps that warn or compute metrics leave the flag and the
    errors alone. *)

Section report_shape.
Context {S : Type} (proj : S → validation_results).
(** The errors a validation can report. *)
Variable allowed : error → Prop.

(** A step that leaves the flag and the errors as they are. *)
Definition quiet {A} (m : stateful S A) : Prop :=
  ∀ s, passed (proj (m s).1) = passed (proj s) ∧
       errors (proj (m s).1) = errors (proj s).

(** Where a body that starts from a report without error ends: it returns
    the flag of its report, which has an error if and only if it failed; or
    it raises, from a report without error. *)
Definition well_ended (r : S * outcome bool) : Prop :=
  match r.2 with
  | Return true => passed (proj r.1) = true ∧ errors (proj r.1) = []
  | Return false =>
      passed (proj r.1) = false ∧ ∃ e, errors (proj r.1) = [e] ∧ allowed e
  | Raise _ => passed (proj r.1) = true ∧ errors (proj r.1) = []
  end.

Definition ends_well (m : stateful S bool) : Prop :=
  ∀ s, passed (proj s) = true → errors (proj s) = [] → well_ended (m s).

Lemma quiet_ret {A} (a : A) : quiet (mret a).
Proof. by intros s. Qed.

Lemma quiet_lift {A} (o : outcome A) : quiet (lift o).
Proof. by intros s. Qed.

Lemma quiet_get : quiet get.
Proof. by intros s. Qed.

Lemma quiet_bind {A B} (m : stateful S A) (f : A → stateful S B) :
  quiet m → (∀ a, quiet (f a)) → quiet (m ≫= f).
Proof.
  intros Hm Hf s. specialize (Hm s). unfold mbind, stateful_bind.
  destruct (m s) as [s' [a|e]]; simpl in *; [|done].
  destruct (Hf a s') as [H1 H2]. by rewrite H1, H2.
Qed.

Lemma quiet_when (cond : bool) (m : stateful S ()) :
  quiet m → quiet (when cond m).
Proof. intros Hm. destruct cond; [done|apply quiet_ret]. Qed.

Lemma quiet_for_each {A} (l : list A) (body : A → stateful S ()) :
  (∀ x, quiet (body x)) → quiet (for_each l body).
Proof.
  intros Hbody. induction l as [|x l IH]; simpl; [apply quiet_ret|].
  apply quiet_bind; [apply Hbody|done].
Qed.

Lemma quiet_if {A} (P : Prop) `{Decision P} (m1 m2 : stateful S A) :
  quiet m1 → quiet m2 → quiet (if decide P then m1 else m2).
Proof. by destruct (decide P). Qed.

Lemma ends_well_bind {A} (m : stateful S A) (k : A → stateful S bool) :
  quiet m → (∀ a, ends_well (k a)) → ends_well (m ≫= k).
Proof.
  intros Hm Hk s Hp He. destruct (Hm s) as [H1 H2].
  unfold mbind, stateful_bind.
  destruct (m s) as [s' [a|e]]; simpl in *.
  - apply Hk; congruence.
  - unfold well_ended; simpl. split; congruence.
Qed.

Lemma ends_well_if (cond : bool) (m1 m2 : stateful S bool) :
  ends_well m1 → ends_well m2 → ends_well (if cond then m1 else m2).
Proof. by destruct cond. Qed.

Lemma ends_well_ret_false_after {A} (m : stateful S A) :
  (∀ s, passed (proj s) = true → errors (proj s) = [] →
        passed (proj (m s).1) = false ∧
        ∃ e, errors (proj (m s).1) = [e] ∧ allowed e) →
  (∀ s, ∃ a, (m s).2 = Return a) →
  ends_well (m ≫= λ _, mret false).
Proof.
  intros Hm Hret s Hp He. specialize (Hm s Hp He). destruct (Hret s) as [a Ha].
  unfold mbind, stateful_bind.
  destruct (m s) as [s' [a'|e]]; simpl in *; [done|done].
Qed.

End report_shape.

Lemma ends_well_impl {S} (proj : S → validation_results)
    (allowed' allowed : error → Prop) (m : stateful S bool) :
  ends_well proj allowed' m → (∀ e, allowed' e → allowed e) →
  ends_well proj allowed m.
Proof.
  intros Hm Himpl s Hp He. specialize (Hm s Hp He). unfold well_ended in *.
  destruct (m s).2 as [[]|x]; [done| |done].
  destruct Hm as (? & e & ? & ?). eauto.
Qed.


(** *** The report of [validate_transformed_data] *)

(** The errors [validate_transformed_data] can report. *)
Definition transformed_error (e : error) : Prop :=
  (∃ se, e = Schema_validation_failed se) ∨
  e = Found_negative_close_prices ∨
  (∃ x, e = Validation_error x).

Lemma quiet_warn w : quiet id (modify (warn w)).
Proof. by intros s. Qed.

Lemma quiet_set_metrics m : quiet id (modify (set_metrics m)).
Proof. by intros s. Qed.

Lemma fail_ends_well (allowed : error → Prop) e :
  allowed e → ends_well id allowed (fail e).
Proof.
  intros Ha s Hp He. unfold well_ended; simpl in *. split; [done|].
  exists e. by rewrite He.
Qed.

Lemma return_passed_ends_well (allowed : error → Prop) :
  ends_well id allowed return_passed.
Proof.
  intros s Hp He. unfold well_ended, return_passed; simpl in *. by rewrite Hp.
Qed.

Lemma quiet_check_max c bound w df : quiet id (check_max c bound w df).
Proof.
  unfold check_max.
  repeat (apply quiet_bind; [apply quiet_lift|intros ?]).
  apply quiet_when, quiet_warn.
Qed.

Lemma quiet_check_volatility df : quiet id (check_volatility df).
Proof.
  unfold check_volatility.
  repeat (apply quiet_bind; [apply quiet_lift|intros ?]).
  apply quiet_when, quiet_warn.
Qed.

Lemma quiet_check_duplicates subset df : quiet id (check_duplicates subset df).
Proof.
  unfold check_duplicates. apply quiet_bind; [apply quiet_lift|intros ?].
  apply quiet_when, quiet_warn.
Qed.

Lemma quiet_check_date symbol symbol_data date :
  quiet id (check_date symbol symbol_data date).
Proof.
  unfold check_date. apply quiet_when.
  repeat (apply quiet_bind; [apply quiet_lift|intros ?]).
  apply quiet_when, quiet_warn.
Qed.

Lemma quiet_check_consistency df : quiet id (check_consistency df).
Proof.
  unfold check_consistency. apply quiet_bind; [apply quiet_lift|intros ?].
  apply quiet_when. apply quiet_bind; [apply quiet_lift|intros ?].
  apply quiet_for_each. intros symbol. unfold check_symbol.
  apply quiet_for_each. intros date. apply quiet_check_date.
Qed.

Lemma validate_transformed_body_ends_well df :
  ends_well id transformed_error (validate_transformed_body df).
Proof.
  unfold validate_transformed_body.
  destruct (validate get_transformed_data_schema df) as [se|].
  { apply fail_ends_well. left. by exists se. }
  apply ends_well_bind; [apply quiet_lift|intros close].
  apply ends_well_bind; [apply quiet_lift|intros negative].
  apply ends_well_if; [apply fail_ends_well; right; by left|].
  apply ends_well_bind; [apply quiet_check_max|intros _].
  apply ends_well_bind.
  { apply quiet_if; [apply quiet_check_max|apply quiet_ret]. }
  intros _. apply ends_well_bind.
  { apply quiet_if; [apply quiet_check_volatility|apply quiet_ret]. }
  intros _. apply ends_well_bind; [apply quiet_lift|intros m].
  apply ends_well_bind; [apply quiet_set_metrics|intros _].
  apply ends_well_bind; [apply quiet_check_duplicates|intros _].
  apply ends_well_bind; [apply quiet_check_consistency|intros _].
  apply return_passed_ends_well.
Qed.

(** [validate_transformed_data] returns the flag of its report, and the
    report has one of two shapes: passed, without an error; or failed, with
    exactly one error, which is a schema failure, the negative close
    prices, or an exception that was caught. *)
Lemma validate_transformed_shape df :
  (validate_transformed_data df).1 = passed (validate_transformed_data df).2 ∧
  if (validate_transformed_data df).1
  then errors (validate_transformed_data df).2 = []
  else ∃ e, errors (validate_transformed_data df).2 = [e] ∧ transformed_error e.
Proof.
  unfold validate_transformed_data.
  pose proof (validate_transformed_body_ends_well df initial_results
                eq_refl eq_refl) as H.
  unfold well_ended in H.
  destruct (validate_transformed_body df initial_results) as [res [[]|x]];
    simpl in *.
  - destruct H as [Hp He]. by rewrite Hp.
  - destruct H as [Hp He]. by rewrite Hp.
  - destruct H as [Hp He]. split; [done|].
    exists (Validation_error x). rewrite He. split; [done|].
    right; right. by exists x.
Qed.

Lemma lt_zero_any col mask c :
  mapM lt_zero col = Return mask → c ∈ col → lt_zero c = Return true →
  existsb id mask = true.
Proof.
  intros H%mapM_Return. induction H as [|a b col mask Hab _ IH].
  - by intros ?%elem_of_nil.
  - intros [->|Hc]%elem_of_cons Hlt; simpl.
    + rewrite Hab in Hlt. by injection Hlt as ->.
    + rewrite IH by done. by destruct b.
Qed.

Lemma negative_close_not_valid df r :
  r ∈ rows df → lt_zero (cell_at "close" r) = Return true →
  (validate_transformed_data df).1 = false.
Proof.
  intros Hr Hneg.
  unfold validate_transformed_data, validate_transformed_body.
  destruct (validate get_transformed_data_schema df); [done|].
  unfold mbind, stateful_bind, lift. simpl.
  destruct (getitem "close" df) as [close|x] eqn:Hclose; simpl; [|done].
  apply getitem_Return in Hclose as [_ ->].
  destruct (mapM lt_zero (column "close" df)) as [mask|x] eqn:Hmask;
    simpl; [|done].
  rewrite (lt_zero_any _ _ (cell_at "close" r) Hmask); [done| |done].
  unfold column. apply list_elem_of_fmap. by exists r.
Qed.

Lemma negative_close_transformed df r :
  r ∈ rows df → lt_zero (cell_at "close" r) = Return true →
  (validate_transformed_data df).1 = false ∧
  passed (validate_transformed_data df).2 = false ∧
  errors (validate_transformed_data df).2 ≠ [].
Proof.
  intros Hr Hneg.
  pose proof (negative_close_not_valid df r Hr Hneg) as Hf.
  destruct (validate_transformed_shape df) as [Hp He].
  rewrite Hf in Hp, He. split_and!; [done..|].
  destruct He as (e & -> & _). done.
Qed.
(** ** [validate_raw_data] *)

(** [validate_raw_data] assigns a column of the frame it is given: the
    state of its body is the frame and the report. *)
Record raw_state := { frame : DataFrame; report : validation_results }.

Notation R := (stateful raw_state).

Definition on_report (f : validation_results → validation_results)
    (st : raw_state) : raw_state :=
  {| frame := frame st; report := f (report st) |}.

Definition on_frame (f : DataFrame → DataFrame) (st : raw_state) : raw_state :=
  {| frame := f (frame st); report := report st |}.

Definition raw_fail (e : error) : R bool :=
  _ ← modify (on_report (failed e)); mret false.

Definition required_columns : list string :=
  ["date"; "symbol"; "close"; "data_source"].

(** The schema of a validation type; [None] is the generic case. *)
Definition schema_of (validation_type : option string) : option DataFrameSchema :=
  match validation_type with
  | Some t =>
      if decide (t = "alpha_vantage") then Some get_raw_alpha_vantage_schema
      else if decide (t = "yahoo_finance") then Some get_raw_yahoo_finance_schema
      else None
  | None => None
  end.

Section validate_raw_data.
(** [pd.to_datetime] on a column and on one value; the two readings of
    [pd.Timestamp.now()], in nanoseconds. *)
Variable to_datetime : list cell → outcome (list cell).
Variable to_datetime_scalar : cell → outcome cell.
Variable now_first now_second : Z.

(** The check for future dates; it returns [True] when it has made the
    function return. *)
Definition check_future_dates : R bool :=
  st ← get;
  let df := frame st in
  if decide ("date" ∈ columns df) then
    date ← lift (getitem "date" df);
    date_temp ← lift (if is_datetime64_any_dtype date then Return date
                      else to_datetime date);
    _ ← modify (on_frame (setitem "date_temp" date_temp));
    st ← get;
    let df := frame st in
    let today := normalize now_first in
    date_temp ← lift (getitem "date_temp" df);
    mask ← lift (mapM (gt_timestamp today) date_temp);
    let future_dates :=
      {| columns := columns df; rows := select (rows df) mask |} in
    if negb (empty future_dates) then
      _ ← raw_fail (Found_records_with_future_dates (length (rows future_dates)));
      mret true
    else mret false
  else mret false.

Definition raw_metrics (df : DataFrame) : outcome (list (string * metric)) :=
  symbols ← getitem "symbol" df;
  dates ← getitem "date" df;
  oldest ← series_min dates;
  dates ← getitem "date" df;
  newest ← series_max dates;
  Return [("record_count", count (length (rows df)));
          ("symbol_count", count (series_nunique symbols));
          ("date_range", date_range oldest newest);
          ("missing_values", per_column (missing_values df))].

(** The check for a reasonable date range. *)
Definition check_date_range (df : DataFrame) : R () :=
  if decide ("date_temp" ∈ columns df) then
    dates ← lift (getitem "date" df);
    oldest ← lift (series_min dates);
    oldest_date ← lift (to_datetime_scalar oldest);
    old ← lift (lt_timestamp (now_second - 365 * ns_per_day) oldest_date);
    when old
      (modify (on_report (warn Data_contains_records_older_than_one_year)))
  else mret ().

Definition raw_check_duplicates (df : DataFrame) : R () :=
  mask ← lift (frame_duplicated ["date"; "symbol"] df);
  let duplicates := count_true mask in
  when (0 <? duplicates)%nat
    (modify (on_report (warn (Found_duplicate_records duplicates)))).

(** From the metrics to the [return] at the end of the [try] block. *)
Definition raw_metrics_and_warnings : R bool :=
  st ← get;
  let df := frame st in
  m ← lift (raw_metrics df);
  _ ← modify (on_report (set_metrics m));
  _ ← check_date_range df;
  _ ← raw_check_duplicates df;
  st ← get;
  mret (passed (report st)).

(** The body of the [try] block. *)
Definition validate_raw_body (validation_type : option string) : R bool :=
  st ← get;
  let df := frame st in
  if empty df then raw_fail DataFrame_is_empty
  else
    let missing_columns := filter (λ c, c ∉ columns df) required_columns in
    if negb (bool_decide (missing_columns = [])) then
      raw_fail (Missing_required_columns missing_columns)
    else
      match schema ← schema_of validation_type; validate schema df with
      | Some e => raw_fail (Schema_validation_failed e)
      | None =>
          close ← lift (getitem "close" df);
          negative ← lift (mapM lt_zero close);
          if existsb id negative then raw_fail Found_negative_close_prices
          else
            check_future_dates ≫= λ returned : bool,
            if returned then mret false else raw_metrics_and_warnings
      end.

(** [validate_raw_data(df, validation_type)]: the frame after the call and
    the pair returned. *)
Definition validate_raw_data (df : DataFrame) (validation_type : option string)
    : DataFrame * (bool * validation_results) :=
  match validate_raw_body validation_type
          {| frame := df; report := initial_results |} with
  | (st, Return is_valid) => (frame st, (is_valid, report st))
  | (st, Raise e) =>
      (frame st, (false, failed (Validation_error e) (report st)))
  end.

(** *** The report of [validate_raw_data] *)

(** The errors [validate_raw_data] can report. *)
Definition raw_error (e : error) : Prop :=
  e = DataFrame_is_empty ∨
  (∃ missing_columns, e = Missing_required_columns missing_columns) ∨
  (∃ se, e = Schema_validation_failed se) ∨
  e = Found_negative_close_prices ∨
  (∃ n, e = Found_records_with_future_dates n) ∨
  (∃ x, e = Validation_error x).

Lemma quiet_on_frame f : quiet report (modify (on_frame f)).
Proof. by intros s. Qed.

Lemma quiet_raw_warn w : quiet report (modify (on_report (warn w))).
Proof. by intros s. Qed.

Lemma quiet_raw_set_metrics m : quiet report (modify (on_report (set_metrics m))).
Proof. by intros s. Qed.

Lemma raw_fail_ends_well e : raw_error e → ends_well report raw_error (raw_fail e).
Proof.
  intros Ha s Hp He. unfold well_ended; simpl in *. split; [done|].
  exists e. by rewrite He.
Qed.

Lemma quiet_check_date_range df : quiet report (check_date_range df).
Proof.
  unfold check_date_range. apply quiet_if; [|apply quiet_ret].
  repeat (apply quiet_bind; [apply quiet_lift|intros ?]).
  apply quiet_when, quiet_raw_warn.
Qed.

Lemma quiet_raw_check_duplicates df : quiet report (raw_check_duplicates df).
Proof.
  unfold raw_check_duplicates. apply quiet_bind; [apply quiet_lift|intros ?].
  apply quiet_when, quiet_raw_warn.
Qed.

(** The last part of the body reports no error of its own. *)
Lemma raw_metrics_and_warnings_ends_well :
  ends_well report (λ _, False) raw_metrics_and_warnings.
Proof.
  unfold raw_metrics_and_warnings.
  apply ends_well_bind; [apply quiet_get|intros st'].
  apply ends_well_bind; [apply quiet_lift|intros m].
  apply ends_well_bind; [apply quiet_raw_set_metrics|intros _].
  apply ends_well_bind; [apply quiet_check_date_range|intros _].
  apply ends_well_bind; [apply quiet_raw_check_duplicates|intros _].
  intros s Hp He. unfold well_ended; simpl. by rewrite Hp.
Qed.

Lemma check_future_dates_ends_well (rest : R bool) :
  ends_well report raw_error rest →
  ends_well report raw_error
    (check_future_dates ≫= λ returned : bool,
       if returned then mret false else rest).
Proof.
  intros Hrest s Hp He.
  unfold check_future_dates, mbind, stateful_bind, get, lift, modify. simpl.
  destruct (decide ("date" ∈ columns (frame s))); simpl; [|by apply Hrest].
  destruct (getitem "date" (frame s)) as [date|x]; simpl; [|done].
  destruct (if is_datetime64_any_dtype date then Return date else to_datetime date)
    as [date_temp|x]; simpl; [|done].
  destruct (getitem "date_temp" (setitem "date_temp" date_temp (frame s)))
    as [date_temp'|x]; simpl; [|done].
  destruct (mapM (gt_timestamp (normalize now_first)) date_temp')
    as [mask|x]; simpl; [|done].
  destruct (negb (empty _)); simpl.
  - unfold well_ended; simpl. split; [done|]. rewrite He. eexists. split; [done|].
    do 4 right. left. eauto.
  - by apply Hrest.
Qed.

Lemma validate_raw_body_ends_well validation_type :
  ends_well report raw_error (validate_raw_body validation_type).
Proof.
  unfold validate_raw_body.
  apply ends_well_bind; [apply quiet_get|intros st].
  apply ends_well_if; [apply raw_fail_ends_well; by left|].
  apply ends_well_if; [apply raw_fail_ends_well; right; left; eauto|].
  destruct (schema_of validation_type ≫= _) as [se|].
  { apply raw_fail_ends_well. do 2 right. left. eauto. }
  apply ends_well_bind; [apply quiet_lift|intros close].
  apply ends_well_bind; [apply quiet_lift|intros negative].
  apply ends_well_if; [apply raw_fail_ends_well; do 3 right; by left|].
  apply check_future_dates_ends_well.
  eapply ends_well_impl; [apply raw_metrics_and_warnings_ends_well|done].
Qed.

Lemma validate_raw_shape df validation_type :
  let r := (validate_raw_data df validation_type).2 in
  r.1 = passed r.2 ∧
  if r.1 then errors r.2 = []
  else ∃ e, errors r.2 = [e] ∧ raw_error e.
Proof.
  unfold validate_raw_data.
  pose proof (validate_raw_body_ends_well validation_type
                {| frame := df; report := initial_results |}
                eq_refl eq_refl) as H.
  unfold well_ended in H.
  destruct (validate_raw_body validation_type _) as [st [[]|x]]; simpl in *.
  - destruct H as [Hp He]. by rewrite Hp.
  - destruct H as [Hp He]. by rewrite Hp.
  - destruct H as [Hp He]. split; [done|].
    exists (Validation_error x). rewrite He. split; [done|].
    do 5 right. by exists x.
Qed.


Lemma negative_close_raw df validation_type r :
  r ∈ rows df → lt_zero (cell_at "close" r) = Return true →
  let res := (validate_raw_data df validation_type).2 in
  res.1 = false ∧ passed res.2 = false ∧ errors res.2 ≠ [].
Proof.
  intros Hr Hneg.
  assert ((validate_raw_data df validation_type).2.1 = false) as Hf.
  { unfold validate_raw_data, validate_raw_body.
    unfold mbind at 1, stateful_bind at 1, get. cbn [frame report].
    destruct (empty df); [done|].
    destruct (negb _); [done|].
    destruct (schema_of validation_type ≫= _); [done|].
    unfold mbind at 1, stateful_bind at 1, lift at 1.
    destruct (getitem "close" df) as [close|x] eqn:Hclose; [|done].
    apply getitem_Return in Hclose as [_ ->].
    unfold mbind at 1, stateful_bind at 1, lift at 1.
    destruct (mapM lt_zero (column "close" df)) as [mask|x] eqn:Hmask; [|done].
    rewrite (lt_zero_any _ _ (cell_at "close" r) Hmask); [done| |done].
    unfold column. apply list_elem_of_fmap. by exists r. }
  destruct (validate_raw_shape df validation_type) as [Hp He].
  cbv zeta in *. rewrite Hf in Hp, He. split_and!; [done..|].
  destruct He as (e & -> & _). done.
Qed.

(** C5. A table with a row whose close price is a negative number is
    rejected under both contracts: [validate_raw_data], whatever the
    validation type is, and [validate_transformed_data] return the flag
    [False], with [passed] at [False] in the report and a report that has an
    error.  This holds for every table: one that fails an earlier check, or
    on which a check raises, is rejected too. *)
Theorem negative_close_fails df validation_type r :
  r ∈ rows df → lt_zero (cell_at "close" r) = Return true →
  let raw := (validate_raw_data df validation_type).2 in
  let transformed := validate_transformed_data df in
  (raw.1 = false ∧ passed raw.2 = false ∧ errors raw.2 ≠ []) ∧
  (transformed.1 = false ∧ passed transformed.2 = false ∧
   errors transformed.2 ≠ []).
Proof.
  intros Hr Hneg. split.
  - by apply (negative_close_raw df validation_type r).
  - by apply (negative_close_transformed df r).
Qed.

(** C10. [validate_raw_data] and [validate_transformed_data] return a
    result for every table, whatever the library calls do: an exception
    raised in the body of either is caught and becomes the error
    [Validation error: ...] of a report that has not passed.  The flag
    returned is the flag of the report, and a report that has not passed
    holds an error. *)
Theorem validation_never_raises df validation_type :
  let raw := (validate_raw_data df validation_type).2 in
  let transformed := validate_transformed_data df in
  (raw.1 = passed raw.2 ∧
   (if raw.1 then errors raw.2 = []
    else ∃ e, errors raw.2 = [e] ∧ raw_error e) ∧
   ∀ st x,
     validate_raw_body validation_type
       {| frame := df; report := initial_results |} = (st, Raise x) →
     raw = (false, failed (Validation_error x) (report st)) ∧
     errors raw.2 = [Validation_error x]) ∧
  (transformed.1 = passed transformed.2 ∧
   (if transformed.1 then errors transformed.2 = []
    else ∃ e, errors transformed.2 = [e] ∧ transformed_error e) ∧
   ∀ res x,
     validate_transformed_body df initial_results = (res, Raise x) →
     transformed = (false, failed (Validation_error x) res) ∧
     errors transformed.2 = [Validation_error x]).
Proof.
  intros raw transformed. split.
  - destruct (validate_raw_shape df validation_type) as [Hp He].
    split; [exact Hp|]. split; [exact He|].
    intros st x Hbody. subst raw. unfold validate_raw_data in *.
    pose proof (validate_raw_body_ends_well validation_type
                  {| frame := df; report := initial_results |}
                  eq_refl eq_refl) as H.
    unfold well_ended in H. rewrite Hbody in *. simpl in *.
    split; [done|]. by destruct H as [_ ->].
  - destruct (validate_transformed_shape df) as [Hp He].
    split; [exact Hp|]. split; [exact He|].
    intros res x Hbody. subst transformed. unfold validate_transformed_data in *.
    pose proof (validate_transformed_body_ends_well df initial_results
                  eq_refl eq_refl) as H.
    unfold well_ended in H. rewrite Hbody in *. simpl in *.
    split; [done|]. by destruct H as [_ ->].
Qed.

(** *** The frame after [validate_raw_data] *)

(** The dates the check for future dates compares. *)
Definition dates_of (df : DataFrame) : outcome (list cell) :=
  if is_datetime64_any_dtype (column "date" df) then Return (column "date" df)
  else to_datetime (column "date" df).

Lemma preserves_frame_on_report f : preserves frame (modify (on_report f)).
Proof. by intros s. Qed.

Lemma preserves_frame_tail : preserves frame raw_metrics_and_warnings.
Proof.
  unfold raw_metrics_and_warnings.
  apply preserves_bind; [apply preserves_get|intros st].
  apply preserves_bind; [apply preserves_lift|intros m].
  apply preserves_bind; [apply preserves_frame_on_report|intros _].
  apply preserves_bind.
  { unfold check_date_range. apply preserves_if; [|apply preserves_ret].
    repeat (apply preserves_bind; [apply preserves_lift|intros ?]).
    apply preserves_when, preserves_frame_on_report. }
  intros _. apply preserves_bind.
  { unfold raw_check_duplicates.
    apply preserves_bind; [apply preserves_lift|intros ?].
    apply preserves_when, preserves_frame_on_report. }
  intros _. apply preserves_bind; [apply preserves_get|intros st'].
  apply preserves_ret.
Qed.

Lemma required_columns_present df c :
  negb (bool_decide (filter (λ c, c ∉ columns df) required_columns = [])) = false →
  c ∈ required_columns → c ∈ columns df.
Proof.
  intros H Hc. apply negb_false_iff, bool_decide_eq_true in H.
  destruct (decide (c ∈ columns df)) as [|Hn]; [done|].
  assert (c ∈ filter (λ c, c ∉ columns df) required_columns) as Hin.
  { by apply list_elem_of_filter. }
  rewrite H in Hin. by apply elem_of_nil in Hin.
Qed.

(** The check for future dates leaves the state as it is when the frame has
    no date and when it raises before the assignment; otherwise it has
    assigned the dates to the column [date_temp] of the frame. *)
Lemma check_future_dates_frame s :
  (check_future_dates s).1 = s ∧
    ((check_future_dates s).2 = Return false ∧ "date" ∉ columns (frame s) ∨
     ∃ x, (check_future_dates s).2 = Raise x) ∨
  ∃ dates,
    dates_of (frame s) = Return dates ∧
    frame (check_future_dates s).1 = setitem "date_temp" dates (frame s).
Proof.
  unfold check_future_dates, mbind, stateful_bind, get, lift, modify. simpl.
  destruct (decide ("date" ∈ columns (frame s))); simpl; [|left; split; [done|by left]].
  destruct (getitem "date" (frame s)) as [date|x] eqn:Hdate; simpl;
    [|left; split; [done|right; by exists x]].
  apply getitem_Return in Hdate as [_ ->].
  destruct (if is_datetime64_any_dtype (column "date" (frame s))
            then Return (column "date" (frame s))
            else to_datetime (column "date" (frame s)))
    as [date_temp|x] eqn:Htemp; simpl;
    [|left; split; [done|right; by exists x]].
  right. exists date_temp. split; [done|].
  destruct (getitem "date_temp" _) as [date_temp'|x]; simpl; [|done].
  destruct (mapM _ date_temp') as [mask|x]; simpl; [|done].
  by destruct (negb (empty _)).
Qed.

Lemma validate_raw_body_frame df validation_type :
  ∃ s o,
    validate_raw_body validation_type
      {| frame := df; report := initial_results |} = (s, o) ∧
    (frame s = df ∨ ∃ dates, frame s = setitem "date_temp" dates df) ∧
    (o = Return true →
     "date_temp" ∈ columns (frame s) ∧
     ∃ dates, dates_of df = Return dates ∧
              frame s = setitem "date_temp" dates df).
Proof.
  unfold validate_raw_body.
  unfold mbind at 1, stateful_bind at 1, get. cbn [frame report fst snd].
  set (s0 := {| frame := df; report := initial_results |}).
  destruct (empty df); [eexists _, _; split; [done|]; by split; [left|]|].
  destruct (negb _) eqn:Hmissing;
    [eexists _, _; split; [done|]; by split; [left|]|].
  destruct (schema_of validation_type ≫= _);
    [eexists _, _; split; [done|]; by split; [left|]|].
  unfold mbind at 1, stateful_bind at 1, lift at 1.
  destruct (getitem "close" df) as [close|x];
    [|eexists _, _; split; [done|]; by split; [left|]].
  unfold mbind at 1, stateful_bind at 1, lift at 1.
  destruct (mapM lt_zero close) as [mask|x];
    [|eexists _, _; split; [done|]; by split; [left|]].
  destruct (existsb id mask);
    [eexists _, _; split; [done|]; by split; [left|]|].
  unfold mbind at 1, stateful_bind at 1.
  pose proof (check_future_dates_frame s0) as Hfuture.
  pose proof (preserves_frame_tail (check_future_dates s0).1) as Htail.
  destruct (check_future_dates s0) as [s1 [[]|x]] eqn:E; simpl in *.
  - eexists _, _. split; [done|].
    destruct Hfuture as [[-> [[? _]|[? ?]]]|(dates & _ & ->)]; try done.
    split; [right; by exists dates|done].
  - destruct (raw_metrics_and_warnings s1) as [s2 o] eqn:E2; simpl in *.
    exists s2, o. split; [done|]. rewrite Htail.
    destruct Hfuture as [[-> [[_ Hno]|[? ?]]]|(dates & Hdates & ->)]; try done.
    + destruct Hno. apply (required_columns_present _ _ Hmissing). left.
    + split; [right; by exists dates|].
      intros _. split; [apply columns_setitem; by left|by exists dates].
  - eexists _, _. split; [done|].
    destruct Hfuture as [[-> _]|(dates & Hdates & ->)]; split; try done.
    + by left.
    + right. by exists dates.
Qed.

Lemma validate_raw_frame df validation_type :
  let df' := (validate_raw_data df validation_type).1 in
  (df' = df ∨ ∃ dates, df' = setitem "date_temp" dates df) ∧
  ((validate_raw_data df validation_type).2.1 = true →
   "date_temp" ∈ columns df' ∧
   ∃ dates, dates_of df = Return dates ∧ df' = setitem "date_temp" dates df).
Proof.
  unfold validate_raw_data.
  destruct (validate_raw_body_frame df validation_type)
    as (s & o & -> & Hframe & Hpass).
  destruct o as [[]|x]; simpl; (split; [done|]); [auto|done..].
Qed.

(** X4. [validate_raw_data] changes the frame it is given: the frame after
    the call is the frame before it or that frame with the column
    [date_temp] assigned, and after a validation that passed it is always
    the latter: the frame has the column [date_temp], holding the dates the
    check for future dates compared. *)
Theorem validate_raw_assigns_date_temp df validation_type :
  let df' := (validate_raw_data df validation_type).1 in
  (df' = df ∨ ∃ dates, df' = setitem "date_temp" dates df) ∧
  ((validate_raw_data df validation_type).2.1 = true →
   "date_temp" ∈ columns df' ∧
   ∃ dates, dates_of df = Return dates ∧ df' = setitem "date_temp" dates df).
Proof. exact (validate_raw_frame df validation_type). Qed.

(** *** The check for future dates *)

(** The frame gets through the checks that come before the check for
    future dates: it is not empty, has the required columns, passes the
    schema of the validation type and has no negative close price. *)
Definition early_checks_pass (df : DataFrame) (validation_type : option string)
    : Prop :=
  empty df = false ∧
  (∀ c, c ∈ required_columns → c ∈ columns df) ∧
  (schema ← schema_of validation_type; validate schema df) = None ∧
  Forall (λ r, lt_zero (cell_at "close" r) = Return false) (rows df).

(** A date that the check counts as a future date: a timestamp after the
    midnight that begins the day of the run. *)
Definition is_future (c : cell) : bool :=
  match c with
  | Ts t => normalize now_first <? t
  | _ => false
  end.

Lemma early_checks_reach_future_dates df validation_type :
  early_checks_pass df validation_type →
  validate_raw_body validation_type {| frame := df; report := initial_results |}
  = (check_future_dates ≫= λ returned : bool,
       if returned then mret false else raw_metrics_and_warnings)
      {| frame := df; report := initial_results |}.
Proof.
  intros (Hempty & Hreq & Hschema & Hclose).
  unfold validate_raw_body.
  unfold mbind at 1, stateful_bind at 1, get. cbn [frame report fst snd].
  rewrite Hempty.
  assert (filter (λ c, c ∉ columns df) required_columns = []) as ->.
  { induction required_columns as [|c l IH]; [done|].
    rewrite filter_cons_False by (intros Hn; apply Hn, Hreq; left).
    apply IH. intros c' Hc'. apply Hreq. by right. }
  rewrite bool_decide_true by done. cbn [negb]. rewrite Hschema.
  unfold mbind at 1, stateful_bind at 1, lift at 1.
  assert (getitem "close" df = Return (column "close" df)) as ->.
  { apply getitem_Return. split; [|done]. apply Hreq. do 2 right. left. }
  unfold mbind at 1, stateful_bind at 1, lift at 1.
  rewrite (mapM_total lt_zero (λ _, false)).
  - by rewrite existsb_id_fmap_false.
  - unfold column. by apply Forall_fmap.
Qed.

Lemma check_future_dates_run df dates res :
  "date" ∈ columns df →
  dates_of df = Return dates →
  length dates = length (rows df) →
  forallb is_datetime dates = true →
  let n := length (List.filter is_future dates) in
  let s1 := {| frame := setitem "date_temp" dates df; report := res |} in
  check_future_dates {| frame := df; report := res |}
  = if (0 <? n)%nat
    then (on_report (failed (Found_records_with_future_dates n)) s1, Return true)
    else (s1, Return false).
Proof.
  intros Hdate Hdates Hlen Hdt n s1.
  unfold check_future_dates, mbind, stateful_bind, get, lift, modify.
  cbn [frame report fst snd].
  rewrite decide_True by done.
  assert (getitem "date" df = Return (column "date" df)) as ->.
  { by apply getitem_Return. }
  unfold dates_of in Hdates. rewrite Hdates. cbn [frame report fst snd on_frame].
  assert (getitem "date_temp" (setitem "date_temp" dates df) = Return dates) as ->.
  { apply getitem_Return. split; [apply columns_setitem; by left|].
    by rewrite column_setitem. }
  rewrite (mapM_total (gt_timestamp (normalize now_first)) is_future).
  2: { apply Forall_forall. intros c Hc.
       rewrite forallb_forall in Hdt. apply list_elem_of_In, Hdt in Hc.
       by destruct c. }
  assert (length (select (rows (setitem "date_temp" dates df)) (is_future <$> dates))
          = n) as Hn.
  { apply length_select. by rewrite length_rows_setitem. }
  unfold empty. cbn [columns rows].
  destruct (0 <? n)%nat eqn:Hpos.
  - rewrite bool_decide_false; [by rewrite Hn|].
    intros [Hc|Hr].
    + assert ("date_temp" ∈ columns (setitem "date_temp" dates df)) as Hin
        by (apply columns_setitem; by left).
      rewrite Hc in Hin. by apply elem_of_nil in Hin.
    + rewrite Hr in Hn. simpl in Hn. subst n. apply Nat.ltb_lt in Hpos. lia.
  - rewrite bool_decide_true; [done|]. right.
    apply Nat.ltb_ge in Hpos. apply length_zero_iff_nil. lia.
Qed.

(** For a frame that gets through the earlier checks, with dates that
    are timestamps, one for each row: the outcome of the check for future
    dates. *)
Lemma future_dates_checked df validation_type dates :
  early_checks_pass df validation_type →
  dates_of df = Return dates →
  length dates = length (rows df) →
  forallb is_datetime dates = true →
  let n := length (List.filter is_future dates) in
  ((0 < n)%nat →
   validate_raw_data df validation_type
   = (setitem "date_temp" dates df,
      (false, failed (Found_records_with_future_dates n) initial_results))) ∧
  (n = 0%nat →
   ∀ k, Found_records_with_future_dates k
        ∉ errors (validate_raw_data df validation_type).2.2).
Proof.
  intros Hearly Hdates Hlen Hdt n.
  pose proof (early_checks_reach_future_dates _ _ Hearly) as Hbody.
  destruct Hearly as (_ & Hreq & _).
  assert ("date" ∈ columns df) as Hdate by (apply Hreq; left).
  pose proof (check_future_dates_run df dates initial_results
                Hdate Hdates Hlen Hdt) as Hrun.
  cbv zeta in Hrun. fold n in Hrun. clearbody n.
  unfold validate_raw_data. rewrite Hbody. split.
  - intros Hpos. apply Nat.ltb_lt in Hpos.
    unfold mbind at 1, stateful_bind at 1. by rewrite Hrun, Hpos.
  - intros -> k. unfold mbind at 1, stateful_bind at 1. rewrite Hrun.
    cbn [Nat.ltb Nat.leb].
    set (s1 := {| frame := setitem "date_temp" dates df;
                  report := initial_results |}).
    pose proof (raw_metrics_and_warnings_ends_well s1 eq_refl eq_refl) as Hend.
    unfold well_ended in Hend.
    destruct (raw_metrics_and_warnings s1) as [s2 [[]|x]]; simpl in *.
    + destruct Hend as [_ ->]. apply not_elem_of_nil.
    + by destruct Hend as (_ & e & _ & ?).
    + destruct Hend as [_ ->]. simpl.
      by intros [=]%list_elem_of_singleton.
Qed.

Lemma mask_all_false {A} (f : A → outcome bool) col mask :
  mapM f col = Return mask → existsb id mask = false →
  Forall (λ c, f c = Return false) col.
Proof.
  intros H%mapM_Return. induction H as [|a b col mask Hab _ IH]; simpl.
  - constructor.
  - intros [Hb Hmask]%orb_false_iff. simpl in Hb. subst b.
    constructor; [done|by apply IH].
Qed.

(** A frame that passes the validation got through the earlier checks. *)
Lemma valid_early_checks df validation_type :
  (validate_raw_data df validation_type).2.1 = true →
  early_checks_pass df validation_type.
Proof.
  unfold validate_raw_data, validate_raw_body.
  unfold mbind at 1, stateful_bind at 1, get. cbn [frame report fst snd].
  destruct (empty df) eqn:Hempty; [done|].
  destruct (bool_decide (filter (λ c, c ∉ columns df) required_columns = []))
    eqn:Hmiss; cbn [negb]; [|done].
  apply bool_decide_eq_true in Hmiss.
  destruct (schema_of validation_type ≫= _) eqn:Hschema; [done|].
  unfold mbind at 1, stateful_bind at 1, lift at 1.
  destruct (getitem "close" df) as [close|x] eqn:Hclose; [|done].
  apply getitem_Return in Hclose as [_ ->].
  unfold mbind at 1, stateful_bind at 1, lift at 1.
  destruct (mapM lt_zero (column "close" df)) as [mask|x] eqn:Hmask; [|done].
  destruct (existsb id mask) eqn:Hany; [done|].
  intros _. split_and!; [done| |done|].
  - intros c Hc. destruct (decide (c ∈ columns df)) as [|Hn]; [done|].
    assert (c ∈ filter (λ c, c ∉ columns df) required_columns) as Hin
      by (by apply list_elem_of_filter).
    rewrite Hmiss in Hin. by apply elem_of_nil in Hin.
  - pose proof (mask_all_false _ _ _ Hmask Hany) as H.
    unfold column in H. by apply Forall_fmap in H.
Qed.

(** A frame gets through the earlier checks, or the validation ends with
    the error of one of them, or with the exception one of them raised. *)
Lemma early_checks_decide df validation_type :
  early_checks_pass df validation_type ∨
  ∃ e, (validate_raw_data df validation_type).2
       = (false, failed e initial_results) ∧
       ∀ k, e ≠ Found_records_with_future_dates k.
Proof.
  unfold validate_raw_data, validate_raw_body.
  unfold mbind at 1, stateful_bind at 1, get. cbn [frame report fst snd].
  destruct (empty df) eqn:Hempty; [right; by eexists|].
  destruct (bool_decide (filter (λ c, c ∉ columns df) required_columns = []))
    eqn:Hmiss; cbn [negb]; [|right; by eexists].
  apply bool_decide_eq_true in Hmiss.
  destruct (schema_of validation_type ≫= _) eqn:Hschema; [right; by eexists|].
  unfold mbind at 1, stateful_bind at 1, lift at 1.
  destruct (getitem "close" df) as [close|x] eqn:Hclose; [|right; by eexists].
  apply getitem_Return in Hclose as [_ ->].
  unfold mbind at 1, stateful_bind at 1, lift at 1.
  destruct (mapM lt_zero (column "close" df)) as [mask|x] eqn:Hmask;
    [|right; by eexists].
  destruct (existsb id mask) eqn:Hany; [right; by eexists|].
  left. split_and!; [done| |done|].
  - intros c Hc. destruct (decide (c ∈ columns df)) as [|Hn]; [done|].
    assert (c ∈ filter (λ c, c ∉ columns df) required_columns) as Hin
      by (by apply list_elem_of_filter).
    rewrite Hmiss in Hin. by apply elem_of_nil in Hin.
  - pose proof (mask_all_false _ _ _ Hmask Hany) as H.
    unfold column in H. by apply Forall_fmap in H.
Qed.

(** C6 (amended). [validate_raw_data] has the check for future dates:
    with dates that are timestamps, one for each row, a table in which
    [n > 0] dates lie after the midnight that begins the day of the run does
    not pass, and its report has an error; a table in which no date lies
    after that midnight gets no error about future dates.  When the table
    gets through the earlier checks, the error is that [n] records have
    future dates, and the frame has been assigned [date_temp].  A timestamp
    later on the day of the run counts as a future date; one at that midnight
    or before does not.  The check is part of [validate_raw_data] only:
    [validate_transformed_data] compares no date with the day of the run. *)
Theorem raw_future_dates df validation_type dates :
  dates_of df = Return dates →
  length dates = length (rows df) →
  forallb is_datetime dates = true →
  let n := length (List.filter is_future dates) in
  let res := (validate_raw_data df validation_type).2 in
  ((0 < n)%nat → res.1 = false ∧ passed res.2 = false ∧ errors res.2 ≠ []) ∧
  (n = 0%nat → ∀ k, Found_records_with_future_dates k ∉ errors res.2) ∧
  (early_checks_pass df validation_type → (0 < n)%nat →
   validate_raw_data df validation_type
   = (setitem "date_temp" dates df,
      (false, failed (Found_records_with_future_dates n) initial_results))).
Proof.
  intros Hdates Hlen Hdt n res. split_and!.
  - intros Hn.
    assert (res.1 = false) as Hf.
    { destruct (res.1) eqn:E; [|done]. exfalso.
      pose proof (valid_early_checks _ _ E) as Hearly.
      destruct (future_dates_checked df validation_type dates Hearly Hdates
                  Hlen Hdt) as [H _].
      specialize (H Hn). subst res. rewrite H in E. discriminate E. }
    destruct (validate_raw_shape df validation_type) as [Hp He].
    cbv zeta in Hp, He. fold res in Hp, He. rewrite Hf in Hp, He.
    split_and!; [done..|]. destruct He as (e & -> & _). done.
  - intros Hn.
    destruct (early_checks_decide df validation_type)
      as [Hearly|(e & He & Hne)].
    + by apply (future_dates_checked df validation_type dates Hearly Hdates
                  Hlen Hdt).
    + intros k. subst res. rewrite He. simpl.
      intros Hk%list_elem_of_singleton. by apply (Hne k).
  - intros Hearly.
    by apply (future_dates_checked df validation_type dates Hearly Hdates
                Hlen Hdt).
Qed.

End validate_raw_data.

(** ** Tables that conform to a schema *)

(** Membership of a label in a list of labels that is written out. *)
Ltac in_list :=
  solve [unfold get_transformed_data_schema, transformed_columns;
         repeat first [by left|right]].

Lemma dtype_of_float64 col :
  dtype_of col = float64 → col ≠ [] ∧ forallb is_float col = true.
Proof.
  unfold dtype_of. destruct col as [|c col]; [done|].
  destruct (forallb is_float (c :: col)); [done|].
  destruct (forallb is_int (c :: col)); [done|].
  by destruct (forallb is_datetime (c :: col)).
Qed.

Lemma dtype_of_int64 col :
  dtype_of col = int64 → col ≠ [] ∧ forallb is_int col = true.
Proof.
  unfold dtype_of. destruct col as [|c col]; [done|].
  destruct (forallb is_float (c :: col)); [done|].
  destruct (forallb is_int (c :: col)); [done|].
  by destruct (forallb is_datetime (c :: col)).
Qed.

Lemma validate_None schema df :
  validate schema df = None ↔
  ∀ c col, (c, col) ∈ schema → c ∈ columns df ∧ check_column df c col = None.
Proof.
  unfold validate.
  destruct (list_find _ schema) as [[i [c col]]|] eqn:Hfind.
  - split; [done|]. intros H. apply list_find_Some in Hfind as (Hi & Hc & _).
    destruct (H c col) as [Hin _]; [by eapply list_elem_of_lookup_2|]. done.
  - apply list_find_None in Hfind. rewrite Forall_forall in Hfind.
    split.
    + intros Hhead c col Hin. split.
      * specialize (Hfind _ Hin). simpl in Hfind. by apply dec_stable in Hfind.
      * destruct (check_column df c col) as [e|] eqn:E; [|done].
        assert (e ∈ omap (λ p : string * Column, check_column df p.1 p.2) schema)
          as He.
        { apply list_elem_of_omap. by exists (c, col). }
        destruct (omap _ schema); [by apply elem_of_nil in He|done].
    + intros H.
      assert (omap (λ p : string * Column, check_column df p.1 p.2) schema = [])
        as ->; [|done].
      clear Hfind. induction schema as [|[c col] schema IH]; [done|].
      simpl. destruct (H c col) as [_ ->]; [left|].
      apply IH. intros c' col' Hin. apply H. by right.
Qed.

Lemma check_column_None df c col :
  check_column df c col = None →
  dtype_of (column c df) = numpy_dtype (col_dtype col) ∧
  (nullable col = false → existsb isna (column c df) = false).
Proof.
  unfold check_column.
  destruct (negb (nullable col) && existsb isna (column c df)) eqn:Hnull; [done|].
  destruct (decide _) as [Hd|]; [|done]. intros _. split; [done|].
  intros Hn. rewrite Hn in Hnull. done.
Qed.

(** What a table that passes the schema of the transformed data is made
    of. *)
Lemma transformed_schema_columns df :
  validate get_transformed_data_schema df = None →
  (∀ c, c ∈ transformed_columns → c ∈ columns df) ∧
  rows df ≠ [] ∧
  (∀ c, c ∈ ["open"; "high"; "low"; "close"; "daily_change_pct";
             "daily_volatility"] → forallb is_float (column c df) = true) ∧
  forallb is_int (column "volume" df) = true.
Proof.
  intros H. pose proof (proj1 (validate_None _ _) H) as Hall. clear H.
  assert (∀ c t n, (c, pa_Column t n) ∈ get_transformed_data_schema →
            c ∈ columns df ∧ dtype_of (column c df) = numpy_dtype t) as Hcol.
  { intros c t n Hin. destruct (Hall _ _ Hin) as [Hc Hcheck].
    by apply check_column_None in Hcheck as [? _]. }
  assert (∀ c, c ∈ ["open"; "high"; "low"; "close"; "daily_change_pct";
                    "daily_volatility"] →
            column c df ≠ [] ∧ forallb is_float (column c df) = true) as Hfloat.
  { intros c Hc. rewrite !elem_of_cons, elem_of_nil in Hc.
    destruct Hc as [->|[->|[->|[->|[->|[->|[]]]]]]];
      match goal with
      | |- context [column ?c df] =>
          first [destruct (Hcol c pa_Float true) as [_ Hd]; [in_list|]
                |destruct (Hcol c pa_Float false) as [_ Hd]; [in_list|]];
          by apply dtype_of_float64 in Hd
      end. }
  split_and!.
  - intros c Hc. unfold transformed_columns in Hc.
    rewrite !elem_of_cons, elem_of_nil in Hc.
    destruct Hc as [->|[->|[->|[->|[->|[->|[->|[->|[->|[->|[->|[]]]]]]]]]]]];
      match goal with
      | |- ?c ∈ columns df =>
          first [destruct (Hcol c pa_String false) as [Hc _]; [in_list|]
                |destruct (Hcol c pa_Float true) as [Hc _]; [in_list|]
                |destruct (Hcol c pa_Float false) as [Hc _]; [in_list|]
                |destruct (Hcol c pa_Int true) as [Hc _]; [in_list|]];
          done
      end.
  - destruct (Hfloat "close") as [Hne _]; [in_list|].
    intros Hr. apply Hne. unfold column. by rewrite Hr.
  - intros c Hc. by apply Hfloat.
  - destruct (Hcol "volume" pa_Int true) as [_ Hd].
    + in_list.
    + simpl in Hd. by apply dtype_of_int64 in Hd as [_ ?].
Qed.

(** ** The warnings of the checks

    On a table that conforms to the schema no check raises: each check
    appends the warnings that a function of the table gives. *)

Definition add_warnings (ws : list warning) (res : validation_results)
    : validation_results :=
  {| passed := passed res; errors := errors res;
     warnings := warnings res ++ ws; metrics := metrics res |}.

(** A step that returns after appending the warnings [ws]. *)
Definition appends (m : V ()) (ws : list warning) : Prop :=
  ∀ s, m s = (add_warnings ws s, Return ()).

Lemma add_warnings_nil res : add_warnings [] res = res.
Proof. destruct res. unfold add_warnings; simpl. by rewrite app_nil_r. Qed.

Lemma add_warnings_app ws1 ws2 res :
  add_warnings ws2 (add_warnings ws1 res) = add_warnings (ws1 ++ ws2) res.
Proof. unfold add_warnings; simpl. by rewrite app_assoc. Qed.

Lemma appends_ret : appends (mret ()) [].
Proof. intros s. by rewrite add_warnings_nil. Qed.

Lemma appends_warn w : appends (modify (warn w)) [w].
Proof. by intros s. Qed.

Lemma appends_bind (m1 : V ()) (m2 : () → V ()) ws1 ws2 :
  appends m1 ws1 → appends (m2 ()) ws2 → appends (m1 ≫= m2) (ws1 ++ ws2).
Proof.
  intros H1 H2 s. unfold mbind, stateful_bind. rewrite H1, H2.
  by rewrite add_warnings_app.
Qed.

Lemma appends_lift {A} (o : outcome A) a (k : A → V ()) ws :
  o = Return a → appends (k a) ws → appends (lift o ≫= k) ws.
Proof. intros -> Hk s. unfold mbind, stateful_bind, lift. apply Hk. Qed.

Lemma appends_when (cond : bool) m ws :
  appends m ws → appends (when cond m) (if cond then ws else []).
Proof. intros Hm. destruct cond; [done|apply appends_ret]. Qed.

Lemma appends_for_each {A} (l : list A) (body : A → V ())
    (f : A → list warning) :
  (∀ x, x ∈ l → appends (body x) (f x)) →
  appends (for_each l body) (l ≫= f).
Proof.
  induction l as [|x l IH]; intros Hbody; [apply appends_ret|].
  simpl. apply appends_bind; [apply Hbody; left|].
  apply IH. intros y Hy. apply Hbody. by right.
Qed.

(** The value of a comparison that does not raise. *)
Definition exceeds (bound : Z) (c : cell) : bool :=
  match gt_number bound c with
  | Return b => b
  | Raise _ => false
  end.

(** The warning of a check of a column against a threshold. *)
Definition high_value (bound : Z) (w : cell → warning) (col : list cell)
    : list warning :=
  match series_max col with
  | Return v => if exceeds bound v then [w v] else []
  | Raise _ => []
  end.

Definition high_volatility (df : DataFrame) : list warning :=
  let n := length (List.filter (exceeds 20) (column "daily_volatility" df)) in
  if (0 <? n)%nat then [Found_records_with_high_volatility n] else [].

Definition duplicate_records (subset : list string) (df : DataFrame)
    : list warning :=
  let n := count_true (duplicated (subset_key subset) (rows df)) in
  if (0 <? n)%nat then [Found_duplicate_records n] else [].

(** A close price as a float. *)
Definition number (c : cell) : float :=
  match to_numeric c with
  | Return x => x
  | Raise _ => nan
  end.

(** The spread of the close prices of a group of rows, in per cent. *)
Definition spread (group : list row) : float :=
  match max_diff_pct ((λ r, number (cell_at "close" r)) <$> group) with
  | Return pct => pct
  | Raise _ => nan
  end.

Definition date_warnings (symbol : cell) (symbol_data : list row) (date : cell)
    : list warning :=
  let date_data := rows_where "date" date symbol_data in
  if (1 <? length date_data)%nat && PrimFloat.ltb 5%float (spread date_data)
  then [Price_inconsistency symbol date (spread date_data)]
  else [].

Definition symbol_warnings (df : DataFrame) (symbol : cell) : list warning :=
  let symbol_data := rows_where "symbol" symbol (rows df) in
  series_unique (cell_at "date" <$> symbol_data)
    ≫= date_warnings symbol symbol_data.

Definition consistency_warnings (df : DataFrame) : list warning :=
  if (1 <? series_nunique (column "data_source" df))%nat
  then series_unique (column "symbol" df) ≫= symbol_warnings df
  else [].

Lemma foldl_choice (f : cell → cell → cell) x l :
  (∀ a b, f a b = a ∨ f a b = b) → foldl f x l ∈ x :: l.
Proof.
  intros Hf. revert x. induction l as [|y l IH]; intros x; simpl; [left|].
  destruct (Hf x y) as [E|E]; rewrite E.
  - pose proof (IH x) as Hx. apply elem_of_cons in Hx as [E'|Hin].
    + rewrite E'. left.
    + right. by right.
  - right. apply IH.
Qed.

Lemma series_max_numeric col :
  forallb is_numeric col = true →
  ∃ v, series_max col = Return v ∧ is_numeric v = true.
Proof.
  intros Hnum. unfold series_max, reduce, reducible. rewrite Hnum. simpl.
  destruct (List.filter (λ c, negb (isna c)) col) as [|x l] eqn:Hf.
  - exists (na_of col). split; [done|].
    destruct col as [|[] col]; simpl in *; done.
  - exists (foldl cell_max x l). split; [done|].
    assert (foldl cell_max x l ∈ x :: l) as Hin.
    { apply foldl_choice. intros a b. unfold cell_max.
      destruct (cell_leb a b); auto. }
    rewrite <- Hf in Hin. apply list_elem_of_In, filter_In in Hin as [Hin _].
    rewrite forallb_forall in Hnum. by apply Hnum.
Qed.

Lemma gt_number_numeric bound v :
  is_numeric v = true → gt_number bound v = Return (exceeds bound v).
Proof. unfold exceeds. by destruct v. Qed.

Lemma check_max_appends c bound w df :
  c ∈ columns df → forallb is_numeric (column c df) = true →
  appends (check_max c bound w df) (high_value bound w (column c df)).
Proof.
  intros Hc Hnum. unfold check_max, high_value.
  destruct (series_max_numeric _ Hnum) as (v & Hv & Hnv).
  eapply appends_lift; [by apply getitem_Return|].
  eapply appends_lift; [exact Hv|]. rewrite Hv.
  eapply appends_lift; [by apply gt_number_numeric|].
  apply appends_when, appends_warn.
Qed.

Lemma check_volatility_appends df :
  "daily_volatility" ∈ columns df →
  forallb is_numeric (column "daily_volatility" df) = true →
  appends (check_volatility df) (high_volatility df).
Proof.
  intros Hc Hnum. unfold check_volatility, high_volatility.
  eapply appends_lift; [by apply getitem_Return|].
  eapply appends_lift.
  { apply (mapM_total _ (exceeds 20)), Forall_forall. intros v Hv.
    apply gt_number_numeric. rewrite forallb_forall in Hnum.
    by apply Hnum, list_elem_of_In. }
  assert (length (select (rows df) (exceeds 20 <$> column "daily_volatility" df))
          = length (List.filter (exceeds 20) (column "daily_volatility" df)))
    as Hlen.
  { apply length_select. unfold column. by rewrite length_fmap. }
  cbn [rows]. rewrite Hlen.
  set (n := length (List.filter _ _)) in *.
  assert (negb (empty {| columns := columns df;
                         rows := select (rows df)
                                   (exceeds 20 <$> column "daily_volatility" df) |})
          = (0 <? n)%nat) as ->.
  { unfold empty; simpl. destruct (0 <? n)%nat eqn:Hpos.
    - rewrite bool_decide_false; [done|]. intros [Hcols|Hrows].
      + rewrite Hcols in Hc. by apply elem_of_nil in Hc.
      + rewrite Hrows in Hlen. simpl in Hlen. apply Nat.ltb_lt in Hpos. lia.
    - rewrite bool_decide_true; [done|]. right.
      apply Nat.ltb_ge in Hpos. apply length_zero_iff_nil. lia. }
  apply appends_when, appends_warn.
Qed.

Lemma check_duplicates_appends subset df :
  (∀ c, c ∈ subset → c ∈ columns df) →
  appends (check_duplicates subset df) (duplicate_records subset df).
Proof.
  intros Hcols. unfold check_duplicates, duplicate_records.
  eapply appends_lift.
  { unfold frame_duplicated.
    by rewrite (proj2 (require_Return subset df) Hcols). }
  apply appends_when, appends_warn.
Qed.

Lemma max_diff_pct_Return l : l ≠ [] → ∃ pct, max_diff_pct l = Return pct.
Proof. destruct l as [|x l]; [done|]. intros _. by eexists. Qed.

Lemma check_date_appends symbol symbol_data date :
  Forall (λ r, is_numeric (cell_at "close" r) = true) symbol_data →
  appends (check_date symbol symbol_data date)
          (date_warnings symbol symbol_data date).
Proof.
  intros Hnum. unfold check_date, date_warnings.
  set (date_data := rows_where "date" date symbol_data).
  destruct (1 <? length date_data)%nat eqn:Hlen; [|apply appends_ret].
  simpl.
  assert (mapM to_numeric (cell_at "close" <$> date_data)
          = Return ((λ r, number (cell_at "close" r)) <$> date_data)) as Hclose.
  { rewrite (mapM_total to_numeric number).
    - by rewrite <- list_fmap_compose.
    - apply Forall_fmap, Forall_forall. intros r Hr. simpl.
      assert (is_numeric (cell_at "close" r) = true) as Hn.
      { rewrite Forall_forall in Hnum. apply Hnum.
        unfold date_data, rows_where in Hr.
        by apply list_elem_of_In, filter_In in Hr as [?%list_elem_of_In _]. }
      unfold number. by destruct (cell_at "close" r). }
  eapply appends_lift; [exact Hclose|].
  destruct (max_diff_pct_Return ((λ r, number (cell_at "close" r)) <$> date_data))
    as [pct Hpct].
  { destruct date_data; [done|]. done. }
  eapply appends_lift; [exact Hpct|].
  unfold spread. rewrite Hpct.
  apply appends_when, appends_warn.
Qed.

Lemma check_consistency_appends df :
  "data_source" ∈ columns df → "symbol" ∈ columns df →
  forallb is_numeric (column "close" df) = true →
  appends (check_consistency df) (consistency_warnings df).
Proof.
  intros Hsource Hsymbol Hnum. unfold check_consistency, consistency_warnings.
  eapply appends_lift; [by apply getitem_Return|].
  apply appends_when.
  eapply appends_lift; [by apply getitem_Return|].
  apply appends_for_each. intros symbol _. unfold check_symbol, symbol_warnings.
  apply appends_for_each. intros date _. apply check_date_appends.
  apply Forall_forall. intros r Hr.
  unfold rows_where in Hr.
  apply list_elem_of_In, filter_In in Hr as [Hr%list_elem_of_In _].
  rewrite forallb_forall in Hnum. apply Hnum, list_elem_of_In.
  unfold column. apply list_elem_of_fmap. by exists r.
Qed.

Lemma reduce_Return f col :
  reducible col = true → ∃ v, reduce f col = Return v.
Proof.
  intros H. unfold reduce. rewrite H.
  destruct (List.filter _ col); by eexists.
Qed.

Lemma transformed_metrics_Return df :
  "symbol" ∈ columns df → "date" ∈ columns df → "data_source" ∈ columns df →
  reducible (column "date" df) = true →
  ∃ m, transformed_metrics df = Return m.
Proof.
  intros Hsymbol Hdate Hsource Hred. unfold transformed_metrics.
  rewrite (proj2 (getitem_Return "symbol" df _) (conj Hsymbol eq_refl)).
  rewrite (proj2 (getitem_Return "date" df _) (conj Hdate eq_refl)).
  rewrite (proj2 (getitem_Return "data_source" df _) (conj Hsource eq_refl)).
  simpl.
  destruct (reduce_Return cell_min _ Hred) as [lo Hlo].
  destruct (reduce_Return cell_max _ Hred) as [hi Hhi].
  unfold series_min, series_max. rewrite Hlo. simpl. rewrite Hhi. simpl.
  by eexists.
Qed.

(** The warnings [validate_transformed_data] gives for a table on which no
    check raises, in the order of the checks. *)
Definition transformed_warnings (df : DataFrame) : list warning :=
  high_value 10000 Found_unusually_high_price (column "close" df) ++
  high_value 1000000000 Found_unusually_high_volume (column "volume" df) ++
  high_volatility df ++
  duplicate_records ["date"; "symbol"; "data_source"] df ++
  consistency_warnings df.

(** A table that conforms to the schema, with dates that [min()] and
    [max()] can order and without a negative close price, passes, with
    these warnings. *)
Lemma validate_transformed_conforming df :
  validate get_transformed_data_schema df = None →
  reducible (column "date" df) = true →
  Forall (λ r, lt_zero (cell_at "close" r) = Return false) (rows df) →
  ∃ m, validate_transformed_data df
       = (true, {| passed := true; errors := [];
                   warnings := transformed_warnings df; metrics := m |}).
Proof.
  intros Hschema Hdates Hclose.
  destruct (transformed_schema_columns _ Hschema) as (Hcols & _ & Hfloat & Hint).
  assert (∀ c, c ∈ ["open"; "high"; "low"; "close"; "daily_change_pct";
                    "daily_volatility"] →
            forallb is_numeric (column c df) = true) as Hnum.
  { intros c Hc. specialize (Hfloat c Hc). rewrite forallb_forall in Hfloat |- *.
    intros v Hv. unfold is_numeric. by rewrite Hfloat. }
  assert (forallb is_numeric (column "volume" df) = true) as Hvolume.
  { rewrite forallb_forall in Hint |- *.
    intros v Hv. unfold is_numeric. rewrite Hint by done. by destruct (is_float v). }
  destruct (transformed_metrics_Return df) as [m Hm]; [by apply Hcols; in_list..|done|].
  exists m.
  unfold validate_transformed_data, validate_transformed_body. rewrite Hschema.
  unfold mbind at 1, stateful_bind at 1, lift at 1.
  rewrite (proj2 (getitem_Return "close" df _)) by (split; [apply Hcols; in_list|done]).
  unfold mbind at 1, stateful_bind at 1, lift at 1.
  rewrite (mapM_total lt_zero (λ _, false)) by (unfold column; by apply Forall_fmap).
  rewrite existsb_id_fmap_false.
  unfold mbind at 1, stateful_bind at 1.
  rewrite (check_max_appends "close" 10000 Found_unusually_high_price df)
    by (first [apply Hcols; in_list|apply Hnum; in_list]).
  unfold mbind at 1, stateful_bind at 1.
  rewrite decide_True by (apply Hcols; in_list).
  rewrite (check_max_appends "volume" 1000000000 Found_unusually_high_volume df)
    by (first [apply Hcols; in_list|done]).
  unfold mbind at 1, stateful_bind at 1.
  rewrite decide_True by (apply Hcols; in_list).
  rewrite (check_volatility_appends df)
    by (first [apply Hcols; in_list|apply Hnum; in_list]).
  unfold mbind at 1, stateful_bind at 1, lift at 1. rewrite Hm.
  unfold mbind at 1, stateful_bind at 1, modify at 1.
  unfold mbind at 1, stateful_bind at 1.
  rewrite (check_duplicates_appends ["date"; "symbol"; "data_source"] df).
  2: { intros c Hc. apply Hcols. rewrite !elem_of_cons, elem_of_nil in Hc.
       destruct Hc as [->|[->|[->|[]]]]; in_list. }
  unfold mbind at 1, stateful_bind at 1.
  rewrite (check_consistency_appends df)
    by (first [apply Hcols; in_list|apply Hnum; in_list]).
  unfold return_passed, mbind, stateful_bind, get, initial_results,
    add_warnings, set_metrics, transformed_warnings. simpl.
  by rewrite <- !app_assoc.
Qed.

(** ** What decides the validation of a conforming table *)

Lemma is_str_reducible col : forallb is_str col = true → reducible col = true.
Proof. intros H. unfold reducible. rewrite H. by rewrite orb_true_r. Qed.

(** X5. For a table that conforms to the schema of the transformed data
    and whose dates are text, the close prices alone decide: the validation
    passes if and only if no close price is negative.  No warning makes it
    fail, and no check raises. *)
Theorem conforming_table_passes_iff df :
  validate get_transformed_data_schema df = None →
  forallb is_str (column "date" df) = true →
  ((validate_transformed_data df).1 = true ↔
   ∀ r, r ∈ rows df → lt_zero (cell_at "close" r) = Return false) ∧
  ((validate_transformed_data df).1 = true →
   (validate_transformed_data df).2
   = {| passed := true; errors := []; warnings := transformed_warnings df;
        metrics := metrics (validate_transformed_data df).2 |}).
Proof.
  intros Hschema Hdates. apply is_str_reducible in Hdates.
  destruct (transformed_schema_columns _ Hschema) as (_ & _ & Hfloat & _).
  assert (∀ r, r ∈ rows df →
            lt_zero (cell_at "close" r) = Return true ∨
            lt_zero (cell_at "close" r) = Return false) as Hcases.
  { intros r Hr. specialize (Hfloat "close"). rewrite forallb_forall in Hfloat.
    assert (is_float (cell_at "close" r) = true) as Hf.
    { apply Hfloat; [in_list|]. apply list_elem_of_In. unfold column.
      apply list_elem_of_fmap. by exists r. }
    destruct (cell_at "close" r); try done. simpl.
    destruct (PrimFloat.ltb f 0); auto. }
  split.
  - split.
    + intros Hvalid r Hr. destruct (Hcases r Hr) as [Hneg|]; [|done].
      rewrite (negative_close_not_valid df r Hr Hneg) in Hvalid. done.
    + intros Hclose.
      destruct (validate_transformed_conforming df Hschema Hdates) as [m ->];
        [by apply Forall_forall|done].
  - intros Hvalid.
    destruct (validate_transformed_conforming df Hschema Hdates) as [m Hm].
    + apply Forall_forall. intros r Hr.
      destruct (Hcases r Hr) as [Hneg|]; [|done].
      rewrite (negative_close_not_valid df r Hr Hneg) in Hvalid. done.
    + by rewrite Hm.
Qed.

(** ** The check for consistency across sources *)

Lemma value_of_Str c s : value_of c = VStr s → c = Str s.
Proof.
  destruct c as [s'|f| | |]; simpl; try done; [by intros [= ->]|].
  by destruct (Prim2SF f).
Qed.

Lemma cell_eqb_Str c s : cell_eqb c (Str s) = bool_decide (c = Str s).
Proof.
  unfold cell_eqb. destruct (decide (c = Str s)) as [->|Hne].
  - simpl. by rewrite !bool_decide_true.
  - rewrite (bool_decide_false (c = Str s)) by done.
    rewrite (bool_decide_false (value_of c = _)).
    + by rewrite andb_false_r.
    + intros H. by apply value_of_Str in H.
Qed.

Lemma Str_in_series_unique col s : Str s ∈ series_unique col ↔ Str s ∈ col.
Proof.
  unfold series_unique. split; [apply elem_of_drop_duplicates|].
  intros Hin. destruct (drop_duplicates_keys value_of _ _ Hin) as (y & Hy & Hk).
  simpl in Hk. apply value_of_Str in Hk. by subst.
Qed.

Lemma NoDup_series_unique col : NoDup (series_unique col).
Proof.
  eapply NoDup_fmap_1. apply (drop_duplicates_NoDup_keys value_of).
Qed.

Lemma rows_where_absent c s (l : list row) :
  Str s ∉ cell_at c <$> l → rows_where c (Str s) l = [].
Proof.
  intros Hn. unfold rows_where. induction l as [|r l IH]; [done|].
  simpl. rewrite cell_eqb_Str.
  rewrite bool_decide_false.
  - apply IH. intros H. apply Hn. rewrite fmap_cons. by right.
  - intros H. apply Hn. rewrite fmap_cons, H. left.
Qed.

(** Of the warnings a loop appends, those that one item of the loop can
    give: the items of the loop are distinct. *)
Lemma filter_bind_single {A B} `{EqDecision A} (p : B → bool) (f : A → list B)
    (l : list A) x0 :
  NoDup l →
  (∀ x, x ∈ l → x ≠ x0 → List.filter p (f x) = []) →
  List.filter p (l ≫= f) = if decide (x0 ∈ l) then List.filter p (f x0) else [].
Proof.
  induction 1 as [|x l Hx Hnd IH]; intros Hother; [done|].
  rewrite bind_cons, List.filter_app.
  destruct (decide (x = x0)) as [->|Hne].
  - rewrite decide_True by left.
    assert (List.filter p (l ≫= f) = []) as ->; [|by rewrite app_nil_r].
    rewrite IH.
    + by rewrite decide_False.
    + intros y Hy Hne. apply Hother; [by right|done].
  - rewrite Hother by (done || left). simpl. rewrite IH.
    + apply decide_ext. rewrite elem_of_cons. split; [auto|by intros [?|?]].
    + intros y Hy Hne'. apply Hother; [by right|done].
Qed.

(** The warnings of the check that name the symbol [s] and the date [d]. *)
Definition names (s d : string) (w : warning) : bool :=
  match w with
  | Price_inconsistency symbol date _ =>
      bool_decide (symbol = Str s ∧ date = Str d)
  | _ => false
  end.

Lemma names_date_warnings s d symbol symbol_data date :
  (symbol, date) ≠ (Str s, Str d) →
  List.filter (names s d) (date_warnings symbol symbol_data date) = [].
Proof.
  intros Hne. unfold date_warnings. destruct (_ && _); [|done]. simpl.
  rewrite bool_decide_false; [done|]. intros [-> ->]. done.
Qed.

Lemma names_symbol_warnings s d df :
  List.filter (names s d) (symbol_warnings df (Str s))
  = date_warnings (Str s) (rows_where "symbol" (Str s) (rows df)) (Str d).
Proof.
  unfold symbol_warnings.
  set (symbol_data := rows_where "symbol" (Str s) (rows df)).
  rewrite (filter_bind_single _ _ _ (Str d)).
  - destruct (decide (Str d ∈ series_unique (cell_at "date" <$> symbol_data)))
      as [Hin|Hn].
    + unfold date_warnings. destruct (_ && _); [|done]. simpl.
      by rewrite bool_decide_true.
    + rewrite Str_in_series_unique in Hn.
      unfold date_warnings. by rewrite (rows_where_absent _ _ _ Hn).
  - apply NoDup_series_unique.
  - intros date _ Hne. apply names_date_warnings. congruence.
Qed.

Lemma names_consistency_warnings s d df :
  List.filter (names s d) (consistency_warnings df)
  = if (1 <? series_nunique (column "data_source" df))%nat
    then date_warnings (Str s) (rows_where "symbol" (Str s) (rows df)) (Str d)
    else [].
Proof.
  unfold consistency_warnings. destruct (1 <? _)%nat; [|done].
  rewrite (filter_bind_single _ _ _ (Str s)).
  - destruct (decide (Str s ∈ series_unique (column "symbol" df))) as [Hin|Hn].
    + apply names_symbol_warnings.
    + rewrite Str_in_series_unique in Hn. unfold column in Hn.
      unfold date_warnings. rewrite (rows_where_absent _ _ _ Hn). done.
  - apply NoDup_series_unique.
  - intros symbol _ Hne. unfold symbol_warnings.
    induction (series_unique _) as [|date l IH]; [done|].
    rewrite bind_cons, List.filter_app, IH, app_nil_r.
    apply names_date_warnings. congruence.
Qed.

Lemma names_other_warnings s d df :
  List.filter (names s d)
    (high_value 10000 Found_unusually_high_price (column "close" df) ++
     high_value 1000000000 Found_unusually_high_volume (column "volume" df) ++
     high_volatility df ++
     duplicate_records ["date"; "symbol"; "data_source"] df) = [].
Proof.
  rewrite !List.filter_app. unfold high_value, high_volatility, duplicate_records.
  destruct (series_max (column "close" df)) as [v1|]; [destruct (exceeds _ v1)|];
    destruct (series_max (column "volume" df)) as [v2|];
    try destruct (exceeds _ v2);
    destruct (0 <? _)%nat; destruct (0 <? _)%nat; done.
Qed.


(** ** The check for duplicate records *)

Lemma duplicated_from_NoDup {A K} `{EqDecision K} (key_of : A → K) seen l :
  NoDup (key_of <$> l) → (∀ x, x ∈ l → key_of x ∉ seen) →
  duplicated_from key_of seen l = (λ _, false) <$> l.
Proof.
  revert seen. induction l as [|x l IH]; intros seen Hnd Hseen; [done|].
  rewrite fmap_cons in Hnd. apply NoDup_cons in Hnd as [Hx Hnd]. simpl.
  rewrite decide_False by (apply Hseen; left). f_equal.
  apply IH; [done|]. intros y Hy [E|Hin]%elem_of_cons.
  - apply Hx. rewrite <- E. apply list_elem_of_fmap. by exists y.
  - by apply (Hseen y); [right|].
Qed.

Lemma count_true_all_false {A} (l : list A) :
  count_true ((λ _, false) <$> l) = 0%nat.
Proof. unfold count_true. by induction l. Qed.

Lemma duplicated_NoDup {A K} `{EqDecision K} (key_of : A → K) l :
  NoDup (key_of <$> l) → count_true (duplicated key_of l) = 0%nat.
Proof.
  intros Hnd. unfold duplicated.
  rewrite duplicated_from_NoDup; [apply count_true_all_false|done|].
  intros x _. apply not_elem_of_nil.
Qed.

(** The rows marked as duplicates are the rows that [drop_duplicates]
    drops. *)
Lemma count_duplicated_from {A K} `{EqDecision K} (key_of : A → K) seen l :
  (count_true (duplicated_from key_of seen l) + length (dedup_from key_of seen l)
   = length l)%nat.
Proof.
  revert seen. induction l as [|x l IH]; intros seen; [done|].
  rewrite dedup_from_cons. simpl.
  destruct (decide (key_of x ∈ seen)); unfold count_true in *; simpl.
  - specialize (IH seen). lia.
  - specialize (IH (key_of x :: seen)). lia.
Qed.


Definition no_duplicate_warning (res : validation_results) : Prop :=
  ∀ n, Found_duplicate_records n ∉ warnings res.

Lemma keeps_warn w :
  (∀ n, w ≠ Found_duplicate_records n) →
  keeps no_duplicate_warning (modify (warn w)).
Proof.
  intros Hw. apply keeps_modify. intros s Hs n. simpl.
  rewrite elem_of_app, list_elem_of_singleton. intros [?|?]; [by eapply Hs|].
  by eapply Hw.
Qed.

Lemma keeps_fail e : keeps no_duplicate_warning (fail e).
Proof.
  unfold fail. apply keeps_bind; [|intros _; apply keeps_ret].
  apply keeps_modify. by intros s Hs.
Qed.

Lemma validate_transformed_body_no_duplicate df :
  count_true (duplicated (subset_key ["date"; "symbol"; "data_source"]) (rows df))
    = 0%nat →
  keeps no_duplicate_warning (validate_transformed_body df).
Proof.
  intros Hcount. unfold validate_transformed_body.
  destruct (validate get_transformed_data_schema df); [apply keeps_fail|].
  apply keeps_bind; [apply keeps_lift|intros close].
  apply keeps_bind; [apply keeps_lift|intros negative].
  destruct (existsb id negative); [apply keeps_fail|].
  assert (∀ c bound w, (∀ v n, w v ≠ Found_duplicate_records n) →
            keeps no_duplicate_warning (check_max c bound w df)) as Hmax.
  { intros c bound w Hw. unfold check_max.
    repeat (apply keeps_bind; [apply keeps_lift|intros ?]).
    by apply keeps_when, keeps_warn. }
  apply keeps_bind; [by apply Hmax|intros _].
  apply keeps_bind; [apply keeps_if; [by apply Hmax|apply keeps_ret]|intros _].
  apply keeps_bind.
  { apply keeps_if; [|apply keeps_ret]. unfold check_volatility.
    repeat (apply keeps_bind; [apply keeps_lift|intros ?]).
    by apply keeps_when, keeps_warn. }
  intros _. apply keeps_bind; [apply keeps_lift|intros m].
  apply keeps_bind; [apply keeps_modify; by intros s Hs|intros _].
  apply keeps_bind.
  { unfold check_duplicates, frame_duplicated.
    destruct (require _ df); simpl.
    - unfold mbind, stateful_bind, lift. rewrite Hcount. apply keeps_ret.
    - by intros s Hs. }
  intros _. apply keeps_bind; [|intros _; unfold return_passed;
    apply keeps_bind; [apply keeps_get|intros ?; apply keeps_ret]].
  unfold check_consistency. apply keeps_bind; [apply keeps_lift|intros ?].
  apply keeps_when. apply keeps_bind; [apply keeps_lift|intros ?].
  apply keeps_for_each. intros symbol. unfold check_symbol.
  apply keeps_for_each. intros date. unfold check_date.
  apply keeps_when.
  repeat (apply keeps_bind; [apply keeps_lift|intros ?]).
  by apply keeps_when, keeps_warn.
Qed.

(** X6. A table in which no two rows share a business key (date, symbol,
    data source) gets no warning about duplicate records from
    [validate_transformed_data], whatever else the report says and
    wherever the validation ends. *)
Theorem unique_keys_no_duplicate_warning df :
  NoDup (subset_key ["date"; "symbol"; "data_source"] <$> rows df) →
  ∀ n, Found_duplicate_records n ∉ warnings (validate_transformed_data df).2.
Proof.
  intros Hkeys.
  assert (count_true (duplicated (subset_key ["date"; "symbol"; "data_source"])
                        (rows df)) = 0%nat) as Hcount
    by (by apply duplicated_NoDup).
  pose proof (validate_transformed_body_no_duplicate _ Hcount initial_results)
    as Hkeeps.
  unfold validate_transformed_data.
  destruct (validate_transformed_body df initial_results)
    as [res [b|x]]; simpl in *; apply Hkeeps; intros n; apply not_elem_of_nil.
Qed.

Definition about_duplicates (w : warning) : bool :=
  match w with Found_duplicate_records _ => true | _ => false end.

Lemma consistency_warnings_not_about_duplicates df :
  List.filter about_duplicates (consistency_warnings df) = [].
Proof.
  unfold consistency_warnings. destruct (1 <? _)%nat; [|done].
  induction (series_unique (column "symbol" df)) as [|symbol l IH]; [done|].
  rewrite bind_cons, List.filter_app, IH, app_nil_r.
  unfold symbol_warnings.
  induction (series_unique _) as [|date l' IH']; [done|].
  rewrite bind_cons, List.filter_app, IH', app_nil_r.
  unfold date_warnings. by destruct (_ && _).
Qed.

(** X7. On a table that conforms to the schema, with text dates and no
    negative close price, the warning about duplicate records is given if
    and only if two rows share a business key, and the number it gives is
    the number of rows less the number of distinct business keys. *)
Theorem duplicate_records_counted df :
  validate get_transformed_data_schema df = None →
  forallb is_str (column "date" df) = true →
  (∀ r, r ∈ rows df → lt_zero (cell_at "close" r) = Return false) →
  let n := (length (rows df)
            - length (drop_duplicates
                        (subset_key ["date"; "symbol"; "data_source"])
                        (rows df)))%nat in
  List.filter about_duplicates (warnings (validate_transformed_data df).2)
  = if (0 <? n)%nat then [Found_duplicate_records n] else [].
Proof.
  intros Hschema Hdates Hclose n. apply is_str_reducible in Hdates.
  destruct (validate_transformed_conforming df Hschema Hdates) as [m ->];
    [by apply Forall_forall|].
  cbn [snd warnings]. unfold transformed_warnings.
  rewrite !List.filter_app, consistency_warnings_not_about_duplicates, app_nil_r.
  assert (count_true (duplicated (subset_key ["date"; "symbol"; "data_source"])
                        (rows df)) = n) as Hn.
  { pose proof (count_duplicated_from
                  (subset_key ["date"; "symbol"; "data_source"]) [] (rows df)).
    unfold duplicated, drop_duplicates in *. lia. }
  unfold duplicate_records. rewrite Hn.
  unfold high_value, high_volatility.
  destruct (series_max (column "close" df)) as [v1|]; [destruct (exceeds _ v1)|];
    destruct (series_max (column "volume" df)) as [v2|];
    try destruct (exceeds _ v2);
    destruct (0 <? length _)%nat; simpl; by destruct (0 <? n)%nat.
Qed.

(** ** Examples *)

(** The record of AAPL on 2023-09-01 from two sources; [close] is the
    close price of the second source. *)
Definition two_sources (close : float) : DataFrame :=
  {| columns := transformed_columns;
     rows := [aapl_alpha;
              record "2023-09-01" "AAPL" 180.31 182.05 179.22 close 52123400
                "yahoo_finance" 5.37 1.57] |}.

(** [pd.to_datetime] on one value, for ISO dates. *)
Definition to_datetime_scalar_iso (c : cell) : outcome cell :=
  match c with
  | Str s =>
      t ← of_option (ValueError "Unknown datetime string format") (parse_ymd s);
      Return (Ts t)
  | _ => Return c
  end.

(** Six o'clock in the morning of a day. *)
Definition morning_of (y m d : Z) : Z :=
  days_from_civil y m d * ns_per_day + 6 * 3600 * 10 ^ 9.

Definition validate_raw_example (now : Z) (df : DataFrame)
    (validation_type : option string) : DataFrame * (bool * validation_results) :=
  validate_raw_data to_datetime_iso to_datetime_scalar_iso now now
    df validation_type.

(** The spread of 181.15 and 190.00 is below the threshold, that of 181.15
    and 195.00 above it. *)
Lemma two_sources_within_threshold :
  (validate_transformed_data (two_sources 190)).1 = true ∧
  warnings (validate_transformed_data (two_sources 190)).2 = [].
Proof. split; vm_compute; reflexivity. Qed.

Lemma two_sources_beyond_threshold :
  (validate_transformed_data (two_sources 195)).1 = true ∧
  warnings (validate_transformed_data (two_sources 195)).2
  = [Price_inconsistency (Str "AAPL") (Str "2023-09-01") 7.6455975710736919].
Proof. split; vm_compute; reflexivity. Qed.

Lemma two_sources_conform :
  validate get_transformed_data_schema (two_sources 195) = None.
Proof. vm_compute. reflexivity. Qed.

Lemma two_sources_dates :
  forallb is_str (column "date" (two_sources 195)) = true.
Proof. vm_compute. reflexivity. Qed.

Lemma two_sources_close r :
  r ∈ rows (two_sources 195) → lt_zero (cell_at "close" r) = Return false.
Proof.
  unfold two_sources; simpl. rewrite !elem_of_cons, elem_of_nil.
  intros [->|[->|[]]]; vm_compute; reflexivity.
Qed.

Lemma conforming_table_passes_iff_witness :
  (validate_transformed_data (two_sources 195)).1 = true ↔
  ∀ r, r ∈ rows (two_sources 195) → lt_zero (cell_at "close" r) = Return false.
Proof.
  exact (proj1 (conforming_table_passes_iff (two_sources 195)
                  two_sources_conform two_sources_dates)).
Defined.


Lemma merged_example_merged :
  merge_frames [table_with_duplicate] = Return merged_example.
Proof. vm_compute. reflexivity. Qed.

Lemma merged_example_keys :
  NoDup (subset_key ["date"; "symbol"; "data_source"] <$> rows merged_example).
Proof.
  destruct (proj1 (merge_frames_Return _ _) merged_example_merged)
    as (cat & _ & _ & E).
  rewrite E. apply merged_rows_NoDup.
Qed.

Lemma unique_keys_no_duplicate_warning_witness :
  Forall (λ w, about_duplicates w = false)
    (warnings (validate_transformed_data merged_example).2).
Proof.
  apply Forall_forall. intros w Hw. destruct w; try done.
  destruct (unique_keys_no_duplicate_warning merged_example merged_example_keys
              _ Hw).
Defined.

Lemma table_with_duplicate_conforms :
  validate get_transformed_data_schema table_with_duplicate = None.
Proof. vm_compute. reflexivity. Qed.

Lemma table_with_duplicate_dates :
  forallb is_str (column "date" table_with_duplicate) = true.
Proof. vm_compute. reflexivity. Qed.

Lemma table_with_duplicate_close r :
  r ∈ rows table_with_duplicate → lt_zero (cell_at "close" r) = Return false.
Proof.
  unfold table_with_duplicate; simpl. rewrite !elem_of_cons, elem_of_nil.
  intros [->|[->|[->|[->|[]]]]]; vm_compute; reflexivity.
Qed.

Lemma duplicate_records_counted_witness :
  let n := (length (rows table_with_duplicate)
            - length (drop_duplicates
                        (subset_key ["date"; "symbol"; "data_source"])
                        (rows table_with_duplicate)))%nat in
  List.filter about_duplicates
    (warnings (validate_transformed_data table_with_duplicate).2)
  = if (0 <? n)%nat then [Found_duplicate_records n] else [].
Proof.
  exact (duplicate_records_counted table_with_duplicate
           table_with_duplicate_conforms table_with_duplicate_dates
           table_with_duplicate_close).
Defined.

(** The table with the duplicate has four rows for three business keys. *)
Lemma table_with_duplicate_warning :
  warnings (validate_transformed_data table_with_duplicate).2
  = [Found_duplicate_records 1].
Proof. vm_compute. reflexivity. Qed.

(** The raw table of the normalisation example, validated on the morning
    of 2023-09-01: the record of 2023-09-02 lies in the future. *)
Definition raw_dates : list cell :=
  [Ts (days_from_civil 2023 9 2 * ns_per_day);
   Ts (days_from_civil 2023 9 1 * ns_per_day)].

Lemma raw_alpha_early_checks : early_checks_pass raw_alpha None.
Proof.
  split_and!.
  - reflexivity.
  - intros c Hc. unfold required_columns in Hc.
    rewrite !elem_of_cons, elem_of_nil in Hc.
    destruct Hc as [->|[->|[->|[->|[]]]]];
      unfold raw_alpha, raw_columns; simpl; repeat first [by left|right].
  - reflexivity.
  - unfold raw_alpha; simpl. repeat constructor.
Qed.

Lemma raw_alpha_dates : dates_of to_datetime_iso raw_alpha = Return raw_dates.
Proof. vm_compute. reflexivity. Qed.

Lemma raw_future_dates_witness :
  validate_raw_example (morning_of 2023 9 1) raw_alpha None
  = (setitem "date_temp" raw_dates raw_alpha,
     (false, failed (Found_records_with_future_dates 1) initial_results)).
Proof.
  pose proof (raw_future_dates to_datetime_iso to_datetime_scalar_iso
                (morning_of 2023 9 1) (morning_of 2023 9 1)
                raw_alpha None raw_dates raw_alpha_dates eq_refl eq_refl) as H.
  cbv zeta in H. destruct H as (_ & _ & H).
  apply (H raw_alpha_early_checks).
  vm_compute. reflexivity.
Defined.

(** C7: the frame [validate_raw_data] is given is not the same after the
    call.  On the morning of 2023-09-03 the raw table of the normalisation
    example passes the validation, and the frame, which had no column
    [date_temp], has got one. *)
Lemma validate_raw_adds_date_temp :
  (validate_raw_example (morning_of 2023 9 3) raw_alpha None).2.1 = true ∧
  (validate_raw_example (morning_of 2023 9 3) raw_alpha None).1
  = setitem "date_temp" raw_dates raw_alpha ∧
  "date_temp" ∉ columns raw_alpha.
Proof.
  split_and!; [vm_compute; reflexivity..|].
  unfold raw_alpha, raw_columns; simpl. rewrite !not_elem_of_cons.
  split_and!; [discriminate..|]. apply not_elem_of_nil.
Qed.

(** A raw record with a negative close price. *)
Definition raw_negative : row :=
  raw_record "2023-09-01" 180.31 182.05 179.22 (-181.15) 52123400
    "AAPL" "alpha_vantage".

Lemma negative_close_fails_witness :
  let raw := (validate_raw_example (morning_of 2023 9 3)
                {| columns := raw_columns; rows := [raw_negative] |}
                (Some "alpha_vantage")).2 in
  let transformed :=
    validate_transformed_data
      {| columns := raw_columns; rows := [raw_negative] |} in
  (raw.1 = false ∧ passed raw.2 = false ∧ errors raw.2 ≠ []) ∧
  (transformed.1 = false ∧ passed transformed.2 = false ∧
   errors transformed.2 ≠ []).
Proof.
  apply (negative_close_fails to_datetime_iso to_datetime_scalar_iso
           (morning_of 2023 9 3) (morning_of 2023 9 3)
           {| columns := raw_columns; rows := [raw_negative] |}
           (Some "alpha_vantage") raw_negative).
  - left.
  - vm_compute. reflexivity.
Defined.

(** C1, as stated, fails: the check for consistency is the last step of the
    validation, and a validation that has ended before does not reach it.
    In each of these three tables the two records of AAPL on 2023-09-01
    come from two sources and their close prices are more than 5 per cent
    apart, and the report holds no warning and has not passed.  In the
    first the record of MSFT has a negative close price; the second has no
    column [processed_at], which the schema asks for; in the third the date
    of the record of MSFT is the number 20230902 beside the text of the
    other dates, and [df['date'].min()] raises. *)
Definition two_sources_and_negative : DataFrame :=
  {| columns := transformed_columns;
     rows := rows (two_sources 195)
             ++ [record "2023-09-02" "MSFT" 181.22 183.55 180.13 (-182.92)
                   48726500 "alpha_vantage" 0.94 1.89] |}.

Definition two_sources_unprocessed : DataFrame :=
  {| columns := ["date"; "symbol"; "open"; "high"; "low"; "close"; "volume";
                 "data_source"; "daily_change_pct"; "daily_volatility"];
     rows := delete "processed_at" <$> rows (two_sources 195) |}.

Definition two_sources_and_number : DataFrame :=
  {| columns := transformed_columns;
     rows := rows (two_sources 195)
             ++ [<["date" := Int 20230902]>
                   (record "2023-09-02" "MSFT" 181.22 183.55 180.13 182.92
                      48726500 "alpha_vantage" 0.94 1.89)] |}.

(** The records of AAPL on 2023-09-01 in a table: their sources and the
    spread of their close prices. *)
Definition aapl_group (df : DataFrame) : list cell * float :=
  let group :=
    rows_where "date" (Str "2023-09-01")
      (rows_where "symbol" (Str "AAPL") (rows df)) in
  (cell_at "data_source" <$> group, spread group).


(** C6, as stated, fails for the transformed stage: on the morning of
    2023-09-03 a record dated 2099-12-31 fails [validate_raw_data] with the
    error for future dates, and passes [validate_transformed_data], which
    has no check of the dates. *)
Definition table_of_2099 : DataFrame :=
  {| columns := transformed_columns;
     rows := [record "2099-12-31" "AAPL" 180.31 182.05 179.22 181.15 52123400
                "alpha_vantage" 0.47 1.57] |}.

Lemma future_date_passes_transformed :
  (validate_raw_example (morning_of 2023 9 3) table_of_2099 None).2
  = (false, failed (Found_records_with_future_dates 1) initial_results) ∧
  (validate_transformed_data table_of_2099).1 = true ∧
  passed (validate_transformed_data table_of_2099).2 = true ∧
  errors (validate_transformed_data table_of_2099).2 = [].
Proof. split_and!; vm_compute; reflexivity. Qed.
End Validators.

(** * Load: [dags/utils/loaders.py] *)

Module Loaders.

(** The values of the result dicts. *)
Inductive value :=
  | text (s : string)
  | integer (z : Z)
  | none.

Global Instance value_eq_dec : EqDecision value.
Proof. solve_decision. Defined.

Notation dict := (gmap string value).

(** [bigquery.SchemaField] *)
Record SchemaField := {
  name : string;
  field_type : string;
  mode : string;
  description : option string
}.

(** [bigquery.LoadJobConfig] *)
Record LoadJobConfig := {
  source_format : string;
  skip_leading_rows : Z;
  autodetect : bool;
  schema : option (list SchemaField);
  write_disposition : string
}.

(** The statement [upsert_to_bigquery] builds: the text of the f-string is
    fixed, its values are the target, the source, the columns of the [ON]
    condition, of [UPDATE SET] and of [INSERT ... VALUES]. *)
Record merge_query := MERGE {
  target : string;
  source : string;
  on : list string;
  update_set : list string;
  insert : list string
}.

(** The calls to the warehouse. *)
Inductive request :=
  | Client (project : option string)
  | load_table_from_file (source_file : string) (table_id : string)
      (job_config : LoadJobConfig)
  | load_job_result (job_id : string)
  | get_table (table_id : string)
  | query (q : merge_query)
  | query_job_result (job_id : string).

Inductive log_message :=
  | Loading_data (data_path table_id : string)
  | File_size (megabytes : float)
  | Loaded_rows (rows_loaded : value) (table_id : string)
  | Error_loading (e : string)
  | Upserting_data (data_path table_id : string)
  | Failed_to_load_temporary_table
  | Upserted_rows (rows_affected : value) (table_id : string)
  | Error_upserting (e : string).

(** What a run leaves behind: the calls made and the records logged, in
    order. *)
Inductive event :=
  | called (r : request)
  | logged (l : Transformers.level) (m : log_message).

(** The warehouse, as the client library shows it: every call changes the
    state of the warehouse and returns or raises.  [load_table_from_file]
    is given the bytes of the file and returns the id of the job;
    [result()] of a load job gives its [output_rows] and [errors],
    [get_table] the [num_rows] and the names of the schema fields,
    [result()] of a query job its [num_dml_affected_rows]. *)
Record BigQuery (W : Type) := {
  bq_Client : option string → W → W * outcome ();
  bq_load_table_from_file :
    string → string → LoadJobConfig → W → W * outcome string;
  bq_load_job_result : string → W → W * outcome (Z * value);
  bq_get_table : string → W → W * outcome (Z * list string);
  bq_query : merge_query → W → W * outcome string;
  bq_query_job_result : string → W → W * outcome Z
}.
Global Arguments bq_Client {W}.
Global Arguments bq_load_table_from_file {W}.
Global Arguments bq_load_job_result {W}.
Global Arguments bq_get_table {W}.
Global Arguments bq_query {W}.
Global Arguments bq_query_job_result {W}.

Section loaders.
Context {W : Type} (bq : BigQuery W).
(** [os.path.getsize(path)], and the bytes [open(path, 'rb')] gives to
    [load_table_from_file]; each returns or raises. *)
Variable getsize : string → outcome Z.
Variable open_rb : string → outcome string.

(** The state of a run: the warehouse and the events so far. *)
Notation L := (stateful (W * list event)).

(** A call: the request is noted, then made. *)
Definition call {A} (r : request) (op : W → W * outcome A) : L A :=
  λ s, let '(w, o) := op s.1 in ((w, s.2 ++ [called r]), o).

Definition log (l : Transformers.level) (m : log_message) : L () :=
  modify (λ s, (s.1, s.2 ++ [logged l m])).

(** [try: ... except GoogleCloudError as e: ...]: any other exception
    passes. *)
Definition except_GoogleCloudError {A} (body : L A) (handler : string → L A)
    : L A :=
  λ s, match body s with
       | (s', Raise (GoogleCloudError e)) => handler e s'
       | r => r
       end.

Definition error_dict (e : string) : dict :=
  {[ "status" := text "error"; "errors" := text e ]}.

Definition load_to_bigquery (data_path table_id : string)
    (schema : option (list SchemaField)) (project_id : option string)
    (write_disposition : string) : L dict :=
  _ ← log Transformers.INFO (Loading_data data_path table_id);
  _ ← call (Client project_id) (bq_Client bq project_id);
  let job_config :=
    {| source_format := "CSV"; skip_leading_rows := 1;
       autodetect := bool_decide (schema = None); schema := schema;
       write_disposition := write_disposition |} in
  size ← lift (getsize data_path);
  let file_size :=
    PrimFloat.div (float_of_int64 size) (float_of_int64 (1024 * 1024)) in
  _ ← log Transformers.INFO (File_size file_size);
  except_GoogleCloudError
    (source_file ← lift (open_rb data_path);
     load_job ← call (load_table_from_file source_file table_id job_config)
                  (bq_load_table_from_file bq source_file table_id job_config);
     done ← call (load_job_result load_job) (bq_load_job_result bq load_job);
     table ← call (get_table table_id) (bq_get_table bq table_id);
     let results : dict :=
       {[ "job_id" := text load_job;
          "rows_loaded" := integer done.1;
          "errors" := done.2;
          "table_rows" := integer table.1;
          "status" := text "success" ]} in
     _ ← log Transformers.INFO (Loaded_rows (integer done.1) table_id);
     mret results)
    (λ e, _ ← log Transformers.ERROR (Error_loading e); mret (error_dict e)).

Definition upsert_to_bigquery (data_path table_id temp_table_id : string)
    (key_columns : list string) (schema : option (list SchemaField))
    (project_id : option string) : L dict :=
  _ ← log Transformers.INFO (Upserting_data data_path table_id);
  _ ← call (Client project_id) (bq_Client bq project_id);
  temp_load_result ←
    load_to_bigquery data_path temp_table_id schema project_id "WRITE_TRUNCATE";
  if decide (temp_load_result !! "status" ≠ Some (text "success")) then
    _ ← log Transformers.ERROR Failed_to_load_temporary_table;
    mret temp_load_result
  else
    except_GoogleCloudError
      (temp_table ← call (get_table temp_table_id) (bq_get_table bq temp_table_id);
       let columns := temp_table.2 in
       let update_columns := filter (λ col, col ∉ key_columns) columns in
       let merge_query :=
         MERGE table_id temp_table_id key_columns update_columns columns in
       query_job ← call (query merge_query) (bq_query bq merge_query);
       rows ← call (query_job_result query_job) (bq_query_job_result bq query_job);
       let results : dict :=
         {[ "job_id" := text query_job;
            "rows_affected" := integer rows;
            "status" := text "success" ]} in
       _ ← log Transformers.INFO (Upserted_rows (integer rows) table_id);
       mret results)
      (λ e, _ ← log Transformers.ERROR (Error_upserting e); mret (error_dict e)).

(** *** What a run calls *)

(** The calls of a run, without the log. *)
Definition calls (events : list event) : list request :=
  omap (λ e, match e with called r => Some r | logged _ _ => None end) events.

(** The tables a call names. *)
Definition tables_of (r : request) : list string :=
  match r with
  | load_table_from_file _ table_id _ => [table_id]
  | get_table table_id => [table_id]
  | query q => [target q; source q]
  | _ => []
  end.

(** The configuration of the load into the staging table. *)
Definition staging_config (schema : option (list SchemaField)) : LoadJobConfig :=
  {| source_format := "CSV"; skip_leading_rows := 1;
     autodetect := bool_decide (schema = None); schema := schema;
     write_disposition := "WRITE_TRUNCATE" |}.

(** A run of [upsert_to_bigquery] from a warehouse [w], nothing called or
    logged before. *)
Definition upsert_run (w : W) (data_path table_id temp_table_id : string)
    (key_columns : list string) (schema : option (list SchemaField))
    (project_id : option string) : (W * list event) * outcome dict :=
  upsert_to_bigquery data_path table_id temp_table_id key_columns schema
    project_id (w, []).

Lemma calls_app l1 l2 : calls (l1 ++ l2) = calls l1 ++ calls l2.
Proof. apply omap_app. Qed.

Lemma calls_called events r : calls (events ++ [called r]) = calls events ++ [r].
Proof. by rewrite calls_app. Qed.

Lemma calls_logged events l m : calls (events ++ [logged l m]) = calls events.
Proof. rewrite calls_app. apply app_nil_r. Qed.

(** The calls of a trace that is written out. *)
Ltac trace :=
  unfold mbind, stateful_bind, log, modify, mret, stateful_ret;
  cbn [fst snd];
  repeat first [rewrite calls_called|rewrite calls_logged];
  rewrite <- ?app_assoc; cbn [app]; try done.

(** What becomes of an exception inside a [try] block of the loaders. *)
Definition reported (e : exn) : outcome dict :=
  match e with
  | GoogleCloudError msg => Return (error_dict msg)
  | _ => Raise e
  end.

Lemma status_error_dict e : error_dict e !! "status" = Some (text "error").
Proof. unfold error_dict. apply lookup_insert_eq. Qed.

(** The result of a load that succeeded. *)
Definition load_results (load_job : string) (done : Z * value) (table_rows : Z)
    : dict :=
  {[ "job_id" := text load_job;
     "rows_loaded" := integer done.1;
     "errors" := done.2;
     "table_rows" := integer table_rows;
     "status" := text "success" ]}.

Lemma status_load_results load_job done table_rows :
  load_results load_job done table_rows !! "status" = Some (text "success").
Proof.
  unfold load_results. rewrite !lookup_insert_ne by done.
  apply lookup_singleton_eq.
Qed.

(** The runs of [load_to_bigquery]: the calls it adds and its outcome, by
    the first call that raises. *)
Lemma load_to_bigquery_cases data_path table_id schema p disposition s :
  let run := load_to_bigquery data_path table_id schema p disposition s in
  let config :=
    {| source_format := "CSV"; skip_leading_rows := 1;
       autodetect := bool_decide (schema = None); schema := schema;
       write_disposition := disposition |} in
  (∃ e, (bq_Client bq p s.1).2 = Raise e ∧
        calls run.1.2 = calls s.2 ++ [Client p] ∧ run.2 = Raise e) ∨
  (∃ e, getsize data_path = Raise e ∧
        calls run.1.2 = calls s.2 ++ [Client p] ∧ run.2 = Raise e) ∨
  ∃ size, getsize data_path = Return size ∧
  ((∃ e, open_rb data_path = Raise e ∧
         calls run.1.2 = calls s.2 ++ [Client p] ∧ run.2 = reported e) ∨
  ∃ data, open_rb data_path = Return data ∧
    let Ld := load_table_from_file data table_id config in
    (∃ e, calls run.1.2 = calls s.2 ++ [Client p; Ld] ∧ run.2 = reported e) ∨
    ∃ job,
      (∃ e, calls run.1.2 = calls s.2 ++ [Client p; Ld; load_job_result job] ∧
            run.2 = reported e) ∨
      (∃ e, calls run.1.2
            = calls s.2 ++ [Client p; Ld; load_job_result job; get_table table_id] ∧
            run.2 = reported e) ∨
      ∃ done table_rows,
        calls run.1.2
        = calls s.2 ++ [Client p; Ld; load_job_result job; get_table table_id] ∧
        run.2 = Return (load_results job done table_rows)).
Proof.
  intros run config.
  assert (run = load_to_bigquery data_path table_id schema p disposition s)
    as Hrun by done.
  clearbody run. unfold load_to_bigquery in Hrun. fold config in Hrun.
  destruct s as [w tr]. cbn [fst snd].
  unfold mbind at 1, stateful_bind at 1, log at 1, modify at 1 in Hrun.
  unfold mbind at 1, stateful_bind at 1, call at 1 in Hrun. cbn [fst snd] in Hrun.
  destruct (bq_Client bq p w) as [w1 [[]|e]].
  2: { left. exists e. split; [done|]. subst run. by trace. }
  right.
  unfold mbind at 1, stateful_bind at 1, lift at 1 in Hrun.
  destruct (getsize data_path) as [size|e] eqn:Hsize.
  2: { left. exists e. split; [done|]. subst run. by trace. }
  right. exists size. split; [done|].
  unfold mbind at 1, stateful_bind at 1, log at 1, modify at 1 in Hrun.
  cbn [fst snd] in Hrun.
  unfold except_GoogleCloudError at 1 in Hrun.
  unfold mbind at 1, stateful_bind at 1, lift at 1 in Hrun.
  destruct (open_rb data_path) as [data|e] eqn:Hfile.
  2: { left. exists e. split; [done|]. subst run. destruct e; by trace. }
  right. exists data. split; [done|]. cbv zeta.
  unfold mbind at 1, stateful_bind at 1, call at 1 in Hrun. cbn [fst snd] in Hrun.
  destruct (bq_load_table_from_file bq data table_id config w1) as [w2 [job|e]].
  2: { left. exists e. subst run.
       destruct e; by trace. }
  right. exists job.
  unfold mbind at 1, stateful_bind at 1, call at 1 in Hrun. cbn [fst snd] in Hrun.
  destruct (bq_load_job_result bq job w2) as [w3 [done|e]].
  2: { left. exists e. subst run.
       destruct e; by trace. }
  right.
  unfold mbind at 1, stateful_bind at 1, call at 1 in Hrun. cbn [fst snd] in Hrun.
  destruct (bq_get_table bq table_id w3) as [w4 [table|e]].
  2: { left. exists e. subst run.
       destruct e; by trace. }
  right. exists done, table.1. subst run. by trace.
Qed.

(** The result of an upsert that succeeded. *)
Definition upsert_results (query_job : string) (rows : Z) : dict :=
  {[ "job_id" := text query_job;
     "rows_affected" := integer rows;
     "status" := text "success" ]}.

(** The calls of an upsert up to the statement, when none raises. *)
Definition staged (p : option string) (data : string) (temp_table_id : string)
    (schema : option (list SchemaField)) (job : string) : list request :=
  [Client p; Client p;
   load_table_from_file data temp_table_id (staging_config schema);
   load_job_result job; get_table temp_table_id; get_table temp_table_id].

(** The runs of [upsert_to_bigquery]: the calls made and the outcome, by
    the first call that raises. *)
Lemma upsert_run_cases w data_path table_id temp_table_id key_columns schema p :
  let run := upsert_run w data_path table_id temp_table_id key_columns schema p in
  let C := Client p in
  (∃ e, (bq_Client bq p w).2 = Raise e ∧
        calls run.1.2 = [C] ∧ run.2 = Raise e) ∨
  (∃ e w', (bq_Client bq p w').2 = Raise e ∧
           calls run.1.2 = [C; C] ∧ run.2 = Raise e) ∨
  (∃ e, getsize data_path = Raise e ∧ calls run.1.2 = [C; C] ∧
        run.2 = Raise e) ∨
  ∃ size, getsize data_path = Return size ∧
  ((∃ e, open_rb data_path = Raise e ∧ calls run.1.2 = [C; C] ∧
         run.2 = reported e) ∨
  ∃ data, open_rb data_path = Return data ∧
    let Ld := load_table_from_file data temp_table_id (staging_config schema) in
    (∃ e, calls run.1.2 = [C; C; Ld] ∧ run.2 = reported e) ∨
    ∃ job,
      (∃ e, calls run.1.2 = [C; C; Ld; load_job_result job] ∧
            run.2 = reported e) ∨
      (∃ e, calls run.1.2 = [C; C; Ld; load_job_result job;
                             get_table temp_table_id] ∧
            run.2 = reported e) ∨
      (∃ e, calls run.1.2 = staged p data temp_table_id schema job ∧
            run.2 = reported e) ∨
      ∃ columns,
        let q := MERGE table_id temp_table_id key_columns
                   (filter (λ col, col ∉ key_columns) columns) columns in
        (∃ e, calls run.1.2
              = staged p data temp_table_id schema job ++ [query q] ∧
              run.2 = reported e) ∨
        ∃ query_job,
          (∃ e, calls run.1.2
                = staged p data temp_table_id schema job
                  ++ [query q; query_job_result query_job] ∧
                run.2 = reported e) ∨
          ∃ rows,
            calls run.1.2
            = staged p data temp_table_id schema job
              ++ [query q; query_job_result query_job] ∧
            run.2 = Return (upsert_results query_job rows)).
Proof.
  intros run C.
  assert (run = upsert_run w data_path table_id temp_table_id key_columns
                  schema p) as Hrun by done.
  clearbody run. unfold upsert_run, upsert_to_bigquery in Hrun.
  unfold mbind at 1, stateful_bind at 1, log at 1, modify at 1 in Hrun.
  unfold mbind at 1, stateful_bind at 1, call at 1 in Hrun. cbn [fst snd] in Hrun.
  destruct (bq_Client bq p w) as [w1 [[]|e]].
  2: { left. exists e. split; [done|]. subst run. by trace. }
  right.
  unfold mbind at 1, stateful_bind at 1 in Hrun.
  pose proof (load_to_bigquery_cases data_path temp_table_id schema p
                "WRITE_TRUNCATE"
                (w1, ([] ++ [logged Transformers.INFO
                               (Upserting_data data_path table_id)])
                     ++ [called (Client p)])) as Hload.
  cbv zeta in Hload. fold (staging_config schema) in Hload.
  destruct (load_to_bigquery _ _ _ _ _ _) as [[w2 tr2] o2].
  cbn [fst snd] in Hload. rewrite calls_called, calls_logged in Hload.
  cbn [calls omap app] in Hload.
  (* a staging load that raises or reports an error ends the run *)
  assert (∀ e, o2 = reported e → calls run.1.2 = calls tr2 ∧ run.2 = reported e)
    as Hreported.
  { intros e ->. subst run. destruct e; cbn [reported]; try by trace.
    rewrite decide_True by (by rewrite status_error_dict). by trace. }
  destruct Hload as [(e & He & Hc & ->)|[(e & Hsize & Hc & ->)|
    (size & Hsize & [(e & Hfile & Hc & ->)|(data & Hfile & Hload)])]].
  { left. exists e, w1. split; [done|]. subst run. by trace. }
  { right. left. exists e. split; [done|]. subst run. by trace. }
  { do 2 right. exists size. split; [done|]. left. exists e. split; [done|].
    destruct (Hreported e eq_refl) as [-> ->]. by rewrite Hc. }
  do 2 right. exists size. split; [done|]. right.
  exists data. split; [done|]. cbv zeta.
  destruct Hload as [(e & Hc & ->)|(job & Hload)].
  { left. exists e. destruct (Hreported e eq_refl) as [-> ->]. by rewrite Hc. }
  right. exists job.
  destruct Hload as [(e & Hc & ->)|[(e & Hc & ->)|(done & table_rows & Hc & ->)]].
  { left. exists e. destruct (Hreported e eq_refl) as [-> ->]. by rewrite Hc. }
  { right. left. exists e. destruct (Hreported e eq_refl) as [-> ->]. by rewrite Hc. }
  do 2 right. clear Hreported.
  rewrite decide_False in Hrun by (by rewrite status_load_results; intros []).
  unfold except_GoogleCloudError at 1 in Hrun.
  unfold mbind at 1, stateful_bind at 1, call at 1 in Hrun. cbn [fst snd] in Hrun.
  destruct (bq_get_table bq temp_table_id w2) as [w3 [temp_table|e]].
  2: { left. exists e. subst run. unfold staged.
       destruct e; trace; by rewrite Hc. }
  right. exists temp_table.2. cbv zeta.
  unfold mbind at 1, stateful_bind at 1, call at 1 in Hrun. cbn [fst snd] in Hrun.
  destruct (bq_query bq _ w3) as [w4 [query_job|e]].
  2: { left. exists e. subst run. unfold staged.
       destruct e; trace; by rewrite Hc. }
  right. exists query_job.
  unfold mbind at 1, stateful_bind at 1, call at 1 in Hrun. cbn [fst snd] in Hrun.
  destruct (bq_query_job_result bq query_job w4) as [w5 [rows|e]].
  2: { left. exists e. subst run. unfold staged.
       destruct e; trace; by rewrite Hc. }
  right. exists rows. subst run. unfold staged. trace. by rewrite Hc.
Qed.

(** An exception that a [try] block lets pass is no [GoogleCloudError]. *)
Lemma reported_Raise e msg : reported e ≠ Raise (GoogleCloudError msg).
Proof. by destruct e. Qed.

Lemma reported_Return e d : reported e = Return d → ∃ msg, d = error_dict msg.
Proof. destruct e; try done. intros [= <-]. by eexists. Qed.

(** Membership in a list of calls that is written out. *)
Ltac member H :=
  unfold staged in H; cbn [app] in H;
  repeat (apply elem_of_cons in H as [H|H]; [try discriminate H|]);
  try (by apply elem_of_nil in H).

(** A run of [load_to_bigquery] from a warehouse [w], nothing called or
    logged before. *)
Definition load_run (w : W) (data_path table_id : string)
    (schema : option (list SchemaField)) (project_id : option string)
    (write_disposition : string) : (W * list event) * outcome dict :=
  load_to_bigquery data_path table_id schema project_id write_disposition (w, []).

(** *** The runs of [upsert_to_bigquery] *)

(** The events before the staging load: the first record logged and the
    creation of the first client. *)
Definition before_staging (data_path table_id : string)
    (project_id : option string) : list event :=
  [logged Transformers.INFO (Upserting_data data_path table_id);
   called (Client project_id)].

(** The calls of [load_to_bigquery] name no table but the one it loads, and
    send no query. *)
Lemma load_to_bigquery_calls data_path table_id schema p disposition w tr r :
  let run := load_to_bigquery data_path table_id schema p disposition (w, tr) in
  r ∈ calls run.1.2 →
  r ∈ calls tr ∨ (∀ q, r ≠ query q) ∧ (∀ t, t ∈ tables_of r → t = table_id).
Proof.
  intros run Hin.
  pose proof (load_to_bigquery_cases data_path table_id schema p disposition
                (w, tr)) as Hcases.
  cbv zeta in Hcases. fold run in Hcases. cbn [fst snd] in Hcases.
  assert (∀ t : string, t ∈ [table_id] → t = table_id) as Hone.
  { intros t Ht. apply elem_of_cons in Ht as [Ht|Ht]; [done|].
    by apply elem_of_nil in Ht. }
  destruct Hcases as [(e & _ & Hc & _)|[(e & _ & Hc & _)|
    (size & _ & [(e & _ & Hc & _)|(data & _ & Hcases)])]].
  4: destruct Hcases as [(e & Hc & _)|(job & [(e & Hc & _)|[(e & Hc & _)|
       (done & rows & Hc & _)]])].
  all: rewrite Hc in Hin; apply elem_of_app in Hin as [Hin|Hin]; [by left|right].
  all: member Hin; subst r; cbn [tables_of].
  all: split; [done|]; intros t Ht; first [by apply elem_of_nil in Ht|by apply Hone].
Qed.



(** X9 ([upsert_to_bigquery]): when the temporary table is not the target,
    a run of [upsert_to_bigquery] names the target in no call but the
    [MERGE] statement: it never loads into the target and never looks it
    up. *)
Theorem upsert_reaches_target_by_merge w data_path table_id temp_table_id
    key_columns schema p r :
  let run := upsert_run w data_path table_id temp_table_id key_columns schema p in
  table_id ≠ temp_table_id →
  r ∈ calls run.1.2 →
  table_id ∈ tables_of r →
  ∃ columns,
    r = query (MERGE table_id temp_table_id key_columns
                 (filter (λ col, col ∉ key_columns) columns) columns).
Proof.
  intros run Hne Hin Htable.
  assert (∀ t : string, table_id ∈ [t] → t = table_id) as Hone.
  { intros t Ht. apply elem_of_cons in Ht as [Ht|Ht]; [done|].
    by apply elem_of_nil in Ht. }
  pose proof (upsert_run_cases w data_path table_id temp_table_id key_columns
                schema p) as Hcases.
  cbv zeta in Hcases. fold run in Hcases.
  destruct Hcases as [(e & _ & Hc & _)|[(e & w' & _ & Hc & _)|
    [(e & _ & Hc & _)|(size & _ & [(e & _ & Hc & _)|
      (data & Hfile & Hcases)])]]].
  5: destruct Hcases as [(e & Hc & _)|(job & Hcases)].
  6: destruct Hcases as [(e & Hc & _)|[(e & Hc & _)|[(e & Hc & _)|
       (columns & Hcases)]]].
  9: destruct Hcases as [(e & Hc & _)|(query_job & [(e & Hc & _)|(rows & Hc & _)])].
  all: rewrite Hc in Hin; member Hin; subst r; cbn [tables_of] in Htable.
  all: try (by apply elem_of_nil in Htable).
  all: try (by apply Hone in Htable).
  all: by eexists.
Qed.


(** X11 ([upsert_to_bigquery], [load_to_bigquery]): when
    [os.path.getsize] raises, as it does for a path without a file,
    [upsert_to_bigquery] returns no result: it raises, having called nothing
    but [bigquery.Client]; and when the client can be created, what it
    raises is the exception of [os.path.getsize], which no [try] block of
    the loaders catches. *)
Theorem upsert_missing_file w data_path table_id temp_table_id key_columns
    schema p e :
  let run := upsert_run w data_path table_id temp_table_id key_columns schema p in
  getsize data_path = Raise e →
  (∃ e', run.2 = Raise e') ∧
  Forall (λ r, r = Client p) (calls run.1.2) ∧
  ((∀ w', ∃ w'', bq_Client bq p w' = (w'', Return ())) → run.2 = Raise e).
Proof.
  intros run Hmissing.
  pose proof (upsert_run_cases w data_path table_id temp_table_id key_columns
                schema p) as Hcases.
  cbv zeta in Hcases. fold run in Hcases.
  destruct Hcases as [(e' & Hclient & Hc & He)|[(e' & w' & Hclient & Hc & He)|
    [(e' & Hsize & Hc & He)|(size & Hsize & _)]]].
  - split; [by exists e'|]. split; [rewrite Hc; by repeat constructor|].
    intros Hok. destruct (Hok w) as [w'' Hw]. by rewrite Hw in Hclient.
  - split; [by exists e'|]. split; [rewrite Hc; by repeat constructor|].
    intros Hok. destruct (Hok w') as [w'' Hw]. by rewrite Hw in Hclient.
  - split; [by eexists|]. split; [rewrite Hc; by repeat constructor|].
    intros _. congruence.
  - congruence.
Qed.

End loaders.

Global Arguments load_run {W}.
Global Arguments upsert_run {W}.


(** *** Warehouses and files to run the loaders against *)

(** A warehouse that answers every call; its state counts the calls. *)
Definition answering : BigQuery Z :=
  {| bq_Client := λ _ n, (n + 1, Return ());
     bq_load_table_from_file := λ _ _ _ n, (n + 1, Return "load-1");
     bq_load_job_result := λ _ n, (n + 1, Return (3, none));
     bq_get_table := λ _ n, (n + 1, Return (3, Transformers.transformed_columns));
     bq_query := λ _ n, (n + 1, Return "query-1");
     bq_query_job_result := λ _ n, (n + 1, Return 3) |}.

(** A machine without credentials: [bigquery.Client(project=...)] raises
    [google.auth.exceptions.DefaultCredentialsError]. *)
Definition without_credentials : BigQuery Z :=
  {| bq_Client := λ _ n, (n + 1, Raise DefaultCredentialsError);
     bq_load_table_from_file := bq_load_table_from_file answering;
     bq_load_job_result := bq_load_job_result answering;
     bq_get_table := bq_get_table answering;
     bq_query := bq_query answering;
     bq_query_job_result := bq_query_job_result answering |}.

(** A warehouse that refuses the load job with a [GoogleCloudError]. *)
Definition rejecting : BigQuery Z :=
  {| bq_Client := bq_Client answering;
     bq_load_table_from_file :=
       λ _ _ _ n, (n + 1, Raise (GoogleCloudError "400 Bad Request"));
     bq_load_job_result := bq_load_job_result answering;
     bq_get_table := bq_get_table answering;
     bq_query := bq_query answering;
     bq_query_job_result := bq_query_job_result answering |}.

(** A warehouse whose load job does not end in time: [load_job.result()]
    raises [concurrent.futures.TimeoutError], which is no
    [GoogleCloudError]. *)
Definition timing_out : BigQuery Z :=
  {| bq_Client := bq_Client answering;
     bq_load_table_from_file := bq_load_table_from_file answering;
     bq_load_job_result := λ _ n, (n + 1, Raise (Exception "TimeoutError"));
     bq_get_table := bq_get_table answering;
     bq_query := bq_query answering;
     bq_query_job_result := bq_query_job_result answering |}.

(** The files of the machine: path and bytes. *)
Definition merged_bytes : string :=
  "date,symbol,open,high,low,close,volume,data_source".

Definition merged_files : gmap string string :=
  {[ "/data/merged.csv" := merged_bytes ]}.

Definition getsize_in (files : gmap string string) (path : string)
    : outcome Z :=
  match files !! path with
  | Some bytes => Return (Z.of_nat (String.length bytes))
  | None => Raise (FileNotFoundError path)
  end.

Definition open_rb_in (files : gmap string string) (path : string)
    : outcome string :=
  of_option (FileNotFoundError path) (files !! path).

Definition stock_keys : list string := ["date"; "symbol"; "data_source"].

Definition upsert_example (bq : BigQuery Z) (data_path : string)
    : (Z * list event) * outcome dict :=
  upsert_run bq (getsize_in merged_files) (open_rb_in merged_files) 0
    data_path "stocks.daily" "stocks.daily_temp" stock_keys None None.

Definition load_example : (Z * list event) * outcome dict :=
  load_run answering (getsize_in merged_files) (open_rb_in merged_files) 0
    "/data/merged.csv" "stocks.daily" None None "WRITE_APPEND".

Definition merge_example : merge_query :=
  MERGE "stocks.daily" "stocks.daily_temp" stock_keys
    ["open"; "high"; "low"; "close"; "volume"; "processed_at";
     "daily_change_pct"; "daily_volatility"]
    Transformers.transformed_columns.

Lemma upsert_example_calls :
  calls (upsert_example answering "/data/merged.csv").1.2
  = staged None merged_bytes "stocks.daily_temp" None "load-1"
    ++ [query merge_example; query_job_result "query-1"].
Proof. vm_compute. reflexivity. Qed.

Lemma upsert_example_result :
  (upsert_example answering "/data/merged.csv").2
  = Return (upsert_results "query-1" 3).
Proof. vm_compute. reflexivity. Qed.

(** Against the warehouse that refuses the load job, the staging load
    reports the error. *)
Lemma rejected_staging :
  (load_to_bigquery rejecting (getsize_in merged_files)
     (open_rb_in merged_files) "/data/merged.csv" "stocks.daily_temp" None None
     "WRITE_TRUNCATE" (1, before_staging "/data/merged.csv" "stocks.daily" None)).2
  = Return (error_dict "400 Bad Request").
Proof. vm_compute. reflexivity. Qed.




Lemma upsert_reaches_target_by_merge_witness :
  ∃ columns,
    query merge_example
    = query (MERGE "stocks.daily" "stocks.daily_temp" stock_keys
               (filter (λ col, col ∉ stock_keys) columns) columns).
Proof.
  apply (upsert_reaches_target_by_merge answering (getsize_in merged_files)
           (open_rb_in merged_files) 0 "/data/merged.csv" "stocks.daily"
           "stocks.daily_temp" stock_keys None None (query merge_example)).
  - discriminate.
  - fold (upsert_example answering "/data/merged.csv").
    rewrite upsert_example_calls. apply elem_of_app. right. left.
  - left.
Defined.


Lemma upsert_missing_file_witness :
  (∃ e, (upsert_example answering "/data/nothing.csv").2 = Raise e) ∧
  Forall (λ r, r = Client None)
    (calls (upsert_example answering "/data/nothing.csv").1.2) ∧
  ((∀ w', ∃ w'', bq_Client answering None w' = (w'', Return ())) →
   (upsert_example answering "/data/nothing.csv").2
   = Raise (FileNotFoundError "/data/nothing.csv")).
Proof.
  apply (upsert_missing_file answering (getsize_in merged_files)
           (open_rb_in merged_files) 0 "/data/nothing.csv" "stocks.daily"
           "stocks.daily_temp" stock_keys None None).
  vm_compute. reflexivity.
Defined.

End Loaders.
